(** * Backup orchestration of cinder (cmss-cinder): a shallow embedding

    The development embeds the orchestration code of
    [cinder/backup/api.py], [cinder/backup/manager.py] and
    [cinder/backup/rpcapi.py] as functions in a state-and-exception monad
    over an abstract record store, and proves properties of the quota
    protocol, the incremental-chain selection, the restore bookkeeping,
    the instance-group poll loop and the start-up sweep, and of the
    requests for creation, restore, deletion and export followed through
    the executor. *)

From Stdlib Require Import ZArith Lia Ascii String.
From stdpp Require Import base option list strings gmap fin_maps pretty.

Local Open Scope Z_scope.
Local Open Scope string_scope.

(** ** Python string primitives *)

Module PyStr.

(** [sub in s] for two Python strings. *)
Fixpoint contains (sub s : string) : bool :=
  String.prefix sub s ||
  match s with
  | EmptyString => false
  | String _ s' => contains sub s'
  end.

(** [s[-6:]]: the last six characters, or all of [s] when it is shorter. *)
Definition last6 (s : string) : string :=
  String.substring (String.length s - 6) 6 s.

(** [s[:-6]]: everything but the last six characters. *)
Definition drop_last6 (s : string) : string :=
  String.substring 0 (String.length s - 6) s.

(** [s.partition('@')]: the text before the first separator, the
    separator when it occurs, and the text after it. *)
Fixpoint partition_at (s : string) : string * string * string :=
  match s with
  | EmptyString => (EmptyString, EmptyString, EmptyString)
  | String c s' =>
      if Ascii.eqb c "@"%char then (EmptyString, "@", s')
      else let '(h, sep, t) := partition_at s' in (String c h, sep, t)
  end.

(** Truthiness of an optional string: [None] and [''] are false. *)
Definition truthy (o : option string) : bool :=
  match o with
  | None => false
  | Some s => negb (String.eqb s EmptyString)
  end.

(** A string between double quotes. *)
Definition quoted (s : string) : string :=
  String (ascii_of_nat 34) (s ++ String (ascii_of_nat 34) EmptyString).

End PyStr.

(** ** Module constants *)

Definition MAGICSTR : string := "!@##@!".
Definition PERIODICSTR : string := "%#periodic%#".
Definition MOST_BACKUP_RETRIES : nat := 720.
Definition FUJITSU_CLONE_START : string := "[]_S_".
Definition FUJITSU_CLONE_END : string := "[]_F_".
Definition FUJITSI_VOLUME_TYPE_NAME : string := "fujitsu-ipsan".
Definition EBS_VOLUME_TYPE_NAME : string := "ebs-data".

(** ** Records of the store *)

Record Attachment := mkAttachment {
  att_id : string;
  attached_host : option string;
  instance_uuid : option string
}.

Record Volume := mkVolume {
  v_status : option string;
  v_size : Z;
  v_host : string;
  v_availability_zone : string;
  v_display_description : option string;
  v_volume_attachment : list Attachment;
  v_volume_type : option string
}.

Record Backup := mkBackup {
  b_volume_id : string;
  b_status : string;
  b_size : option Z;
  b_container : option string;
  b_parent_id : option string;
  b_host : option string;
  b_service : option string;
  b_display_name : option string;
  b_display_description : option string;
  b_fail_reason : option string;
  b_availability_zone : option string;
  b_project_id : string;
  b_user_id : string;
  b_created_at : Z
}.

Record Service := mkService {
  srv_host : string;
  srv_availability_zone : string;
  srv_disabled : bool;
  srv_is_up : bool
}.

(** The columns a [volume_update] / [backup_update] dictionary may carry. *)
Inductive volume_value :=
| VStatus (s : option string)
| VDisplayDescription (s : option string).

Inductive backup_value :=
| BStatus (s : string)
| BFailReason (s : string)
| BHost (s : string)
| BService (s : string)
| BSize (n : option Z)
| BAvailabilityZone (s : string)
| BContainer (s : option string)
| BDisplayDescription (s : string).

Definition volume_set (x : volume_value) (v : Volume) : Volume :=
  match x with
  | VStatus s =>
      mkVolume s (v_size v) (v_host v) (v_availability_zone v)
        (v_display_description v) (v_volume_attachment v) (v_volume_type v)
  | VDisplayDescription d =>
      mkVolume (v_status v) (v_size v) (v_host v) (v_availability_zone v)
        d (v_volume_attachment v) (v_volume_type v)
  end.

Definition backup_set (x : backup_value) (b : Backup) : Backup :=
  match x with
  | BStatus s =>
      mkBackup (b_volume_id b) s (b_size b) (b_container b) (b_parent_id b)
        (b_host b) (b_service b) (b_display_name b) (b_display_description b)
        (b_fail_reason b) (b_availability_zone b) (b_project_id b)
        (b_user_id b) (b_created_at b)
  | BFailReason r =>
      mkBackup (b_volume_id b) (b_status b) (b_size b) (b_container b)
        (b_parent_id b) (b_host b) (b_service b) (b_display_name b)
        (b_display_description b) (Some r) (b_availability_zone b)
        (b_project_id b) (b_user_id b) (b_created_at b)
  | BHost h =>
      mkBackup (b_volume_id b) (b_status b) (b_size b) (b_container b)
        (b_parent_id b) (Some h) (b_service b) (b_display_name b)
        (b_display_description b) (b_fail_reason b) (b_availability_zone b)
        (b_project_id b) (b_user_id b) (b_created_at b)
  | BService s =>
      mkBackup (b_volume_id b) (b_status b) (b_size b) (b_container b)
        (b_parent_id b) (b_host b) (Some s) (b_display_name b)
        (b_display_description b) (b_fail_reason b) (b_availability_zone b)
        (b_project_id b) (b_user_id b) (b_created_at b)
  | BSize n =>
      mkBackup (b_volume_id b) (b_status b) n (b_container b)
        (b_parent_id b) (b_host b) (b_service b) (b_display_name b)
        (b_display_description b) (b_fail_reason b) (b_availability_zone b)
        (b_project_id b) (b_user_id b) (b_created_at b)
  | BAvailabilityZone z =>
      mkBackup (b_volume_id b) (b_status b) (b_size b) (b_container b)
        (b_parent_id b) (b_host b) (b_service b) (b_display_name b)
        (b_display_description b) (b_fail_reason b) (Some z)
        (b_project_id b) (b_user_id b) (b_created_at b)
  | BContainer c =>
      mkBackup (b_volume_id b) (b_status b) (b_size b) c
        (b_parent_id b) (b_host b) (b_service b) (b_display_name b)
        (b_display_description b) (b_fail_reason b) (b_availability_zone b)
        (b_project_id b) (b_user_id b) (b_created_at b)
  | BDisplayDescription d =>
      mkBackup (b_volume_id b) (b_status b) (b_size b) (b_container b)
        (b_parent_id b) (b_host b) (b_service b) (b_display_name b)
        (Some d) (b_fail_reason b) (b_availability_zone b)
        (b_project_id b) (b_user_id b) (b_created_at b)
  end.

(** The store stamps a row with its creation time. *)
Definition created_at_set (t : Z) (b : Backup) : Backup :=
  mkBackup (b_volume_id b) (b_status b) (b_size b) (b_container b)
    (b_parent_id b) (b_host b) (b_service b) (b_display_name b)
    (b_display_description b) (b_fail_reason b) (b_availability_zone b)
    (b_project_id b) (b_user_id b) t.

(** A values dictionary is applied column by column. *)
Definition volume_apply (vals : list volume_value) (v : Volume) : Volume :=
  foldl (fun acc x => volume_set x acc) v vals.

Definition backup_apply (vals : list backup_value) (b : Backup) : Backup :=
  foldl (fun acc x => backup_set x acc) b vals.

(** ** Exceptions *)

Record Usage := mkUsage { reserved : Z; in_use : Z }.

Inductive exn :=
| InvalidVolume (reason : string)
| InvalidBackup (reason : string)
| ServiceNotFound (service_id : string)
| VolumeNotFound (volume_id : string)
| BackupNotFound (backup_id : string)
| OverQuota (overs : list string) (usages : gmap string Usage)
    (quotas : gmap string Z)
| VolumeBackupSizeExceedsAvailableQuota (requested consumed quota : Z)
| BackupLimitExceeded (allowed : Z)
| BackupFailedToGetVolumeBackend (msg : string)
| DriverNotInitialized
| MessagingTimeout
| ServerNotFound (uuid : string)
| APITimeout
| QemuGARepeatThaw
| Diverged
| UnboundLocalError (name : string)
| KeyError (key : string)
| IndexError
| TypeError
| ValueError (msg : string)
| Failure (msg : string).

Inductive outcome (A : Type) :=
| Ret (a : A)
| Raise (e : exn).
Arguments Ret {A} a.
Arguments Raise {A} e.

(** ** Messages on the bus and other observable effects *)

Inductive rpc_kind := Cast | Call.

Inductive rpc_args :=
| ArgsCreateBackup (backup_id : string)
| ArgsRestoreBackup (backup_id volume_id : string)
| ArgsDeleteBackup (backup_id : string)
| ArgsExportRecord (backup_id : string)
| ArgsImportRecord (backup_id backup_service backup_url : string)
    (backup_hosts : list string).

Record rpc_msg := mkMsg {
  msg_kind : rpc_kind;
  msg_server : option string;
  msg_args : rpc_args
}.

Inductive event :=
| EvRpc (m : rpc_msg)
| EvDriverBackup (backup_id : string)
| EvDriverRestore (backup_id volume_id : string)
| EvDriverDelete (backup_id : string)
| EvDriverExport (backup_id : string)
| EvDetach (volume_id attachment_id : string)
| EvSync (instance : string)
| EvFreeze (instance : string)
| EvThaw (instance : string).

(** ** Request context *)

Record Context := mkContext {
  ctx_user_id : string;
  ctx_project_id : string;
  ctx_is_admin : bool;
  ctx_periodic : bool
}.

Definition elevated (c : Context) : Context :=
  mkContext (ctx_user_id c) (ctx_project_id c) true (ctx_periodic c).

(** Modelled from the spec: [context.set_periodic(flag)] of
    cinder.context, which is outside the sources at hand, marks the request
    as one made for a periodic backup. *)
Definition set_periodic (flag : bool) (c : Context) : Context :=
  mkContext (ctx_user_id c) (ctx_project_id c) (ctx_is_admin c) flag.

(** ** Executors and their green threads *)

Record BackupManager := mkBackupManager {
  mgr_host : string;
  (** [CONF.backup_driver] *)
  mgr_backup_driver : string;
  (** [CONF.storage_availability_zone] *)
  mgr_az : string;
  (** the keys of [self.volume_managers], in dictionary order *)
  mgr_volume_managers : list string
}.

(** A green thread of [_create_backup_for_instance_backup] that an
    executor has scheduled with [pool.spawn_n] and that has not reached
    its end: the executor, the request context and the backup it was
    given. *)
Record Worker := mkWorker {
  wk_self : BackupManager;
  wk_context : Context;
  wk_backup_id : string
}.

(** ** The world: record store, quota ledger, effect log, green threads *)

Inductive reservation_state := Pending | Committed | RolledBack.

Record World := mkWorld {
  volumes : gmap string Volume;
  backups : gmap string Backup;
  services : list Service;
  ledger : gmap string reservation_state;
  events : list event;
  now : Z;
  (** the green threads on the hub, in the order of their scheduling *)
  pool : list Worker
}.

Definition with_volumes (f : gmap string Volume -> gmap string Volume)
    (w : World) : World :=
  mkWorld (f (volumes w)) (backups w) (services w) (ledger w) (events w)
    (now w) (pool w).

Definition with_backups (f : gmap string Backup -> gmap string Backup)
    (w : World) : World :=
  mkWorld (volumes w) (f (backups w)) (services w) (ledger w) (events w)
    (now w) (pool w).

Definition with_ledger
    (f : gmap string reservation_state -> gmap string reservation_state)
    (w : World) : World :=
  mkWorld (volumes w) (backups w) (services w) (f (ledger w)) (events w)
    (now w) (pool w).

Definition with_event (e : event) (w : World) : World :=
  mkWorld (volumes w) (backups w) (services w) (ledger w) (events w ++ [e])
    (now w) (pool w).

Definition with_pool (f : list Worker -> list Worker) (w : World) : World :=
  mkWorld (volumes w) (backups w) (services w) (ledger w) (events w)
    (now w) (f (pool w)).

(** ** The monad of orchestration code *)

Definition M (A : Type) : Type := World -> outcome A * World.

Definition ret {A} (a : A) : M A := fun w => (Ret a, w).
Definition raise {A} (e : exn) : M A := fun w => (Raise e, w).

Definition bind {A B} (m : M A) (k : A -> M B) : M B :=
  fun w =>
    match m w with
    | (Ret a, w') => k a w'
    | (Raise e, w') => (Raise e, w')
    end.

Notation "x <- m ;; k" := (bind m (fun x => k))
  (at level 100, m at level 99, k at level 200, right associativity).
Notation "m ;;; k" := (bind m (fun _ => k))
  (at level 100, k at level 200, right associativity).

Definition get_world : M World := fun w => (Ret w, w).
Definition modify (f : World -> World) : M unit := fun w => (Ret tt, f w).
Definition lift {A} (o : outcome A) : M A := fun w => (o, w).

(** [try: body except Exception: handler]. *)
Definition try_except {A} (body : M A) (handler : exn -> M A) : M A :=
  fun w =>
    match body w with
    | (Ret a, w') => (Ret a, w')
    | (Raise e, w') => handler e w'
    end.

(** [try: x = first; rest(x) except Exception: handler], where the
    handler reads the local variable [x]: it is unbound when [first]
    raised. *)
Definition try_except_bound {A B} (first : M A) (rest : A -> M B)
    (handler : option A -> exn -> M B) : M B :=
  fun w =>
    match first w with
    | (Raise e, w') => handler None e w'
    | (Ret x, w') =>
        match rest x w' with
        | (Ret b, w'') => (Ret b, w'')
        | (Raise e, w'') => handler (Some x) e w''
        end
    end.

(** [try: body finally: final]: [final] always runs; an exception of
    [final] replaces the pending one. *)
Definition try_finally {A} (body : M A) (final : M unit) : M A :=
  fun w =>
    match body w with
    | (r, w') =>
        match final w' with
        | (Ret _, w'') => (r, w'')
        | (Raise e, w'') => (Raise e, w'')
        end
    end.

(** [with excutils.save_and_reraise_exception(): body], entered while
    [saved] is being handled: when [body] completes the saved exception
    is raised again; when [body] raises, that exception propagates and
    the saved one is dropped. *)
Definition save_and_reraise_exception {A} (saved : exn) (body : M unit)
    : M A :=
  fun w =>
    match body w with
    | (Ret _, w') => (Raise saved, w')
    | (Raise e, w') => (Raise e, w')
    end.

(** [for x in xs: body x]. *)
Fixpoint for_each {A} (xs : list A) (body : A -> M unit) : M unit :=
  match xs with
  | [] => ret tt
  | x :: rest => body x ;;; for_each rest body
  end.

(** Reading a local variable that may not have been assigned. *)
Definition local {A} (name : string) (v : option A) : M A :=
  match v with
  | Some a => ret a
  | None => raise (UnboundLocalError name)
  end.

(** ** External collaborators

    Everything the orchestration code calls but does not define: host-name
    parsing of [cinder.volume.utils], the quota engine, the identifier
    generator of the record store, exception rendering, the compute API,
    the volume managers and the backup driver.  Each is a parameter of the
    embedding; stateful ones are computations in [M]. *)

Inductive host_level := LevelHost | LevelBackend.

Record BackupResult := mkBackupResult {
  res_size : option Z;
  res_container : option (option string)
}.

Record Env := mkEnv {
  (** [volume_utils.extract_host(host, level)] *)
  extract_host : string -> host_level -> string;
  (** [QUOTAS.reserve(context, project_id, backups=.., backup_gigabytes=..)]:
      the reservation identifiers, or the exception raised *)
  quota_reserve : World -> string -> Z -> Z -> outcome (list string);
  (** an exception raised by [QUOTAS.commit] for these reservations *)
  quota_commit_fault : World -> list string -> option exn;
  (** [db.backup_create]: the identifier of the inserted row, or the
      exception raised by the insertion *)
  backup_create_result : World -> outcome string;
  (** [six.text_type(err)] *)
  text_type : exn -> string;
  (** [nova.API().get_server(context, uuid).status] *)
  server_status : option string -> outcome string;
  (** [nova.API().get_vm_state(context, uuid)] *)
  vm_state : string -> outcome string;
  (** whether flushing the guest caches ([exec_cmd .. "sync"]) raises *)
  sync_fails : string -> bool;
  (** outcome of the n-th [thaw_filesystem] call *)
  thaw_outcome : string -> nat -> option exn;
  (** [volume_api.create(context, size, name, description)] *)
  volume_api_create : Z -> string -> string -> M string;
  (** what the other requests and hosts do to the world while the
      caller is suspended for the n-th time *)
  while_asleep : nat -> World -> World;
  (** whether the worker that was spawned for this backup reaches its end
      during the n-th suspension of the thread that spawned it *)
  worker_ends : nat -> string -> bool;
  (** [utils.require_driver_initialized(driver)] for a backend *)
  driver_initialized : string -> bool;
  (** [mgr.detach_volume(ctxt, volume_id, attachment_id)] of a backend *)
  detach_volume : string -> string -> string -> M unit;
  (** [driver.backup_volume(context, backup, backup_service)] *)
  drv_backup_volume : string -> string -> M (option BackupResult);
  (** [driver.restore_backup(context, backup, volume, backup_service)] *)
  drv_restore_backup : string -> string -> string -> M unit;
  (** an exception raised by [backup_service.delete(backup)] *)
  drv_delete : string -> option exn;
  (** [backup_service.export_record(backup)] *)
  drv_export_record : string -> outcome string
}.

(** ** The record store ([self.db])

    Modelled from the spec: the BackupRepository and VolumeRepository of
    cinder.db, which is outside the sources at hand: create, read, update
    and delete of rows, and filtered lists. *)

Module Db.

Definition volume_get (volume_id : string) : M Volume :=
  fun w =>
    match volumes w !! volume_id with
    | Some v => (Ret v, w)
    | None => (Raise (VolumeNotFound volume_id), w)
    end.

Definition volume_update (volume_id : string) (vals : list volume_value)
    : M Volume :=
  fun w =>
    match volumes w !! volume_id with
    | Some v =>
        let v' := volume_apply vals v in
        (Ret v', with_volumes (insert volume_id v') w)
    | None => (Raise (VolumeNotFound volume_id), w)
    end.

Definition backup_get (backup_id : string) : M Backup :=
  fun w =>
    match backups w !! backup_id with
    | Some b => (Ret b, w)
    | None => (Raise (BackupNotFound backup_id), w)
    end.

Definition backup_update (backup_id : string) (vals : list backup_value)
    : M Backup :=
  fun w =>
    match backups w !! backup_id with
    | Some b =>
        let b' := backup_apply vals b in
        (Ret b', with_backups (insert backup_id b') w)
    | None => (Raise (BackupNotFound backup_id), w)
    end.

Definition backup_create (env : Env) (options : Backup)
    : M (string * Backup) :=
  fun w =>
    match backup_create_result env w with
    | Ret new_id =>
        let row := created_at_set (now w) options in
        (Ret (new_id, row), with_backups (insert new_id row) w)
    | Raise e => (Raise e, w)
    end.

Definition backup_destroy (backup_id : string) : M unit :=
  modify (with_backups (delete backup_id)).

(** Rows are returned with their identifier. *)
Definition backup_rows (w : World) : list (string * Backup) :=
  map_to_list (backups w).

Definition volume_rows (w : World) : list (string * Volume) :=
  map_to_list (volumes w).

Definition backup_get_all_by_volume (volume_id : string)
    : M (list (string * Backup)) :=
  fun w =>
    (Ret (List.filter
            (fun r => bool_decide (b_volume_id r.2 = volume_id))
            (backup_rows w)), w).

(** [backup_get_all(context, filters={'volume_id': ..})] *)
Definition backup_get_all (volume_id : string)
    : M (list (string * Backup)) :=
  backup_get_all_by_volume volume_id.

(** [backup_get_all_by_project(context, project_id,
    filters={'volume_id': ..})] *)
Definition backup_get_all_by_project (project_id volume_id : string)
    : M (list (string * Backup)) :=
  fun w =>
    (Ret (List.filter
            (fun r => bool_decide (b_project_id r.2 = project_id) &&
                      bool_decide (b_volume_id r.2 = volume_id))
            (backup_rows w)), w).

Definition backup_get_all_by_host (host : string)
    : M (list (string * Backup)) :=
  fun w =>
    (Ret (List.filter
            (fun r => bool_decide (b_host r.2 = Some host))
            (backup_rows w)), w).

(** A volume belongs to a host when its host field is that host,
    possibly followed by a pool. *)
Definition volume_get_all_by_host (env : Env) (host : string)
    : M (list (string * Volume)) :=
  fun w =>
    (Ret (List.filter
            (fun r => bool_decide
                        (extract_host env (v_host r.2) LevelBackend = host))
            (volume_rows w)), w).

Definition service_get_all_by_topic (disabled : option bool)
    : M (list Service) :=
  fun w =>
    (Ret (match disabled with
          | None => services w
          | Some d =>
              List.filter (fun s => bool_decide (srv_disabled s = d))
                (services w)
          end), w).

(** The [filters] dictionary of a list query: each entry names a column
    and the value it must have. *)
Inductive backup_filter :=
| FilterVolumeId (volume_id : string)
| FilterParentId (parent_id : string).

Definition matches (filters : list backup_filter) (b : Backup) : bool :=
  forallb
    (fun f =>
       match f with
       | FilterVolumeId volume_id => bool_decide (b_volume_id b = volume_id)
       | FilterParentId parent_id =>
           bool_decide (b_parent_id b = Some parent_id)
       end)
    filters.

(** [backup_get_all(context, filters=filters)] *)
Definition backup_get_all_filtered (filters : list backup_filter)
    : M (list (string * Backup)) :=
  fun w =>
    (Ret (List.filter (fun r => matches filters r.2) (backup_rows w)), w).

(** [backup_get_all_by_project(context, project_id, filters=filters)] *)
Definition backup_get_all_by_project_filtered (project_id : string)
    (filters : list backup_filter) : M (list (string * Backup)) :=
  fun w =>
    (Ret (List.filter
            (fun r => bool_decide (b_project_id r.2 = project_id) &&
                      matches filters r.2)
            (backup_rows w)), w).

End Db.

(** ** The quota engine ([QUOTAS]) *)

Module Quotas.

(** Modelled from the spec: the QuotaLedger of cinder.quota, which is
    outside the sources at hand.  A reservation is held pending until it
    is committed or rolled back; [mark] records the state of a list of
    reservations in the ledger. *)
Definition mark (st : reservation_state) (rs : list string)
    (l : gmap string reservation_state) : gmap string reservation_state :=
  foldr (fun r acc => <[r := st]> acc) l rs.

(** Modelled from the spec: a successful reservation is pending. *)
Definition reserve (env : Env) (project_id : string)
    (backups_delta gigabytes_delta : Z) : M (list string) :=
  fun w =>
    match quota_reserve env w project_id backups_delta gigabytes_delta with
    | Ret rs => (Ret rs, with_ledger (mark Pending rs) w)
    | Raise e => (Raise e, w)
    end.

(** Modelled from the spec: committing marks the reservations
    committed, unless the engine raises. *)
Definition commit (env : Env) (rs : list string) : M unit :=
  fun w =>
    match quota_commit_fault env w rs with
    | Some e => (Raise e, w)
    | None => (Ret tt, with_ledger (mark Committed rs) w)
    end.

(** Modelled from the spec: rolling back releases the reservations. *)
Definition rollback (rs : list string) : M unit :=
  modify (with_ledger (mark RolledBack rs)).

End Quotas.

(** ** The RPC client ([cinder/backup/rpcapi.py]) *)

Definition status_is (st : option string) (s : string) : bool :=
  bool_decide (st = Some s).

Module RpcApi.

(** [cctxt.cast]: the message is queued and the caller goes on. *)
Definition cast (server : option string) (args : rpc_args) : M unit :=
  modify (with_event (EvRpc (mkMsg Cast server args))).

(** [cctxt.call]: the message is sent and the caller blocks until the
    server has run the method, [remote]; its result is returned and its
    exception is raised in the caller. *)
Definition call {A} (server : option string) (args : rpc_args)
    (remote : M A) : M A :=
  modify (with_event (EvRpc (mkMsg Call server args))) ;;;
  remote.

Definition create_backup (host : option string)
    (backup_id volume_id : string) : M unit :=
  cast host (ArgsCreateBackup backup_id).

Definition restore_backup (host : option string)
    (backup_id volume_id : string) : M unit :=
  cast host (ArgsRestoreBackup backup_id volume_id).

Definition delete_backup (host : option string) (backup_id : string)
    : M unit :=
  cast host (ArgsDeleteBackup backup_id).

(** [remote host backup_id] is the [export_record] method of the
    executor that serves [host]. *)
Definition export_record {A} (remote : option string -> string -> M A)
    (host : option string) (backup_id : string) : M A :=
  call host (ArgsExportRecord backup_id) (remote host backup_id).

Definition import_record (host : option string)
    (backup_id backup_service backup_url : string)
    (backup_hosts : list string) : M unit :=
  cast host (ArgsImportRecord backup_id backup_service backup_url
               backup_hosts).

End RpcApi.

(** ** The orchestrator ([cinder/backup/api.py], class [API])

    Calls arrive authorised: [check_policy] is not part of the embedding. *)

Module API.

(** [API.get]: the backup as a dictionary. *)
Definition get (backup_id : string) : M Backup := Db.backup_get backup_id.

(** [self.volume_api.get] *)
Definition volume_api_get (volume_id : string) : M Volume :=
  Db.volume_get volume_id.

Definition _is_backup_service_enabled (volume : Volume)
    (volume_host : string) : M bool :=
  services <- Db.service_get_all_by_topic (Some false) ;;
  ret (existsb
         (fun srv =>
            bool_decide (srv_availability_zone srv =
                         v_availability_zone volume) &&
            bool_decide (srv_host srv = volume_host) &&
            srv_is_up srv)
         services).

Definition _list_backup_services : M (list string) :=
  services <- Db.service_get_all_by_topic None ;;
  ret (List.map srv_host
         (List.filter (fun srv => negb (srv_disabled srv)) services)).

(** [usages[name]['reserved'] + usages[name]['in_use']] *)
Definition _consumed (usages : gmap string Usage) (resource_name : string)
    : M Z :=
  match usages !! resource_name with
  | Some u => ret (reserved u + in_use u)
  | None => raise (KeyError resource_name)
  end.

Definition quota_of (quotas : gmap string Z) (resource_name : string)
    : M Z :=
  match quotas !! resource_name with
  | Some q => ret q
  | None => raise (KeyError resource_name)
  end.

(** The body of [except exception.OverQuota as e] in [create]. *)
Definition over_quota_handler (volume : Volume) (overs : list string)
    (usages : gmap string Usage) (quotas : gmap string Z) : M unit :=
  for_each overs (fun over =>
    if PyStr.contains "gigabytes" over then
      _ <- _consumed usages over ;;
      _ <- quota_of quotas over ;;
      consumed <- _consumed usages "backup_gigabytes" ;;
      quota <- quota_of quotas "backup_gigabytes" ;;
      raise (VolumeBackupSizeExceedsAvailableQuota (v_size volume)
               consumed quota)
    else if PyStr.contains "backups" over then
      _ <- _consumed usages over ;;
      allowed <- quota_of quotas over ;;
      raise (BackupLimitExceeded allowed)
    else ret tt).

(** The reservation step of [create]: the value of the local variable
    [reservations] afterwards, [None] when it was never assigned. *)
Definition reserve_step (env : Env) (ctx : Context) (volume : Volume)
    : M (option (list string)) :=
  try_except
    (rs <- Quotas.reserve env (ctx_project_id ctx) 1 (v_size volume) ;;
     ret (Some rs))
    (fun e =>
       match e with
       | OverQuota overs usages quotas =>
           over_quota_handler volume overs usages quotas ;;;
           ret None
       | _ => raise e
       end).

(** A backup is normal when its description is empty or does not carry
    the periodic tag. *)
Definition is_normal (bk : Backup) : bool :=
  negb (PyStr.truthy (b_display_description bk)) ||
  match b_display_description bk with
  | Some d => negb (PyStr.contains PERIODICSTR d)
  | None => true
  end.

(** [max(x :: rest, key=lambda x: x['created_at'])]: the first row with
    the largest key. *)
Fixpoint max_created_at (x : string * Backup)
    (rest : list (string * Backup)) : string * Backup :=
  match rest with
  | [] => x
  | y :: rest' =>
      if Z.ltb (b_created_at x.2) (b_created_at y.2)
      then max_created_at y rest'
      else max_created_at x rest'
  end.

(** The value of [latest_backup] for a call that is not periodic. *)
Definition latest_normal_backup (incremental : bool)
    (rows : list (string * Backup)) : option (string * Backup) :=
  if incremental then
    match rows with
    | [] => None
    | _ :: _ =>
        match List.filter (fun r => is_normal r.2) rows with
        | [] => None
        | x :: rest => Some (max_created_at x rest)
        end
    end
  else None.

(** The value of [parent_id] decided from [latest_backup]. *)
Definition parent_of (latest_backup : option (string * Backup))
    : outcome (option string) :=
  match latest_backup with
  | Some (id, bk) =>
      if String.eqb (b_status bk) "available" then Ret (Some id)
      else if String.eqb (b_status bk) "creating" then
        Raise (InvalidBackup "The parent backup is creating.")
      else Ret None
  | None => Ret None
  end.

(** The chain resolution of [create]: the parent identifier chosen for
    a call, given the backups of the volume. *)
Definition resolve_parent (periodic incremental : bool)
    (rows : list (string * Backup)) : outcome (option string) :=
  parent_of (if periodic then None
             else latest_normal_backup incremental rows).

(** The description stored with the new backup. *)
Definition tagged_description (periodic : bool)
    (description : option string) : option string :=
  if periodic then
    match description with
    | Some d => if PyStr.truthy description
                then Some (PERIODICSTR ++ d) else Some PERIODICSTR
    | None => Some PERIODICSTR
    end
  else description.

(** The chain-resolution step of [create]: the value of [parent_id]. *)
Definition find_parent (ctx : Context) (incremental : bool)
    (volume_id : string) : M (option string) :=
  rows <- (if ctx_periodic ctx then ret []
           else if incremental then Db.backup_get_all_by_volume volume_id
           else ret []) ;;
  lift (resolve_parent (ctx_periodic ctx) incremental rows).

(** The [options] dictionary of [create]. *)
Definition create_options (ctx : Context)
    (name description : option string) (volume_id : string)
    (container parent_id : option string) (volume_host : string)
    : Backup :=
  {| b_volume_id := volume_id;
     b_status := "creating";
     b_size := Some 0;
     b_container := container;
     b_parent_id := parent_id;
     b_host := Some volume_host;
     b_service := None;
     b_display_name := name;
     b_display_description := description;
     b_fail_reason := None;
     b_availability_zone := None;
     b_project_id := ctx_project_id ctx;
     b_user_id := ctx_user_id ctx;
     b_created_at := 0 |}.

(** The insertion step of [create]:
    [try: backup = db.backup_create(..); QUOTAS.commit(..)
     except Exception: with save_and_reraise_exception(): ...]. *)
Definition insert_step (env : Env) (reservations : option (list string))
    (options : Backup) : M (string * Backup) :=
  try_except_bound
    (Db.backup_create env options)
    (fun backup =>
       rs <- local "reservations" reservations ;;
       Quotas.commit env rs ;;;
       ret backup)
    (fun backup_var e =>
       save_and_reraise_exception e
         (try_finally
            (backup <- local "backup" backup_var ;;
             Db.backup_destroy backup.1)
            (rs <- local "reservations" reservations ;;
             Quotas.rollback rs))).

Definition create (env : Env) (ctx : Context)
    (name description : option string) (volume_id : string)
    (container : option string) (incremental : bool)
    : M (string * Backup) :=
  volume <- volume_api_get volume_id ;;
  if negb (status_is (v_status volume) "available") then
    raise (InvalidVolume "Volume to be backed up must be available")
  else
  let volume_host := extract_host env (v_host volume) LevelHost in
  enabled <- _is_backup_service_enabled volume volume_host ;;
  if negb enabled then raise (ServiceNotFound "cinder-backup") else
  reservations <- reserve_step env ctx volume ;;
  parent_id <- find_parent ctx incremental volume_id ;;
  let description := tagged_description (ctx_periodic ctx) description in
  _ <- Db.volume_update volume_id [VStatus (Some "backing-up")] ;;
  let options := create_options ctx name description volume_id container
                   parent_id volume_host in
  backup <- insert_step env reservations options ;;
  RpcApi.create_backup (b_host backup.2) backup.1 volume_id ;;;
  ret backup.

(** [str(x)] for an optional string. *)
Definition str_of (o : option string) : string := default "None" o.

(** [while True: volume = get(..); if status != 'creating': break;
    sleep(1)].  The loop has no bound in the source; [fuel] bounds the
    number of iterations of the model, which raises [Diverged] when it
    is used up. *)
Fixpoint wait_while_creating (env : Env) (volume_id : string)
    (fuel : nat) (n : nat) : M Volume :=
  match fuel with
  | O => raise Diverged
  | S fuel' =>
      volume <- volume_api_get volume_id ;;
      if negb (status_is (v_status volume) "creating") then ret volume
      else
        modify (while_asleep env n) ;;;
        wait_while_creating env volume_id fuel' (S n)
  end.

Definition check_attached_instances (env : Env) (volume : Volume)
    : M unit :=
  for_each (v_volume_attachment volume) (fun attachment =>
    status <- lift (server_status env (instance_uuid attachment)) ;;
    if negb (String.eqb status "SHUTOFF") then
      raise (InvalidVolume
               ("Volume to be backed up can be in-use, but the " ++
                "attached vm should in poweroff status, now vm " ++
                "status is " ++ PyStr.quoted status ++ "."))
    else ret tt).

Definition restore (env : Env) (ctx : Context) (backup_id : string)
    (volume_id : option string) (fuel : nat) : M (string * string) :=
  backup <- get backup_id ;;
  if negb (String.eqb (b_status backup) "available") then
    raise (InvalidBackup "Backup status must be available")
  else
  match b_size backup with
  | None => raise (InvalidBackup "Backup to be restored has invalid size")
  | Some size =>
      target <-
        match volume_id with
        | None =>
            let name := "restore_backup_" ++ backup_id in
            let description := "auto-created_from_restore_from_backup" in
            new_id <- volume_api_create env size name description ;;
            volume <- wait_while_creating env new_id fuel 0 ;;
            ret (new_id, volume)
        | Some id =>
            volume <- volume_api_get id ;;
            ret (id, volume)
        end ;;
      let volume_id := target.1 in
      let volume := target.2 in
      (if negb (status_is (v_status volume) "available" ||
                status_is (v_status volume) "in-use") then
         raise (InvalidVolume
                  ("Volume to be backed up must be available " ++
                   "or in-use, but the current status is " ++
                   PyStr.quoted (str_of (v_status volume)) ++ "."))
       else if status_is (v_status volume) "in-use" then
         check_attached_instances env volume
       else ret tt) ;;;
      _ <- Db.volume_update volume_id
             [VDisplayDescription (v_status volume)] ;;
      if Z.ltb (v_size volume * 1024) size then
        raise (InvalidVolume
                 ("volume size " ++ pretty (v_size volume) ++
                  " GB is too small to restore " ++
                  "backup of size " ++ pretty size ++ " MB."))
      else
      _ <- Db.backup_update backup_id [BStatus "restoring"] ;;
      _ <- Db.volume_update volume_id
             [VStatus (Some "restoring-backup")] ;;
      let volume_host := extract_host env (v_host volume) LevelHost in
      RpcApi.restore_backup (Some volume_host) backup_id volume_id ;;;
      ret (backup_id, volume_id)
  end.

Definition export_record {A}
    (remote : option string -> string -> M A) (ctx : Context)
    (backup_id : string) : M A :=
  backup <- get backup_id ;;
  if negb (String.eqb (b_status backup) "available") then
    raise (InvalidBackup
             ("Backup status must be available and not " ++
              b_status backup ++ "."))
  else
  export_data <- RpcApi.export_record remote (b_host backup) backup_id ;;
  ret export_data.

(** [hosts.pop()]: the last element, and the list without it. *)
Definition pop (hosts : list string) : option (string * list string) :=
  match List.rev hosts with
  | [] => None
  | h :: rest => Some (h, List.rev rest)
  end.

Definition import_record (env : Env) (ctx : Context)
    (backup_service backup_url : string) : M (string * Backup) :=
  hosts <- _list_backup_services ;;
  match pop hosts with
  | None => raise (ServiceNotFound backup_service)
  | Some (first_host, hosts) =>
      let options :=
        {| b_volume_id := "0000-0000-0000-0000";
           b_status := "creating";
           b_size := None;
           b_container := None;
           b_parent_id := None;
           b_host := None;
           b_service := None;
           b_display_name := None;
           b_display_description := None;
           b_fail_reason := None;
           b_availability_zone := None;
           b_project_id := ctx_project_id ctx;
           b_user_id := ctx_user_id ctx;
           b_created_at := 0 |} in
      backup <- Db.backup_create env options ;;
      RpcApi.import_record (Some first_host) backup.1 backup_service
        backup_url hosts ;;;
      ret backup
  end.

Definition get_all (ctx : Context) (search_opts : list Db.backup_filter)
    : M (list (string * Backup)) :=
  if ctx_is_admin ctx then Db.backup_get_all_filtered search_opts
  else Db.backup_get_all_by_project_filtered (ctx_project_id ctx)
         search_opts.

(** [delete] returns nothing; it may mark the context of the caller as
    periodic, and the value of the model is that context as the call
    leaves it.  A backup that carries the active marker is only reported
    in the log. *)
Definition delete (ctx : Context) (backup_id : string) : M Context :=
  backup <- get backup_id ;;
  if negb (existsb (String.eqb (b_status backup)) ["available"; "error"])
  then raise (InvalidBackup "Backup status must be available or error")
  else
  let description := b_display_description backup in
  let ctx :=
    match description with
    | Some d =>
        if PyStr.truthy description then
          if PyStr.contains PERIODICSTR d then set_periodic true ctx
          else ctx
        else ctx
    | None => ctx
    end in
  deltas <- get_all ctx [Db.FilterParentId backup_id] ;;
  match deltas with
  | _ :: _ =>
      raise (InvalidBackup "Incremental backups exist for this backup.")
  | [] =>
      _ <- Db.backup_update backup_id [BStatus "deleting"] ;;
      RpcApi.delete_backup (b_host backup) backup_id ;;;
      ret ctx
  end.

End API.

(** ** The executor ([cinder/backup/manager.py], class [BackupManager])

    Usage notifications are not part of the embedding. *)

Record InstBackupKwargs := mkKwargs {
  kw_host : option string;
  kw_backup_id : string;
  kw_volume_id : string
}.

Record BackupRecord := mkBackupRecord {
  backup_service : option string;
  backup_url : string
}.

Module Manager.

Definition mapper : list (string * string) :=
  [("cinder.backup.services.swift", "cinder.backup.drivers.swift");
   ("cinder.backup.services.ceph", "cinder.backup.drivers.ceph")].

Fixpoint assoc (k : string) (l : list (string * string)) : option string :=
  match l with
  | [] => None
  | (k', v) :: l' => if String.eqb k k' then Some v else assoc k l'
  end.

Definition _map_service_to_driver (service : option string)
    : option string :=
  match service with
  | Some s =>
      match assoc s mapper with
      | Some d => Some d
      | None => Some s
      end
  | None => None
  end.

Definition driver_name (self : BackupManager) : string :=
  default (mgr_backup_driver self)
    (_map_service_to_driver (Some (mgr_backup_driver self))).

Definition member (x : string) (l : list string) : bool :=
  existsb (String.eqb x) l.

Definition _get_volume_backend (self : BackupManager)
    (host : option string) (allow_null_host : bool) : outcome string :=
  let fallback :=
    if negb (member "default" (mgr_volume_managers self)) then
      match mgr_volume_managers self with
      | k :: _ => Ret k
      | [] => Raise IndexError
      end
    else Ret "default" in
  match host with
  | None =>
      if negb allow_null_host then
        Raise (BackupFailedToGetVolumeBackend
                 "NULL host not allowed for volume backend lookup.")
      else fallback
  | Some h =>
      let '(_, sep, backend) := PyStr.partition_at h in
      if String.eqb sep "@" && negb (String.eqb backend EmptyString)
      then Ret backend
      else fallback
  end.

(** [_get_manager]: the manager is identified by its backend name. *)
Definition _get_manager (self : BackupManager) (backend : option string)
    : outcome string :=
  match
    match backend with
    | None => _get_volume_backend self None true
    | Some b => Ret b
    end
  with
  | Raise e => Raise e
  | Ret b =>
      if negb (member b (mgr_volume_managers self)) then
        Raise (BackupFailedToGetVolumeBackend
                 ("Volume manager for backend '" ++ b ++
                  "' does not exist."))
      else Ret b
  end.

(** [_get_driver]: the driver of a backend, identified likewise. *)
Definition _get_driver (self : BackupManager) (backend : option string)
    : outcome string :=
  match
    match backend with
    | None => _get_volume_backend self None true
    | Some b => Ret b
    end
  with
  | Raise e => Raise e
  | Ret b => _get_manager self (Some b)
  end.

Definition require_driver_initialized (env : Env) (driver : string)
    : M unit :=
  if driver_initialized env driver then ret tt
  else raise DriverNotInitialized.

Definition status_mismatch (operation subject expected actual : string)
    : string :=
  operation ++ ", expected " ++ subject ++ " status " ++ expected ++
  " but got " ++ actual ++ ".".

Definition create_backup (self : BackupManager) (env : Env)
    (ctx : Context) (backup_id : string) : M unit :=
  bakup <- Db.backup_get backup_id ;;
  let volume_id := b_volume_id bakup in
  volume <- Db.volume_get volume_id ;;
  let volume_host := extract_host env (v_host volume) LevelBackend in
  backend <- lift (_get_volume_backend self (Some volume_host) false) ;;
  _ <- Db.backup_update backup_id
         [BHost (mgr_host self); BService (driver_name self)] ;;
  if negb (status_is (v_status volume) "backing-up") then
    let err := status_mismatch "Create backup aborted" "volume"
                 "backing-up" (API.str_of (v_status volume)) in
    _ <- Db.backup_update backup_id [BStatus "error"; BFailReason err] ;;
    raise (InvalidVolume err)
  else if negb (String.eqb (b_status bakup) "creating") then
    let err := status_mismatch "Create backup aborted" "backup"
                 "creating" (b_status bakup) in
    _ <- Db.volume_update volume_id [VStatus (Some "available")] ;;
    _ <- Db.backup_update backup_id [BStatus "error"; BFailReason err] ;;
    raise (InvalidBackup err)
  else
  backup_result <-
    try_except
      (driver <- lift (_get_driver self (Some backend)) ;;
       require_driver_initialized env driver ;;;
       modify (with_event (EvDriverBackup backup_id)) ;;;
       result <- drv_backup_volume env backend backup_id ;;
       ret (default (mkBackupResult None None) result))
      (fun err =>
         save_and_reraise_exception err
           (_ <- Db.volume_update volume_id [VStatus (Some "available")] ;;
            _ <- Db.backup_update backup_id
                   [BStatus "error"; BFailReason (text_type env err)] ;;
            ret tt)) ;;
  _ <- Db.volume_update volume_id [VStatus (Some "available")] ;;
  _ <- Db.backup_update backup_id
         [BStatus "available";
          BSize (res_size backup_result);
          BAvailabilityZone (mgr_az self);
          BContainer (default (b_container bakup)
                        (res_container backup_result))] ;;
  ret tt.

Definition service_mismatch (operation configured_service : string)
    (backup_service : option string) : string :=
  operation ++ " aborted, the backup service currently" ++
  " configured [" ++ configured_service ++ "] is not the" ++
  " backup service that was used to create this" ++
  " backup [" ++ API.str_of backup_service ++ "].".

(** The active-marker bookkeeping at the end of [restore_backup];
    [backup] is the row returned by the last status update. *)
Definition mark_active (ctx : Context) (backup_id volume_id : string)
    (backup : Backup) : M unit :=
  backups <-
    (if ctx_is_admin ctx then Db.backup_get_all volume_id
     else Db.backup_get_all_by_project (ctx_project_id ctx) volume_id) ;;
  for_each backups (fun bak =>
    match b_display_description bak.2 with
    | Some description =>
        if PyStr.truthy (Some description) then
          if String.eqb (PyStr.last6 description) MAGICSTR then
            _ <- Db.backup_update bak.1
                   [BDisplayDescription (PyStr.drop_last6 description)] ;;
            ret tt
          else ret tt
        else ret tt
    | None => ret tt
    end) ;;;
  match b_display_description backup with
  | Some description =>
      if PyStr.truthy (Some description) then
        _ <- Db.backup_update backup_id
               [BDisplayDescription (description ++ MAGICSTR)] ;;
        ret tt
      else
        _ <- Db.backup_update backup_id [BDisplayDescription MAGICSTR] ;;
        ret tt
  | None =>
      _ <- Db.backup_update backup_id [BDisplayDescription MAGICSTR] ;;
      ret tt
  end.

Definition restore_backup (self : BackupManager) (env : Env)
    (ctx : Context) (backup_id volume_id : string) : M unit :=
  backup <- Db.backup_get backup_id ;;
  volume <- Db.volume_get volume_id ;;
  let volume_host := extract_host env (v_host volume) LevelBackend in
  backend <- lift (_get_volume_backend self (Some volume_host) false) ;;
  _ <- Db.backup_update backup_id [BHost (mgr_host self)] ;;
  if negb (status_is (v_status volume) "restoring-backup") then
    let err := status_mismatch "Restore backup aborted" "volume"
                 "restoring-backup" (API.str_of (v_status volume)) in
    _ <- Db.backup_update backup_id [BStatus "available"] ;;
    _ <- Db.volume_update volume_id [VStatus (Some "error")] ;;
    raise (InvalidVolume err)
  else if negb (String.eqb (b_status backup) "restoring") then
    let err := "Restore backup aborted: expected backup status " ++
               "restoring but got " ++ b_status backup ++ "." in
    _ <- Db.backup_update backup_id [BStatus "error"; BFailReason err] ;;
    _ <- Db.volume_update volume_id [VStatus (Some "error_restoring")] ;;
    raise (InvalidBackup err)
  else
  let backup_service := _map_service_to_driver (b_service backup) in
  let configured_service := driver_name self in
  if negb (bool_decide (backup_service = Some configured_service)) then
    let err := service_mismatch "Restore backup" configured_service
                 backup_service in
    _ <- Db.backup_update backup_id [BStatus "available"] ;;
    _ <- Db.volume_update volume_id [VStatus (Some "error_restoring")] ;;
    raise (InvalidBackup err)
  else
  try_except
    (driver <- lift (_get_driver self (Some backend)) ;;
     require_driver_initialized env driver ;;;
     modify (with_event (EvDriverRestore backup_id volume_id)) ;;;
     drv_restore_backup env backend backup_id volume_id)
    (fun err =>
       save_and_reraise_exception err
         (_ <- Db.volume_update volume_id
                 [VStatus (Some "error_restoring")] ;;
          _ <- Db.backup_update backup_id [BStatus "available"] ;;
          ret tt)) ;;;
  _ <- Db.volume_update volume_id
         [VStatus (v_display_description volume)] ;;
  _ <- Db.volume_update volume_id
         [VDisplayDescription (Some EmptyString)] ;;
  backup <- Db.backup_update backup_id [BStatus "available"] ;;
  mark_active ctx backup_id volume_id backup.

(** [self.driver], then [utils.require_driver_initialized]. *)
Definition require_own_driver (self : BackupManager) (env : Env)
    : M unit :=
  driver <- lift (_get_driver self None) ;;
  require_driver_initialized env driver.

Definition delete_backup (self : BackupManager) (env : Env)
    (ctx : Context) (backup_id : string) : M unit :=
  try_except
    (require_own_driver self env)
    (fun err =>
       match err with
       | DriverNotInitialized =>
           save_and_reraise_exception err
             (_ <- Db.backup_update backup_id
                     [BStatus "error"; BFailReason (text_type env err)] ;;
              ret tt)
       | _ => raise err
       end) ;;;
  backup <- Db.backup_get backup_id ;;
  _ <- Db.backup_update backup_id [BHost (mgr_host self)] ;;
  if negb (String.eqb (b_status backup) "deleting") then
    let err := status_mismatch "Delete_backup aborted" "backup"
                 "deleting" (b_status backup) in
    _ <- Db.backup_update backup_id [BStatus "error"; BFailReason err] ;;
    raise (InvalidBackup err)
  else
  (match _map_service_to_driver (b_service backup) with
   | Some backup_service =>
       let configured_service := driver_name self in
       if negb (String.eqb backup_service configured_service) then
         let err := service_mismatch "Delete backup" configured_service
                      (Some backup_service) in
         _ <- Db.backup_update backup_id [BStatus "error"] ;;
         raise (InvalidBackup err)
       else
         try_except
           (modify (with_event (EvDriverDelete backup_id)) ;;;
            match drv_delete env backup_id with
            | Some err => raise err
            | None => ret tt
            end)
           (fun err =>
              save_and_reraise_exception err
                (_ <- Db.backup_update backup_id
                        [BStatus "error";
                         BFailReason (text_type env err)] ;;
                 ret tt))
   | None => ret tt
   end) ;;;
  reservations <-
    try_except
      (volume <- Db.volume_get (b_volume_id backup) ;;
       rs <- Quotas.reserve env (b_project_id backup) (-1)
               (- v_size volume) ;;
       ret (Some rs))
      (fun _ => ret None) ;;
  Db.backup_destroy backup_id ;;;
  match reservations with
  | Some (r :: rs) => Quotas.commit env (r :: rs)
  | _ => ret tt
  end.

Definition export_record (self : BackupManager) (env : Env)
    (ctx : Context) (backup_id : string) : M BackupRecord :=
  backup <- Db.backup_get backup_id ;;
  if negb (String.eqb (b_status backup) "available") then
    raise (InvalidBackup
             ("Export backup aborted, expected backup status " ++
              "available but got " ++ b_status backup ++ "."))
  else
  let backup_service := _map_service_to_driver (b_service backup) in
  let configured_service := driver_name self in
  if negb (bool_decide (backup_service = Some configured_service)) then
    raise (InvalidBackup
             (service_mismatch "Export record" configured_service
                backup_service))
  else
  backup_url <-
    try_except
      (require_own_driver self env ;;;
       modify (with_event (EvDriverExport backup_id)) ;;;
       lift (drv_export_record env backup_id))
      (fun err => raise (InvalidBackup (text_type env err))) ;;
  ret (mkBackupRecord (b_service backup) backup_url).

(** The detach loop of the start-up sweep. *)
Definition detach_orphans (self : BackupManager) (env : Env)
    (backend volume_id : string) (attachments : list Attachment)
    : M unit :=
  mgr <- lift (_get_manager self (Some backend)) ;;
  for_each attachments (fun attachment =>
    if bool_decide (attached_host attachment = Some (mgr_host self)) &&
       bool_decide (instance_uuid attachment = None) then
      modify (with_event (EvDetach volume_id (att_id attachment))) ;;;
      detach_volume env mgr volume_id (att_id attachment)
    else ret tt).

(** The body of the loop of [init_host] over the volumes of the host. *)
Definition sweep_volume (self : BackupManager) (env : Env)
    (row : string * Volume) : M unit :=
  let volume := row.2 in
  let volume_host := extract_host env (v_host volume) LevelBackend in
  backend <- lift (_get_volume_backend self (Some volume_host) false) ;;
  let attachments := v_volume_attachment volume in
  match attachments with
  | [] => ret tt
  | _ :: _ =>
      (if status_is (v_status volume) "backing-up" then
         detach_orphans self env backend row.1 attachments
       else ret tt) ;;;
      (if status_is (v_status volume) "restoring-backup" then
         detach_orphans self env backend row.1 attachments ;;;
         _ <- Db.volume_update row.1
                [VStatus (Some "error_restoring")] ;;
         ret tt
       else ret tt)
  end.

(** The body of the loop of [init_host] over the backups of the host. *)
Definition sweep_backup (self : BackupManager) (env : Env)
    (ctxt : Context) (row : string * Backup) : M unit :=
  let backup := row.2 in
  (if String.eqb (b_status backup) "creating" then
     let err := "incomplete backup reset on manager restart" in
     _ <- Db.backup_update row.1 [BStatus "error"; BFailReason err] ;;
     ret tt
   else ret tt) ;;;
  (if String.eqb (b_status backup) "restoring" then
     _ <- Db.backup_update row.1 [BStatus "available"] ;;
     ret tt
   else ret tt) ;;;
  (if String.eqb (b_status backup) "deleting" then
     try_except (delete_backup self env ctxt row.1)
       (fun _ => ret tt)
   else ret tt).

(** [init_host], after the volume drivers have been initialised. *)
Definition init_host (self : BackupManager) (env : Env) (ctxt : Context)
    : M unit :=
  volumes <- Db.volume_get_all_by_host env (mgr_host self) ;;
  for_each volumes (sweep_volume self env) ;;;
  backups <- Db.backup_get_all_by_host (mgr_host self) ;;
  for_each backups (sweep_backup self env ctxt).

(** ** The instance-group backup *)

(** [_create_backup_for_instance_backup], the worker of a member of an
    instance group: [create_backup] with the volume put back into the
    status that the orchestrator stashed in its description.  The driver
    is told that status through the context; in the model the driver runs
    on the world and finds it there. *)
Definition _create_backup_for_instance_backup (self : BackupManager)
    (env : Env) (ctx : Context) (backup_id : string) : M unit :=
  bakup <- Db.backup_get backup_id ;;
  let volume_id := b_volume_id bakup in
  volume <- Db.volume_get volume_id ;;
  let previous_status := v_display_description volume in
  let volume_host := extract_host env (v_host volume) LevelBackend in
  backend <- lift (_get_volume_backend self (Some volume_host) false) ;;
  _ <- Db.backup_update backup_id
         [BHost (mgr_host self); BService (driver_name self)] ;;
  if negb (status_is (v_status volume) "backing-up") then
    let err := status_mismatch "Create backup aborted" "volume"
                 "backing-up" (API.str_of (v_status volume)) in
    _ <- Db.backup_update backup_id [BStatus "error"; BFailReason err] ;;
    raise (InvalidVolume err)
  else if negb (String.eqb (b_status bakup) "creating") then
    let err := status_mismatch "Create backup aborted" "backup"
                 "creating" (b_status bakup) in
    _ <- Db.volume_update volume_id [VStatus previous_status] ;;
    _ <- Db.backup_update backup_id [BStatus "error"; BFailReason err] ;;
    raise (InvalidBackup err)
  else
  backup_result <-
    try_except
      (driver <- lift (_get_driver self (Some backend)) ;;
       require_driver_initialized env driver ;;;
       modify (with_event (EvDriverBackup backup_id)) ;;;
       result <- drv_backup_volume env backend backup_id ;;
       ret (default (mkBackupResult None None) result))
      (fun err =>
         save_and_reraise_exception err
           (_ <- Db.volume_update volume_id [VStatus previous_status] ;;
            _ <- Db.backup_update backup_id
                   [BStatus "error"; BFailReason (text_type env err)] ;;
            ret tt)) ;;
  _ <- Db.volume_update volume_id [VStatus previous_status] ;;
  _ <- Db.backup_update backup_id
         [BStatus "available";
          BSize (res_size backup_result);
          BAvailabilityZone (mgr_az self);
          BContainer (default (b_container bakup)
                        (res_container backup_result))] ;;
  ret tt.

(** [pool.spawn_n(self._create_backup_for_instance_backup, context,
    backup_id)]: the green thread is put on the hub; it does not run
    before the thread that spawned it is suspended. *)
Definition spawn_n (self : BackupManager) (ctx : Context)
    (backup_id : string) : M unit :=
  modify (with_pool (fun hub => (hub ++ [mkWorker self ctx backup_id])%list)).

(** The body of a green thread: an exception that leaves the worker ends
    the thread and reaches nobody. *)
Definition run_worker (env : Env) (k : Worker) : M unit :=
  try_except
    (_create_backup_for_instance_backup (wk_self k) env (wk_context k)
       (wk_backup_id k))
    (fun _ => ret tt).

(** A suspension of the running thread, by [greenthread.sleep],
    [time.sleep] or a call of the compute API.  The hub resumes the
    workers.  The reads and writes of a worker are placed as a whole in
    the suspension during which it reaches its end: the workers that end
    during this one do their work, in the order of their scheduling, and
    the others stay on the hub.  The rest of the deployment goes on as
    well.  The record store is read and written without suspension. *)
Definition suspend (env : Env) (n : nat) : M unit :=
  w <- get_world ;;
  let hub :=
    List.partition (fun k => worker_ends env n (wk_backup_id k)) (pool w) in
  modify (with_pool (fun _ => hub.2)) ;;;
  for_each hub.1 (run_worker env) ;;;
  modify (while_asleep env n).

(** The suspensions of one request are numbered in the order in which
    they can occur: the sleeps of the poll, then the thaw, the sleep
    before its second attempt, and that attempt. *)
Definition thaw_suspension (n : nat) : nat := MOST_BACKUP_RETRIES + 2 * n.
Definition retry_suspension : nat := MOST_BACKUP_RETRIES + 1.

(** The message of the [ValueError] that [%] raises on the format
    ["Backup is on-going. bak_status_list: % (bak_status_list)s."]. *)
Definition malformed_format : string :=
  "unsupported format character '(' (0x28) at index 39".

Definition _get_backups_by_volumetype
    (backup_list : list (string * Backup)) (volume_type_name : string)
    : M (list (string * Backup)) :=
  foldr
    (fun backup rest =>
       volume <- Db.volume_get (b_volume_id backup.2) ;;
       match v_volume_type volume with
       | None => raise TypeError
       | Some name =>
           tail <- rest ;;
           ret (if String.eqb name volume_type_name
                then backup :: tail else tail)
       end)
    (ret []) backup_list.

Definition read_backups (inst_backup_kwargs : list InstBackupKwargs)
    : M (list (string * Backup)) :=
  foldr
    (fun kwargs rest =>
       backup <- Db.backup_get (kw_backup_id kwargs) ;;
       tail <- rest ;;
       ret ((kw_backup_id kwargs, backup) :: tail))
    (ret []) inst_backup_kwargs.

Definition subset_of (allowed statuses : list string) : bool :=
  forallb (fun s => member s allowed) statuses.

(** [for b in fujitsu_backup_list: ...]: the final [break_loop]. *)
Fixpoint clone_sessions_established (fujitsu : list (string * Backup))
    (break_loop : bool) : outcome bool :=
  match fujitsu with
  | [] => Ret break_loop
  | b :: rest =>
      if String.eqb (b_status b.2) "creating" then
        match b_display_description b.2 with
        | None => Raise TypeError
        | Some d =>
            if negb (PyStr.contains FUJITSU_CLONE_START d) &&
               negb (PyStr.contains FUJITSU_CLONE_END d)
            then clone_sessions_established rest false
            else clone_sessions_established rest break_loop
        end
      else clone_sessions_established rest break_loop
  end.

(** One iteration of the completion poll; [true] when it breaks.  While
    a backup of an [ebs-data] volume is [creating], the message of the log
    cannot be formatted and the [ValueError] leaves the loop. *)
Definition poll_once (env : Env)
    (inst_backup_kwargs : list InstBackupKwargs) (attempt : nat)
    : M bool :=
  backup_list <- read_backups inst_backup_kwargs ;;
  fujitsu_backup_list <-
    _get_backups_by_volumetype backup_list FUJITSI_VOLUME_TYPE_NAME ;;
  ebs_backup_list <-
    _get_backups_by_volumetype backup_list EBS_VOLUME_TYPE_NAME ;;
  let bak_status_list := List.map (fun b => b_status b.2) backup_list in
  if subset_of ["available"; "error"] bak_status_list then ret true
  else if subset_of ["available"; "error"; "creating"] bak_status_list
  then
    if member "creating"
         (List.map (fun b => b_status b.2) ebs_backup_list)
    then raise (ValueError malformed_format)
    else
      break_loop <-
        lift (clone_sessions_established fujitsu_backup_list true) ;;
      if break_loop then ret true
      else suspend env attempt ;;; ret false
  else ret false.

(** [for attempt in attempts: ...]: the last value of [attempt], and
    whether the loop was left by [break]. *)
Fixpoint poll (env : Env) (inst_backup_kwargs : list InstBackupKwargs)
    (attempts : list nat) (last : option nat) : M (option nat * bool) :=
  match attempts with
  | [] => ret (last, false)
  | attempt :: rest =>
      broke <- poll_once env inst_backup_kwargs attempt ;;
      if broke then ret (Some attempt, true)
      else poll env inst_backup_kwargs rest (Some attempt)
  end.

Definition timeout_reason : string := "backing up isn't finished in 3600s".

Definition mark_timed_out (inst_backup_kwargs : list InstBackupKwargs)
    : M unit :=
  for_each inst_backup_kwargs (fun kwargs =>
    _ <- Db.backup_update (kw_backup_id kwargs)
           [BStatus "error"; BFailReason timeout_reason] ;;
    ret tt).

(** The wait for completion and the time-out handling. *)
Definition wait_for_backups (env : Env)
    (inst_backup_kwargs : list InstBackupKwargs) : M unit :=
  exit <- poll env inst_backup_kwargs
            (seq 0 MOST_BACKUP_RETRIES) None ;;
  attempt <- local "attempt" exit.1 ;;
  if Nat.eqb attempt (MOST_BACKUP_RETRIES - 1)
  then mark_timed_out inst_backup_kwargs
  else ret tt.

(** The n-th [nova.API().thaw_filesystem(context, instance_uuid)]. *)
Definition thaw (env : Env) (instance : string) (n : nat) : M unit :=
  modify (with_event (EvThaw instance)) ;;;
  suspend env (thaw_suspension n) ;;;
  match thaw_outcome env instance n with
  | Some e => raise e
  | None => ret tt
  end.

(** The freeze of a running guest: every exception is logged and
    swallowed.  The calls are made before the workers are spawned. *)
Definition freeze (env : Env) (instance previous_vm_state : string)
    : M unit :=
  if String.eqb previous_vm_state "active" then
    modify (with_event (EvSync instance)) ;;;
    if sync_fails env instance then ret tt
    else modify (with_event (EvFreeze instance))
  else ret tt.

(** [for kwargs in inst_backup_kwargs: pool.spawn_n(...)]: one worker
    for each member of the group. *)
Definition spawn_workers (self : BackupManager) (ctx : Context)
    (inst_backup_kwargs : list InstBackupKwargs) : M unit :=
  for_each inst_backup_kwargs (fun kwargs =>
    spawn_n self ctx (kw_backup_id kwargs)).

(** The thaw of a guest that was running, with its second attempt after
    [time.sleep(20)]. *)
Definition thaw_guest (env : Env) (instance previous_vm_state : string)
    : M unit :=
  if String.eqb previous_vm_state "active" then
    try_except (thaw env instance 0)
      (fun e =>
         match e with
         | APITimeout =>
             suspend env retry_suspension ;;;
             thaw env instance 1
         | ServerNotFound _ | QemuGARepeatThaw => ret tt
         | _ => raise e
         end)
  else ret tt.

(** [create_instance_backup]: the guest is frozen, the workers are
    spawned, the poll waits for them, the guest is thawed. *)
Definition create_instance_backup (self : BackupManager) (env : Env)
    (ctx : Context) (instance : string)
    (inst_backup_kwargs : list InstBackupKwargs) : M unit :=
  previous_vm_state <- lift (vm_state env instance) ;;
  freeze env instance previous_vm_state ;;;
  spawn_workers self ctx inst_backup_kwargs ;;;
  wait_for_backups env inst_backup_kwargs ;;;
  thaw_guest env instance previous_vm_state.

End Manager.

(** ** Executors on the bus *)

Module Bus.

(** The [export_record] method of the executor serving a host; a call
    to a host nobody serves times out. *)
Definition export_record_at (executors : string -> option BackupManager)
    (env : Env) (ctx : Context) (host : option string)
    (backup_id : string) : M BackupRecord :=
  match host ≫= executors with
  | Some self => Manager.export_record self env ctx backup_id
  | None => raise MessagingTimeout
  end.

End Bus.

(** ** A concrete deployment

    One node, [node1], runs the API, a volume backend [lvm] and the backup
    executor.  The scenarios below are evaluated on it. *)

Module Sample.

Definition node : string := "node1@lvm".

Definition host_of (h : string) (level : host_level) : string :=
  match level with
  | LevelHost => (PyStr.partition_at h).1.1
  | LevelBackend => h
  end.

(** An environment in which the quota engine answers [reserve], the
    insertion of a backup row answers [created], and a commit raises
    [commit_fault]; the drivers succeed and nothing else is running. *)
Definition make (reserve : outcome (list string))
    (created : outcome string) (commit_fault : option exn) : Env :=
  {| extract_host := host_of;
     quota_reserve := fun _ _ _ _ => reserve;
     quota_commit_fault := fun _ _ => commit_fault;
     backup_create_result := fun _ => created;
     text_type := fun _ => "error";
     server_status := fun _ => Ret "SHUTOFF";
     vm_state := fun _ => Ret "active";
     sync_fails := fun _ => false;
     thaw_outcome := fun _ _ => None;
     volume_api_create := fun _ _ _ => raise (Failure "no capacity");
     while_asleep := fun _ w => w;
     worker_ends := fun _ _ => true;
     driver_initialized := fun _ => true;
     detach_volume := fun _ _ _ => ret tt;
     drv_backup_volume :=
       fun _ _ => ret (Some (mkBackupResult (Some 512) None));
     drv_restore_backup := fun _ _ _ => ret tt;
     drv_delete := fun _ => None;
     drv_export_record := fun _ => Ret "url" |}.

Definition env : Env := make (Ret ["r1"]) (Ret "b-new") None.

Definition ctx : Context :=
  {| ctx_user_id := "alice"; ctx_project_id := "p1";
     ctx_is_admin := false; ctx_periodic := false |}.

Definition admin : Context := elevated ctx.

Definition executor : BackupManager :=
  {| mgr_host := "node1@lvm";
     mgr_backup_driver := "cinder.backup.drivers.swift";
     mgr_az := "nova";
     mgr_volume_managers := ["lvm"] |}.

Definition volume (status : string) (size : Z)
    (description : option string) (attachments : list Attachment)
    (volume_type : string) : Volume :=
  {| v_status := Some status; v_size := size; v_host := node;
     v_availability_zone := "nova";
     v_display_description := description;
     v_volume_attachment := attachments;
     v_volume_type := Some volume_type |}.

Definition backup (volume_id status : string) (size : option Z)
    (description fail_reason : option string) (created_at : Z) : Backup :=
  {| b_volume_id := volume_id; b_status := status; b_size := size;
     b_container := Some "backups"; b_parent_id := None;
     b_host := Some "node1@lvm";
     b_service := Some "cinder.backup.drivers.swift";
     b_display_name := None; b_display_description := description;
     b_fail_reason := fail_reason; b_availability_zone := Some "nova";
     b_project_id := "p1"; b_user_id := "alice";
     b_created_at := created_at |}.

Definition world (vs : list (string * Volume))
    (bs : list (string * Backup)) : World :=
  {| volumes := list_to_map vs;
     backups := list_to_map bs;
     services := [mkService "node1" "nova" false true];
     ledger := ∅;
     events := [];
     now := 100;
     pool := [] |}.

End Sample.

(** * Vocabulary of the properties *)

(** The description of the backup carries the periodic tag. *)
Definition carries_periodic_tag (bk : Backup) : bool :=
  match b_display_description bk with
  | Some d => PyStr.contains PERIODICSTR d
  | None => false
  end.

(** The normal backups among the rows. *)
Definition normal_backups (rows : list (string * Backup)) :=
  List.filter (fun r => negb (carries_periodic_tag r.2)) rows.

(** The backups of a volume, as [backup_get_all_by_volume] lists them. *)
Definition volume_backups (volume_id : string) (w : World) :=
  List.filter (fun r => bool_decide (b_volume_id r.2 = volume_id))
    (Db.backup_rows w).

(** What the status of the candidate means for the new backup. *)
Definition parent_for (c : string * Backup) : outcome (option string) :=
  if String.eqb (b_status c.2) "available" then Ret (Some c.1)
  else if String.eqb (b_status c.2) "creating" then
    Raise (InvalidBackup "The parent backup is creating.")
  else Ret None.

(** An enabled backup service is up on the host and in the zone of the
    volume. *)
Definition service_enabled (env : Env) (v : Volume) (w : World) : bool :=
  existsb
    (fun srv =>
       bool_decide (srv_availability_zone srv = v_availability_zone v) &&
       bool_decide (srv_host srv = extract_host env (v_host v) LevelHost) &&
       srv_is_up srv)
    (List.filter (fun s => bool_decide (srv_disabled s = false)) (services w)).

(** The call passes the volume and service checks of [create]. *)
Definition accepted (env : Env) (volume_id : string) (v : Volume)
    (w : World) : Prop :=
  volumes w !! volume_id = Some v /\
  v_status v = Some "available" /\
  service_enabled env v w = true.

(** The error is one of the two typed quota errors. *)
Definition typed_quota_error (e : exn) : Prop :=
  (exists requested consumed quota,
     e = VolumeBackupSizeExceedsAvailableQuota requested consumed quota) \/
  (exists allowed, e = BackupLimitExceeded allowed).

(** Whenever the reservation of [create] fails with [OverQuota], the
    caller gets a typed quota error and nothing has changed. *)
Definition over_quota_always_typed : Prop :=
  forall env ctx name description volume_id container incremental w v overs
         usages quotas,
    accepted env volume_id v w ->
    quota_reserve env w (ctx_project_id ctx) 1 (v_size v) =
      Raise (OverQuota overs usages quotas) ->
    exists e,
      typed_quota_error e /\
      API.create env ctx name description volume_id container incremental w =
        (Raise e, w).

(** The part of [create] that follows the reservation. *)
Definition create_from_reservation (env : Env) (ctx : Context)
    (name description : option string) (volume_id : string)
    (container : option string) (incremental : bool) (v : Volume)
    (reservations : option (list string)) : M (string * Backup) :=
  parent_id <- API.find_parent ctx incremental volume_id ;;
  _ <- Db.volume_update volume_id [VStatus (Some "backing-up")] ;;
  backup <- API.insert_step env reservations
              (API.create_options ctx name
                 (API.tagged_description (ctx_periodic ctx) description)
                 volume_id container parent_id
                 (extract_host env (v_host v) LevelHost)) ;;
  RpcApi.create_backup (b_host backup.2) backup.1 volume_id ;;;
  ret backup.

(** The world in which [create] inserts the backup row. *)
Definition world_at_insertion (volume_id : string) (v : Volume)
    (rs : list string) (w : World) : World :=
  with_volumes
    (insert volume_id (volume_apply [VStatus (Some "backing-up")] v))
    (with_ledger (Quotas.mark Pending rs) w).

(** The reason given when the volume is too small for the backup. *)
Definition too_small_message (v : Volume) (size : Z) : string :=
  "volume size " ++ pretty (v_size v) ++ " GB is too small to restore " ++
  "backup of size " ++ pretty size ++ " MB.".

(** Every message that a computation puts on the bus is a call. *)
Definition dispatches_by_call {A} (m : M A) : Prop :=
  forall w r w' msg,
    m w = (r, w') ->
    In (EvRpc msg) (events w') -> ~ In (EvRpc msg) (events w) ->
    msg_kind msg = Call.

(** The message of an import is a call. *)
Definition import_dispatched_by_call : Prop :=
  forall env ctx backup_service backup_url,
    dispatches_by_call (API.import_record env ctx backup_service backup_url).

(** The placeholder row inserted by [import_record] at time [t]. *)
Definition import_placeholder (ctx : Context) (t : Z) : Backup :=
  {| b_volume_id := "0000-0000-0000-0000";
     b_status := "creating";
     b_size := None;
     b_container := None;
     b_parent_id := None;
     b_host := None;
     b_service := None;
     b_display_name := None;
     b_display_description := None;
     b_fail_reason := None;
     b_availability_zone := None;
     b_project_id := ctx_project_id ctx;
     b_user_id := ctx_user_id ctx;
     b_created_at := t |}.

(** The hosts of the enabled backup services. *)
Definition enabled_hosts (w : World) : list string :=
  List.map srv_host
    (List.filter (fun srv => negb (srv_disabled srv)) (services w)).




(** Whatever [m] does, the worlds before and after are related by [R]. *)
Definition preserves {A} (R : World -> World -> Prop) (m : M A) : Prop :=
  forall w r w', m w = (r, w') -> R w w'.

(** Only the row of backup [k] changes in the record store. *)
Definition backups_but (k : string) (w w' : World) : Prop :=
  volumes w' = volumes w /\
  forall k', k' <> k -> backups w' !! k' = backups w !! k'.

(** Only the row of volume [k] changes, and it is not removed. *)
Definition volumes_but (k : string) (w w' : World) : Prop :=
  backups w' = backups w /\
  (forall k', k' <> k -> volumes w' !! k' = volumes w !! k') /\
  (is_Some (volumes w !! k) -> is_Some (volumes w' !! k)).

(** The backup rows, respectively the volume rows, are unchanged. *)
Definition same_backups (w w' : World) : Prop := backups w' = backups w.

Definition same_volumes (w w' : World) : Prop := volumes w' = volumes w.

(** The detach of a volume manager only touches the row of the volume. *)
Definition detach_keeps_records (env : Env) : Prop :=
  forall backend volume_id attachment_id,
    preserves (volumes_but volume_id)
      (detach_volume env backend volume_id attachment_id).

(** The volume managers of the executor never refuse a detach. *)
Definition detach_succeeds (env : Env) : Prop :=
  forall backend volume_id attachment_id w,
    exists w', detach_volume env backend volume_id attachment_id w =
                 (Ret tt, w').

(** The backend of the executor's own host is registered. *)
Definition backend_registered (self : BackupManager) : Prop :=
  exists backend,
    Manager._get_volume_backend self (Some (mgr_host self)) false =
      Ret backend /\
    Manager._get_manager self (Some backend) = Ret backend.

(** The reason recorded by the sweep for an interrupted backup. *)
Definition sweep_reason : string :=
  "incomplete backup reset on manager restart".

(** The executor owns a backup in [creating] and a volume in
    [restoring-backup]. *)
Definition interrupted (self : BackupManager) (env : Env) (w : World)
    (backup_id : string) (b : Backup) (volume_id : string) (v : Volume)
    : Prop :=
  backups w !! backup_id = Some b /\
  b_host b = Some (mgr_host self) /\
  b_status b = "creating" /\
  volumes w !! volume_id = Some v /\
  extract_host env (v_host v) LevelBackend = mgr_host self /\
  v_status v = Some "restoring-backup".

(** The backup is in [error] with the reason of the sweep. *)
Definition backup_reset (w' : World) (backup_id : string) : Prop :=
  exists b', backups w' !! backup_id = Some b' /\
             b_status b' = "error" /\
             b_fail_reason b' = Some sweep_reason.

(** The backup is in [error] with the reason of the sweep and the volume
    is in [error_restoring]. *)
Definition swept (w' : World) (backup_id volume_id : string) : Prop :=
  (exists b', backups w' !! backup_id = Some b' /\
              b_status b' = "error" /\
              b_fail_reason b' = Some sweep_reason) /\
  (exists v', volumes w' !! volume_id = Some v' /\
              v_status v' = Some "error_restoring").

(** The sweep resets every such pair when no attachment of the volume
    belongs to an instance. *)
Definition sweep_resets_without_instance : Prop :=
  forall self env ctxt w w' backup_id b volume_id v,
    detach_keeps_records env ->
    Manager.init_host self env ctxt w = (Ret tt, w') ->
    interrupted self env w backup_id b volume_id v ->
    (forall a, In a (v_volume_attachment v) -> instance_uuid a = None) ->
    swept w' backup_id volume_id.

(** The backup is in [error] with the reason of the time-out. *)
Definition timed_out (b : Backup) : Prop :=
  b_status b = "error" /\ b_fail_reason b = Some Manager.timeout_reason.

(** The world in which the completion poll of an instance-group backup
    starts: the guest has been frozen and the workers are on the hub. *)
Definition poll_start (self : BackupManager) (env : Env) (ctx : Context)
    (instance : string) (kwargs : list InstBackupKwargs) (st : string)
    (w : World) : World :=
  (Manager.spawn_workers self ctx kwargs
     (Manager.freeze env instance st w).2).2.


(** The description ends with the marker, as [delete] and
    [restore_backup] test it. *)
Definition carries_active_marker (bk : Backup) : bool :=
  match b_display_description bk with
  | Some d => String.eqb (PyStr.last6 d) MAGICSTR
  | None => false
  end.

(** The backups that the bookkeeping of a restore onto [volume_id]
    reads: those of the volume, and of the project of the caller unless
    the caller is an administrator. *)
Definition visible (ctx : Context) (volume_id : string)
    (r : string * Backup) : bool :=
  if ctx_is_admin ctx then bool_decide (b_volume_id r.2 = volume_id)
  else bool_decide (b_project_id r.2 = ctx_project_id ctx) &&
       bool_decide (b_volume_id r.2 = volume_id).

(** The row without one trailing marker. *)
Definition strip_marker (bk : Backup) : Backup :=
  match b_display_description bk with
  | Some d =>
      if PyStr.truthy (Some d) && String.eqb (PyStr.last6 d) MAGICSTR
      then backup_set (BDisplayDescription (PyStr.drop_last6 d)) bk
      else bk
  | None => bk
  end.

(** The text of the description, [''] when there is none. *)
Definition description_text (bk : Backup) : string :=
  match b_display_description bk with
  | Some d => d
  | None => EmptyString
  end.

(** The row that [create] inserts for a volume [v] at time [t]. *)
Definition created_row (env : Env) (ctx : Context)
    (name description : option string) (volume_id : string)
    (container parent : option string) (v : Volume) (t : Z) : Backup :=
  created_at_set t
    (API.create_options ctx name
       (API.tagged_description (ctx_periodic ctx) description) volume_id
       container parent (extract_host env (v_host v) LevelHost)).

(** Nothing at all has changed. *)
Definition unchanged (w w' : World) : Prop := w' = w.

(** Some backup that the caller can list names [backup_id] as its
    parent. *)
Definition has_visible_child (ctx : Context) (backup_id : string)
    (w : World) : Prop :=
  exists k c,
    backups w !! k = Some c /\
    b_parent_id c = Some backup_id /\
    (ctx_is_admin ctx = true \/ b_project_id c = ctx_project_id ctx).

(** The world after [delete] has accepted the request. *)
Definition deletion_queued (backup_id : string) (b : Backup) (w : World)
    : World :=
  with_event (EvRpc (mkMsg Cast (b_host b) (ArgsDeleteBackup backup_id)))
    (with_backups (insert backup_id (backup_set (BStatus "deleting") b)) w).

(** The executor's own driver is registered and initialised. *)
Definition own_driver_ready (self : BackupManager) (env : Env) : Prop :=
  exists driver,
    Manager._get_driver self None = Ret driver /\
    driver_initialized env driver = true.

(** Only the row of backup [k] changes, and it is not removed. *)
Definition row_kept (k : string) (w w' : World) : Prop :=
  backups_but k w w' /\
  (is_Some (backups w !! k) -> is_Some (backups w' !! k)).

(** A computation either returns and has destroyed the row of backup
    [k], or raises and has kept it; no other row is touched. *)
Definition destroys_or_keeps (k : string) (m : M unit) : Prop :=
  forall w r w',
    m w = (r, w') ->
    (r = Ret tt /\ backups w' = delete k (backups w) /\
     volumes w' = volumes w) \/
    (exists e, r = Raise e /\ row_kept k w w').

(** The row of a backup taken over by the executor. *)
Definition taken_over (self : BackupManager) (b : Backup) : Backup :=
  backup_set (BHost (mgr_host self)) b.

(** No row of the store has been removed. *)
Definition rows_kept (w w' : World) : Prop :=
  (forall k, is_Some (volumes w !! k) -> is_Some (volumes w' !! k)) /\
  (forall k, is_Some (backups w !! k) -> is_Some (backups w' !! k)).

(** The backup call, respectively the restore call, of the volume
    drivers removes no row. *)
Definition backup_driver_keeps_rows (env : Env) : Prop :=
  forall backend backup_id,
    preserves rows_kept (drv_backup_volume env backend backup_id).

Definition restore_driver_keeps_rows (env : Env) : Prop :=
  forall backend backup_id volume_id,
    preserves rows_kept (drv_restore_backup env backend backup_id volume_id).

(** The status of a volume and of a backup in a world. *)
Definition volume_status (w : World) (volume_id : string)
    : option (option string) :=
  v_status <$> volumes w !! volume_id.

Definition backup_status (w : World) (backup_id : string) : option string :=
  b_status <$> backups w !! backup_id.

(** The volumes and the status of every backup are unchanged. *)
Definition same_statuses (w w' : World) : Prop :=
  volumes w' = volumes w /\
  forall k, backup_status w' k = backup_status w k.

(** The backend used for a host that names none. *)
Definition fallback_backend (self : BackupManager) : outcome string :=
  if Manager.member "default" (mgr_volume_managers self) then Ret "default"
  else match mgr_volume_managers self with
       | k :: _ => Ret k
       | [] => Raise IndexError
       end.

(** Every member of the group has its backup row, and the volume of that
    row has a volume type. *)
Definition members_readable (kwargs : list InstBackupKwargs) (w : World)
    : Prop :=
  forall k, In k kwargs ->
    exists b v t,
      backups w !! kw_backup_id k = Some b /\
      volumes w !! b_volume_id b = Some v /\
      v_volume_type v = Some t.

(** The rows that the poll loop reads for the members. *)
Definition member_rows (kwargs : list InstBackupKwargs) (w : World)
    : list (string * Backup) :=
  omap (fun k => (fun b => (kw_backup_id k, b)) <$>
                   backups w !! kw_backup_id k) kwargs.

(** The world after [n] sleeps of a wait loop that started in [w], the
    first of them being the [k]-th suspension of the caller. *)
Fixpoint after_sleeps (env : Env) (k n : nat) (w : World) : World :=
  match n with
  | O => w
  | S n' => after_sleeps env (S k) n' (while_asleep env k w)
  end.



(** The hub with the workers of the members added. *)
Definition with_workers_of (self : BackupManager) (ctx : Context)
    (kwargs : list InstBackupKwargs) (w : World) : World :=
  with_pool
    (fun hub =>
       (hub ++
        List.map (fun k => mkWorker self ctx (kw_backup_id k)) kwargs)%list)
    w.

(** * Scenarios on the sample deployment *)

(** A volume whose backup has completed: both are [available]. *)
Definition finished_backup : Backup :=
  Sample.backup "v1" "available" (Some 512) (Some "nightly") None 10.

(** The store once the backup of [v1] has completed. *)
Definition after_backup : World :=
  Sample.world [("v1", Sample.volume "available" 10 None [] "lvm")]
    [("b1", finished_backup)].

(** A restore interrupted on a volume without attachments. *)
Definition interrupted_volume : Volume :=
  Sample.volume "restoring-backup" 10 (Some "available") [] "lvm".

Definition interrupted_backup : Backup :=
  Sample.backup "v2" "creating" (Some 0) None None 10.

Definition crashed : World :=
  Sample.world [("v1", interrupted_volume)] [("b1", interrupted_backup)].

(** The same start-up with an attachment left by the crashed executor. *)
Definition crashed_attached : World :=
  Sample.world
    [("v1", Sample.volume "restoring-backup" 10 (Some "available")
              [mkAttachment "a1" (Some "node1@lvm") None] "lvm")]
    [("b1", interrupted_backup)].

(** An instance with three volumes: one backup is done, one has failed,
    one never leaves [creating]. *)
Definition group_volume : Volume :=
  Sample.volume "backing-up" 10 (Some "in-use") [] "ebs-data".

Definition group : World :=
  Sample.world
    [("v1", group_volume); ("v2", group_volume); ("v3", group_volume)]
    [("b1", Sample.backup "v1" "available" (Some 512) (Some "g") None 10);
     ("b2", Sample.backup "v2" "error" (Some 0) (Some "g")
              (Some "driver failed") 10);
     ("b3", Sample.backup "v3" "creating" (Some 0) (Some "g") None 10)].

Definition group_kwargs : list InstBackupKwargs :=
  [mkKwargs (Some "node1") "b1" "v1";
   mkKwargs (Some "node1") "b2" "v2";
   mkKwargs (Some "node1") "b3" "v3"].

(** The same instance on the [fujitsu-ipsan] backend, when the backups of
    its three volumes have just been requested. *)
Definition ipsan_volume : Volume :=
  Sample.volume "backing-up" 10 (Some "in-use") [] "fujitsu-ipsan".

Definition requested_backup (volume_id : string) : Backup :=
  Sample.backup volume_id "creating" (Some 0) (Some "g") None 10.

Definition ipsan_group : World :=
  Sample.world
    [("v1", ipsan_volume); ("v2", ipsan_volume); ("v3", ipsan_volume)]
    [("b1", requested_backup "v1"); ("b2", requested_backup "v2");
     ("b3", requested_backup "v3")].

(** The same environment with other workers: the suspensions during
    which they end, and the driver that they call. *)
Definition with_workers (ends : nat -> string -> bool)
    (driver : string -> string -> M (option BackupResult)) (e : Env)
    : Env :=
  {| extract_host := extract_host e;
     quota_reserve := quota_reserve e;
     quota_commit_fault := quota_commit_fault e;
     backup_create_result := backup_create_result e;
     text_type := text_type e;
     server_status := server_status e;
     vm_state := vm_state e;
     sync_fails := sync_fails e;
     thaw_outcome := thaw_outcome e;
     volume_api_create := volume_api_create e;
     while_asleep := while_asleep e;
     worker_ends := ends;
     driver_initialized := driver_initialized e;
     detach_volume := detach_volume e;
     drv_backup_volume := driver;
     drv_restore_backup := drv_restore_backup e;
     drv_delete := drv_delete e;
     drv_export_record := drv_export_record e |}.

(** A driver that fails for the second backup of the group. *)
Definition second_fails (backend backup_id : string)
    : M (option BackupResult) :=
  if String.eqb backup_id "b2" then raise (Failure "driver failed")
  else ret (Some (mkBackupResult (Some 512) None)).

(** The first two workers end during the first sleep, one with a backup
    and one with a failure of the driver; the third never ends. *)
Definition stuck_env : Env :=
  with_workers (fun _ id => negb (String.eqb id "b3")) second_fails
    Sample.env.

(** The third worker ends during the last sleep but one. *)
Definition late_env : Env :=
  with_workers
    (fun n id => if String.eqb id "b3" then Nat.eqb n 718 else true)
    second_fails Sample.env.

(** A restore of a backup onto volume [v1]: the request to the
    orchestrator, then the delivery of its message to the executor. *)
Definition restore_cycle (backup_id : string) : M unit :=
  API.restore Sample.env Sample.ctx backup_id (Some "v1") 0 ;;;
  Manager.restore_backup Sample.executor Sample.env Sample.ctx backup_id
    "v1".

(** A volume with two backups, none of them restored so far. *)
Definition two_backups : World :=
  Sample.world [("v1", Sample.volume "available" 1 None [] "lvm")]
    [("b1", Sample.backup "v1" "available" (Some 512) (Some "nightly")
              None 10);
     ("b2", Sample.backup "v1" "available" (Some 512) (Some "weekly")
              None 20)].

(** Three restores in a row: [b1], [b1] again, then [b2]. *)
Definition three_restores : M unit :=
  restore_cycle "b1" ;;; restore_cycle "b1" ;;; restore_cycle "b2".

(** A volume with a normal backup and a later periodic one. *)
Definition chain : World :=
  Sample.world [("v1", Sample.volume "available" 10 None [] "lvm")]
    [("b1", Sample.backup "v1" "available" (Some 512) (Some "first") None 10);
     ("b2", Sample.backup "v1" "available" (Some 512)
              (Some (PERIODICSTR ++ "nightly")) None 30)].

(** A volume without backups. *)
Definition one_volume : World :=
  Sample.world [("v1", Sample.volume "available" 10 None [] "lvm")] [].

(** The quota engine reports an overrun of a resource that is neither
    the backup capacity nor the backup count. *)
Definition unknown_resource_env : Env :=
  Sample.make (Raise (OverQuota ["volumes"] ∅ ∅)) (Ret "b-new") None.

(** The record store refuses the insertion of the backup row. *)
Definition failing_insert_env : Env :=
  Sample.make (Ret ["r1"]) (Raise (Failure "db down")) None.

(** A backup of two gigabytes and a target volume of one. *)
Definition small_volume : Volume :=
  Sample.volume "available" 1 (Some "my data") [] "lvm".

Definition large_backup : Backup :=
  Sample.backup "v0" "available" (Some 2048) (Some "big") None 10.

Definition too_small : World :=
  Sample.world [("v1", small_volume)] [("b1", large_backup)].

(** The backup capacity is all but used up: 99 of 100 gigabytes. *)
Definition capacity_usages : gmap string Usage :=
  {[ "backup_gigabytes" := mkUsage 1 98 ]}.

Definition capacity_quotas : gmap string Z := {[ "backup_gigabytes" := 100 ]}.

Definition over_capacity_env : Env :=
  Sample.make
    (Raise (OverQuota ["backup_gigabytes"] capacity_usages capacity_quotas))
    (Ret "b-new") None.


(** A request made for a periodic backup. *)
Definition periodic_ctx : Context := set_periodic true Sample.ctx.

(** The store after a periodic backup of [v1] has been requested and
    made, next to the normal backup that the volume had. *)
Definition periodic_done : World :=
  ((API.create Sample.env periodic_ctx None (Some "nightly") "v1" None true ;;;
    Manager.create_backup Sample.executor Sample.env Sample.admin "b-new")
     after_backup).2.

(** The environment of the next request: other reservations and another
    identifier for the new row. *)
Definition next_env : Env := Sample.make (Ret ["r2"]) (Ret "b-next") None.

(** A volume whose only backup is still being created. *)
Definition pending_parent : World :=
  Sample.world [("v1", Sample.volume "available" 10 None [] "lvm")]
    [("b1", Sample.backup "v1" "creating" (Some 0) (Some "first") None 10)].

(** A backup that is being restored already. *)
Definition restoring_twice : World :=
  Sample.world [("v1", Sample.volume "available" 10 None [] "lvm")]
    [("b1", Sample.backup "v1" "restoring" (Some 512) (Some "nightly") None
              10)].

(** A full backup and an incremental backup made on top of it. *)
Definition with_child : World :=
  Sample.world [("v1", Sample.volume "available" 10 None [] "lvm")]
    [("b1", Sample.backup "v1" "available" (Some 512) (Some "full") None 10);
     ("b2", {| b_volume_id := "v1"; b_status := "available";
               b_size := Some 16; b_container := Some "backups";
               b_parent_id := Some "b1"; b_host := Some "node1@lvm";
               b_service := Some "cinder.backup.drivers.swift";
               b_display_name := None;
               b_display_description := Some "delta";
               b_fail_reason := None;
               b_availability_zone := Some "nova";
               b_project_id := "p1"; b_user_id := "alice";
               b_created_at := 20 |})].

(** A backup whose deletion has been accepted. *)
Definition deleting_backup : Backup :=
  Sample.backup "v1" "deleting" (Some 512) (Some "nightly") None 10.

Definition deleting : World :=
  Sample.world [("v1", Sample.volume "available" 10 None [] "lvm")]
    [("b1", deleting_backup)].

(** The same backup once its volume is gone. *)
Definition orphaned : World := Sample.world [] [("b1", deleting_backup)].

(** An environment whose object store cannot be reached: every call of
    a backup driver raises. *)
Definition unreachable_env : Env :=
  {| extract_host := Sample.host_of;
     quota_reserve := fun _ _ _ _ => Ret ["r1"];
     quota_commit_fault := fun _ _ => None;
     backup_create_result := fun _ => Ret "b-new";
     text_type := fun _ => "object store unreachable";
     server_status := fun _ => Ret "SHUTOFF";
     vm_state := fun _ => Ret "active";
     sync_fails := fun _ => false;
     thaw_outcome := fun _ _ => None;
     volume_api_create := fun _ _ _ => raise (Failure "no capacity");
     while_asleep := fun _ w => w;
     worker_ends := fun _ _ => true;
     driver_initialized := fun _ => true;
     detach_volume := fun _ _ _ => ret tt;
     drv_backup_volume := fun _ _ => raise (Failure "unreachable");
     drv_restore_backup := fun _ _ _ => raise (Failure "unreachable");
     drv_delete := fun _ => Some (Failure "unreachable");
     drv_export_record := fun _ => Raise (Failure "unreachable") |}.

(** A restore that the orchestrator has accepted onto a volume that was
    in use. *)
Definition restore_in_progress : World :=
  Sample.world
    [("v1", Sample.volume "restoring-backup" 10 (Some "in-use") [] "lvm")]
    [("b1", Sample.backup "v1" "restoring" (Some 512) (Some "nightly") None
              10)].

(** The executor went down while a backup was being restored. *)
Definition crashed_restoring : World :=
  Sample.world [("v1", Sample.volume "available" 10 None [] "lvm")]
    [("b1", Sample.backup "v1" "restoring" (Some 512) (Some "nightly") None
              10)].

(** Records of two executors, and records that no restart concerns. *)
Definition two_hosts : World :=
  Sample.world
    [("v1", Sample.volume "restoring-backup" 10 (Some "available")
              [mkAttachment "a1" (Some "node1@lvm") None] "lvm");
     ("v2", Sample.volume "backing-up" 10 None [] "lvm")]
    [("b1", interrupted_backup);
     ("b2", backup_set (BHost "node2@lvm") interrupted_backup);
     ("b3", finished_backup)].

(** A group of two whose backups have both ended. *)
Definition group_done : World :=
  Sample.world
    [("v1", group_volume); ("v2", group_volume)]
    [("b1", Sample.backup "v1" "available" (Some 512) (Some "g") None 10);
     ("b2", Sample.backup "v2" "error" (Some 0) (Some "g")
              (Some "driver failed") 10)].

Definition group_done_kwargs : list InstBackupKwargs :=
  [mkKwargs (Some "node1") "b1" "v1"; mkKwargs (Some "node1") "b2" "v2"].

(** The same group when the second backup is being deleted meanwhile. *)
Definition group_deleting : World :=
  Sample.world
    [("v1", group_volume); ("v2", group_volume)]
    [("b1", Sample.backup "v1" "available" (Some 512) (Some "g") None 10);
     ("b2", Sample.backup "v2" "deleting" (Some 0) (Some "g") None 10)].

(** A group whose first member has no backup row. *)
Definition missing_member_kwargs : list InstBackupKwargs :=
  [mkKwargs (Some "node1") "b0" "v1"; mkKwargs (Some "node1") "b1" "v1"].

(** The same environment with another guest: its state, and the outcome
    of each of its thaw calls. *)
Definition with_guest (state : string) (thaws : nat -> option exn) (e : Env)
    : Env :=
  {| extract_host := extract_host e;
     quota_reserve := quota_reserve e;
     quota_commit_fault := quota_commit_fault e;
     backup_create_result := backup_create_result e;
     text_type := text_type e;
     server_status := server_status e;
     vm_state := fun _ => Ret state;
     sync_fails := sync_fails e;
     thaw_outcome := fun _ => thaws;
     volume_api_create := volume_api_create e;
     while_asleep := while_asleep e;
     worker_ends := worker_ends e;
     driver_initialized := driver_initialized e;
     detach_volume := detach_volume e;
     drv_backup_volume := drv_backup_volume e;
     drv_restore_backup := drv_restore_backup e;
     drv_delete := drv_delete e;
     drv_export_record := drv_export_record e |}.


(** A guest that is shut down. *)
Definition stopped_env : Env :=
  with_guest "stopped" (fun _ => None) Sample.env.

(** The volume service creates volume [v-new], which is [creating] at the
    first two looks and ends in [error] during the second sleep. *)
Definition failing_volume_env : Env :=
  {| extract_host := Sample.host_of;
     quota_reserve := fun _ _ _ _ => Ret ["r1"];
     quota_commit_fault := fun _ _ => None;
     backup_create_result := fun _ => Ret "b-new";
     text_type := fun _ => "error";
     server_status := fun _ => Ret "SHUTOFF";
     vm_state := fun _ => Ret "active";
     sync_fails := fun _ => false;
     thaw_outcome := fun _ _ => None;
     volume_api_create :=
       fun size _ description =>
         modify (with_volumes
                   (insert "v-new"
                      (Sample.volume "creating" size (Some description) []
                         "lvm"))) ;;;
         ret "v-new";
     while_asleep :=
       fun n w =>
         if Nat.eqb n 1
         then with_volumes
                (alter (volume_set (VStatus (Some "error"))) "v-new") w
         else w;
     worker_ends := fun _ _ => true;
     driver_initialized := fun _ => true;
     detach_volume := fun _ _ _ => ret tt;
     drv_backup_volume :=
       fun _ _ => ret (Some (mkBackupResult (Some 512) None));
     drv_restore_backup := fun _ _ _ => ret tt;
     drv_delete := fun _ => None;
     drv_export_record := fun _ => Ret "url" |}.

(** * Properties *)

Lemma is_normal_tag bk : API.is_normal bk = negb (carries_periodic_tag bk).
Proof.
  unfold API.is_normal, carries_periodic_tag.
  destruct (b_display_description bk) as [d|]; simpl; [|reflexivity].
  destruct d; reflexivity.
Qed.

Lemma filter_normal rows :
  List.filter (fun r => API.is_normal r.2) rows = normal_backups rows.
Proof.
  unfold normal_backups. apply List.filter_ext. intros r. apply is_normal_tag.
Qed.

Lemma max_created_at_In x rest : In (API.max_created_at x rest) (x :: rest).
Proof.
  revert x. induction rest as [|y rest IH]; intros x; simpl.
  - now left.
  - destruct (Z.ltb _ _).
    + right. apply IH.
    + destruct (IH x) as [H|H]; [left; exact H | right; right; exact H].
Qed.

Lemma max_created_at_first x rest :
  b_created_at x.2 <= b_created_at (API.max_created_at x rest).2.
Proof.
  revert x. induction rest as [|y rest IH]; intros x; simpl; [lia|].
  destruct (Z.ltb_spec (b_created_at x.2) (b_created_at y.2)) as [Hlt|Hge].
  - specialize (IH y). lia.
  - apply IH.
Qed.

Lemma max_created_at_ge x rest r :
  In r (x :: rest) ->
  b_created_at r.2 <= b_created_at (API.max_created_at x rest).2.
Proof.
  intros [<-|Hin]; [apply max_created_at_first|].
  revert x. induction rest as [|y rest IH]; intros x; [destruct Hin|].
  simpl.
  destruct (Z.ltb_spec (b_created_at x.2) (b_created_at y.2)) as [Hlt|Hge].
  - destruct Hin as [<-|Hin]; [apply max_created_at_first | now apply IH].
  - destruct Hin as [<-|Hin]; [|now apply IH].
    pose proof (max_created_at_first x rest). lia.
Qed.

Lemma latest_normal_backup_incremental rows :
  API.latest_normal_backup true rows =
  match normal_backups rows with
  | [] => None
  | x :: rest => Some (API.max_created_at x rest)
  end.
Proof.
  unfold API.latest_normal_backup. rewrite filter_normal.
  destruct rows; reflexivity.
Qed.

Lemma resolve_parent_spec periodic incremental rows :
  (periodic = true \/ incremental = false ->
   API.resolve_parent periodic incremental rows = Ret None) /\
  (periodic = false -> incremental = true ->
   match normal_backups rows with
   | [] => API.resolve_parent periodic incremental rows = Ret None
   | _ :: _ =>
       exists c, In c (normal_backups rows) /\
         (forall r, In r (normal_backups rows) ->
                    b_created_at r.2 <= b_created_at c.2) /\
         API.resolve_parent periodic incremental rows = parent_for c
   end).
Proof.
  split.
  - intros [-> | ->]; [reflexivity|]. destruct periodic; reflexivity.
  - intros -> ->. unfold API.resolve_parent.
    rewrite latest_normal_backup_incremental.
    destruct (normal_backups rows) as [|x rest]; [reflexivity|].
    exists (API.max_created_at x rest). split; [apply max_created_at_In|].
    split; [intros r; apply max_created_at_ge|].
    unfold API.parent_of, parent_for. destruct (API.max_created_at x rest).
    reflexivity.
Qed.

(** ** Reasoning in the monad *)

Lemma bind_Ret {A B} (m : M A) (k : A -> M B) w a w1 :
  m w = (Ret a, w1) -> bind m k w = k a w1.
Proof. unfold bind. now intros ->. Qed.

Lemma bind_Raise {A B} (m : M A) (k : A -> M B) w e w1 :
  m w = (Raise e, w1) -> bind m k w = (Raise e, w1).
Proof. unfold bind. now intros ->. Qed.

Lemma bind_Ret_inv {A B} (m : M A) (k : A -> M B) w b w' :
  bind m k w = (Ret b, w') ->
  exists a w1, m w = (Ret a, w1) /\ k a w1 = (Ret b, w').
Proof.
  unfold bind. destruct (m w) as [[a|e] w1]; [eauto | discriminate].
Qed.

Lemma for_each_skip {A} (xs : list A) (body : A -> M unit) w :
  (forall x, In x xs -> body x w = (Ret tt, w)) ->
  for_each xs body w = (Ret tt, w).
Proof.
  induction xs as [|x xs IH]; intros H; [reflexivity|].
  simpl. rewrite (bind_Ret _ _ _ _ _ (H x (or_introl eq_refl))).
  apply IH. intros y Hy. apply H. now right.
Qed.

Lemma create_accepted env ctx name description volume_id container
    incremental v w :
  accepted env volume_id v w ->
  API.create env ctx name description volume_id container incremental w =
  bind (API.reserve_step env ctx v)
    (create_from_reservation env ctx name description volume_id container
       incremental v) w.
Proof.
  intros (Hv & Hst & Hen). unfold API.create.
  unfold API.volume_api_get. 
  rewrite (bind_Ret _ _ w v w); [|unfold Db.volume_get; now rewrite Hv].
  unfold status_is. rewrite Hst. rewrite bool_decide_eq_true_2 by reflexivity. simpl.
  rewrite (bind_Ret _ _ w true w); [reflexivity|].
  unfold API._is_backup_service_enabled, bind, Db.service_get_all_by_topic, ret.
  f_equal. f_equal. exact Hen.
Qed.

Lemma create_Ret_accepted env ctx name description volume_id container
    incremental w r w' :
  API.create env ctx name description volume_id container incremental w =
    (Ret r, w') ->
  exists v, accepted env volume_id v w.
Proof.
  unfold API.create. intros H.
  apply bind_Ret_inv in H as (v & w1 & Hget & H).
  unfold API.volume_api_get, Db.volume_get in Hget.
  destruct (volumes w !! volume_id) as [v0|] eqn:Hv; [|discriminate].
  injection Hget as <- <-.
  destruct (status_is (v_status v0) "available") eqn:Hst; [|discriminate].
  simpl in H. apply bind_Ret_inv in H as (en & w2 & Hen & H).
  destruct en; [|discriminate].
  exists v0. split; [exact Hv|]. split.
  - unfold status_is in Hst. now apply bool_decide_eq_true_1 in Hst.
  - unfold API._is_backup_service_enabled, bind, Db.service_get_all_by_topic, ret in Hen.
    injection Hen as Hen _. exact Hen.
Qed.

Lemma mark_lookup st rs l r : In r rs -> Quotas.mark st rs l !! r = Some st.
Proof.
  induction rs as [|x rs IH]; intros Hin; [destruct Hin|].
  simpl. destruct (decide (x = r)) as [->|Hne].
  - apply lookup_insert_eq.
  - rewrite lookup_insert_ne by exact Hne. destruct Hin; [congruence|auto].
Qed.

(** ** The steps of [create] *)

Lemma over_quota_handler_world v overs usages quotas w r w1 :
  API.over_quota_handler v overs usages quotas w = (r, w1) -> w1 = w.
Proof.
  unfold API.over_quota_handler.
  induction overs as [|over overs IH]; simpl.
  - unfold ret. now intros [= _ <-].
  - unfold bind at 1.
    destruct (PyStr.contains "gigabytes" over).
    + unfold API._consumed, API.quota_of, bind, ret, raise.
      repeat match goal with
             | |- context [match ?m !! ?k with _ => _ end] =>
                 destruct (m !! k)
             end; now intros [= _ <-].
    + destruct (PyStr.contains "backups" over).
      * unfold API._consumed, API.quota_of, bind, ret, raise.
        repeat match goal with
               | |- context [match ?m !! ?k with _ => _ end] =>
                   destruct (m !! k)
               end; now intros [= _ <-].
      * unfold ret at 1. exact IH.
Qed.

Lemma over_quota_handler_other v overs usages quotas w :
  (forall over, In over overs ->
     PyStr.contains "gigabytes" over = false /\
     PyStr.contains "backups" over = false) ->
  API.over_quota_handler v overs usages quotas w = (Ret tt, w).
Proof.
  intros H. apply for_each_skip. intros over Hin.
  destruct (H over Hin) as [-> ->]. reflexivity.
Qed.

Lemma reserve_step_reserved env ctx v w rs :
  quota_reserve env w (ctx_project_id ctx) 1 (v_size v) = Ret rs ->
  API.reserve_step env ctx v w =
    (Ret (Some rs), with_ledger (Quotas.mark Pending rs) w).
Proof.
  intros H. unfold API.reserve_step, try_except, bind, Quotas.reserve.
  rewrite H. reflexivity.
Qed.

Lemma reserve_step_over_quota env ctx v w overs usages quotas :
  quota_reserve env w (ctx_project_id ctx) 1 (v_size v) =
    Raise (OverQuota overs usages quotas) ->
  API.reserve_step env ctx v w =
    bind (API.over_quota_handler v overs usages quotas)
      (fun _ => ret None) w.
Proof.
  intros H. unfold API.reserve_step, try_except, Quotas.reserve.
  unfold bind at 1. rewrite H. reflexivity.
Qed.

Lemma reserve_step_frame env ctx v w r w1 :
  API.reserve_step env ctx v w = (r, w1) ->
  volumes w1 = volumes w /\ backups w1 = backups w /\
  services w1 = services w /\ events w1 = events w /\ now w1 = now w.
Proof.
  unfold API.reserve_step, try_except, Quotas.reserve. unfold bind at 1.
  destruct (quota_reserve env w (ctx_project_id ctx) 1 (v_size v))
    as [rs|e] eqn:Hq.
  - unfold ret. intros [= _ <-]. repeat split.
  - destruct e; try (unfold raise; intros [= _ <-]; repeat split).
    unfold bind.
    destruct (API.over_quota_handler v overs usages quotas w)
      as [[[]|e] w2] eqn:Hh;
      apply over_quota_handler_world in Hh as ->;
      unfold ret; intros [= _ <-]; repeat split.
Qed.

Lemma find_parent_run ctx incremental volume_id w :
  API.find_parent ctx incremental volume_id w =
  (API.resolve_parent (ctx_periodic ctx) incremental
     (volume_backups volume_id w), w).
Proof.
  unfold API.find_parent, bind, lift, API.resolve_parent.
  destruct (ctx_periodic ctx); [reflexivity|].
  destruct incremental; reflexivity.
Qed.

Lemma find_parent_frame ctx incremental volume_id w r w1 :
  API.find_parent ctx incremental volume_id w = (r, w1) -> w1 = w.
Proof. rewrite find_parent_run. now intros [= _ <-]. Qed.

Lemma volume_backups_frame volume_id w w1 :
  backups w1 = backups w ->
  volume_backups volume_id w1 = volume_backups volume_id w.
Proof. unfold volume_backups, Db.backup_rows. now intros ->. Qed.

(** The insertion step. *)

Lemma insert_step_Ret_inv env reservations options w id b w' :
  API.insert_step env reservations options w = (Ret (id, b), w') ->
  exists rs,
    reservations = Some rs /\
    backup_create_result env w = Ret id /\
    b = created_at_set (now w) options /\
    w' = with_ledger (Quotas.mark Committed rs) (with_backups (insert id b) w).
Proof.
  unfold API.insert_step, try_except_bound, Db.backup_create.
  destruct (backup_create_result env w) as [new_id|e] eqn:Hc.
  - destruct reservations as [rs|]; simpl.
    + unfold bind, Quotas.commit, ret.
      destruct (quota_commit_fault env _ rs) as [e|].
      * unfold save_and_reraise_exception, try_finally, bind, local, ret,
          Db.backup_destroy, Quotas.rollback, modify. simpl. discriminate.
      * intros [= <- <- <-]. exists rs. repeat split.
    + unfold bind, raise, save_and_reraise_exception, try_finally, bind,
        local, ret, raise, Db.backup_destroy, modify. simpl. discriminate.
  - unfold save_and_reraise_exception, try_finally, bind, local, raise.
    destruct reservations; simpl; discriminate.
Qed.

Lemma insert_step_create_fails env rs options w e :
  backup_create_result env w = Raise e ->
  API.insert_step env (Some rs) options w =
    (Raise (UnboundLocalError "backup"),
     with_ledger (Quotas.mark RolledBack rs) w).
Proof.
  intros H. unfold API.insert_step, try_except_bound, Db.backup_create.
  rewrite H. reflexivity.
Qed.

Lemma insert_step_commit_fails env rs options w id e :
  backup_create_result env w = Ret id ->
  quota_commit_fault env
    (with_backups (insert id (created_at_set (now w) options)) w) rs =
    Some e ->
  API.insert_step env (Some rs) options w =
    (Raise e,
     with_ledger (Quotas.mark RolledBack rs)
       (with_backups (delete id)
          (with_backups (insert id (created_at_set (now w) options)) w))).
Proof.
  intros Hc Hq. unfold API.insert_step, try_except_bound, Db.backup_create.
  rewrite Hc. simpl. unfold bind at 1. simpl.
  unfold bind at 1. unfold Quotas.commit. rewrite Hq. reflexivity.
Qed.

Lemma insert_step_unreserved env options w :
  exists w',
    API.insert_step env None options w =
      (Raise (UnboundLocalError "reservations"), w') /\
    volumes w' = volumes w /\ ledger w' = ledger w /\
    events w' = events w /\ backups w' ⊆ backups w.
Proof.
  unfold API.insert_step, try_except_bound, Db.backup_create.
  destruct (backup_create_result env w) as [new_id|e] eqn:Hc.
  - eexists. split; [reflexivity|]. simpl. repeat split.
    rewrite delete_insert_eq. apply delete_subseteq.
  - eexists. split; [reflexivity|]. repeat split. simpl. done.
Qed.

Lemma volume_update_run volume_id vals w v :
  volumes w !! volume_id = Some v ->
  Db.volume_update volume_id vals w =
    (Ret (volume_apply vals v),
     with_volumes (insert volume_id (volume_apply vals v)) w).
Proof. intros H. unfold Db.volume_update. now rewrite H. Qed.

Lemma backup_update_run backup_id vals w b :
  backups w !! backup_id = Some b ->
  Db.backup_update backup_id vals w =
    (Ret (backup_apply vals b),
     with_backups (insert backup_id (backup_apply vals b)) w).
Proof. intros H. unfold Db.backup_update. now rewrite H. Qed.

Lemma resolve_parent_raises periodic incremental rows e :
  API.resolve_parent periodic incremental rows = Raise e ->
  e = InvalidBackup "The parent backup is creating.".
Proof.
  unfold API.resolve_parent, API.parent_of.
  destruct (if periodic then _ else _) as [[id bk]|]; [|discriminate].
  destruct (String.eqb _ _); [discriminate|].
  destruct (String.eqb _ _); [|discriminate]. now intros [= <-].
Qed.

Lemma create_reserved env ctx name description volume_id container
    incremental w v rs parent :
  accepted env volume_id v w ->
  quota_reserve env w (ctx_project_id ctx) 1 (v_size v) = Ret rs ->
  API.resolve_parent (ctx_periodic ctx) incremental
    (volume_backups volume_id w) = Ret parent ->
  API.create env ctx name description volume_id container incremental w =
  bind (API.insert_step env (Some rs)
          (API.create_options ctx name
             (API.tagged_description (ctx_periodic ctx) description)
             volume_id container parent
             (extract_host env (v_host v) LevelHost)))
       (fun backup =>
          RpcApi.create_backup (b_host backup.2) backup.1 volume_id ;;;
          ret backup)
       (world_at_insertion volume_id v rs w).
Proof.
  intros Hacc Hq Hp. rewrite (create_accepted _ _ _ _ _ _ _ _ _ Hacc).
  rewrite (bind_Ret _ _ _ _ _ (reserve_step_reserved _ _ _ _ _ Hq)).
  unfold create_from_reservation.
  erewrite bind_Ret; cycle 1.
  { rewrite find_parent_run.
    rewrite (volume_backups_frame volume_id w) by reflexivity.
    rewrite Hp. reflexivity. }
  erewrite bind_Ret; cycle 1.
  { apply volume_update_run. destruct Hacc as (Hv & _). exact Hv. }
  reflexivity.
Qed.

(** *** Chain resolution (claim C1) *)

Lemma create_records_parent env ctx name description volume_id container
    incremental w id b w' :
  API.create env ctx name description volume_id container incremental w =
    (Ret (id, b), w') ->
  API.resolve_parent (ctx_periodic ctx) incremental
    (volume_backups volume_id w) = Ret (b_parent_id b).
Proof.
  intros H. destruct (create_Ret_accepted _ _ _ _ _ _ _ _ _ _ H) as [v Hacc].
  rewrite (create_accepted _ _ _ _ _ _ _ _ _ Hacc) in H.
  apply bind_Ret_inv in H as (rsv & w1 & Hres & H).
  apply reserve_step_frame in Hres as (_ & Hbs & _).
  unfold create_from_reservation in H.
  apply bind_Ret_inv in H as (parent & w2 & Hfind & H).
  rewrite find_parent_run in Hfind.
  rewrite (volume_backups_frame _ _ _ Hbs) in Hfind.
  injection Hfind as Hfind <-. rewrite Hfind.
  apply bind_Ret_inv in H as (v' & w3 & _ & H).
  apply bind_Ret_inv in H as ([id' b'] & w4 & Hins & H).
  apply insert_step_Ret_inv in Hins as (rs & _ & _ & Hb & _).
  apply bind_Ret_inv in H as ([] & w5 & _ & H).
  injection H as <- <- _. subst b'. reflexivity.
Qed.

Lemma create_parent_creating env ctx name description volume_id container
    incremental w v rs e :
  accepted env volume_id v w ->
  quota_reserve env w (ctx_project_id ctx) 1 (v_size v) = Ret rs ->
  API.resolve_parent (ctx_periodic ctx) incremental
    (volume_backups volume_id w) = Raise e ->
  API.create env ctx name description volume_id container incremental w =
    (Raise e, with_ledger (Quotas.mark Pending rs) w).
Proof.
  intros Hacc Hq Hp. rewrite (create_accepted _ _ _ _ _ _ _ _ _ Hacc).
  rewrite (bind_Ret _ _ _ _ _ (reserve_step_reserved _ _ _ _ _ Hq)).
  unfold create_from_reservation. apply bind_Raise.
  rewrite find_parent_run.
  rewrite (volume_backups_frame volume_id w) by reflexivity.
  now rewrite Hp.
Qed.

Lemma insert_step_succeeds env rs options w id :
  backup_create_result env w = Ret id ->
  quota_commit_fault env
    (with_backups (insert id (created_at_set (now w) options)) w) rs = None ->
  API.insert_step env (Some rs) options w =
    (Ret (id, created_at_set (now w) options),
     with_ledger (Quotas.mark Committed rs)
       (with_backups (insert id (created_at_set (now w) options)) w)).
Proof.
  intros Hc Hq. unfold API.insert_step, try_except_bound, Db.backup_create.
  rewrite Hc. unfold bind, local, ret, Quotas.commit. rewrite Hq. reflexivity.
Qed.

(** The run of a call of [create] in which every step succeeds. *)
Lemma create_run env ctx name description volume_id container incremental w v
    rs parent id :
  accepted env volume_id v w ->
  quota_reserve env w (ctx_project_id ctx) 1 (v_size v) = Ret rs ->
  API.resolve_parent (ctx_periodic ctx) incremental
    (volume_backups volume_id w) = Ret parent ->
  backup_create_result env (world_at_insertion volume_id v rs w) = Ret id ->
  quota_commit_fault env
    (with_backups
       (insert id
          (created_row env ctx name description volume_id container parent v
             (now w)))
       (world_at_insertion volume_id v rs w)) rs = None ->
  API.create env ctx name description volume_id container incremental w =
    (Ret (id,
          created_row env ctx name description volume_id container parent v
            (now w)),
     with_event
       (EvRpc (mkMsg Cast (Some (extract_host env (v_host v) LevelHost))
                 (ArgsCreateBackup id)))
       (with_ledger (Quotas.mark Committed rs)
          (with_backups
             (insert id
                (created_row env ctx name description volume_id container
                   parent v (now w)))
             (world_at_insertion volume_id v rs w)))).
Proof.
  intros Hacc Hres Hpar Hcr Hcm.
  rewrite (create_reserved _ _ _ _ _ _ _ _ _ _ _ Hacc Hres Hpar).
  erewrite bind_Ret; cycle 1.
  { apply insert_step_succeeds; [exact Hcr|exact Hcm]. }
  reflexivity.
Qed.

(** C1. In [create], the parent of the new backup is resolved from the
    backups of the volume: for a periodic call or a call that is not
    incremental there is no parent; otherwise backups whose description
    carries the periodic tag are ignored and the candidate is a normal
    backup with the latest creation time; without a normal backup there
    is no parent; an [available] candidate becomes the parent, a
    [creating] one makes the call fail with [InvalidBackup], any other
    status gives no parent.  A backup returned by [create] records the
    resolved parent; the failure reaches the caller; and when the
    resolution gives a parent or none, and the checks, the reservation,
    the insertion and the commit succeed, [create] returns the new backup
    and has stored it with that parent. *)
Theorem create_parent_selection env ctx name description volume_id
    container incremental w :
  let rows := volume_backups volume_id w in
  let chosen := API.resolve_parent (ctx_periodic ctx) incremental rows in
  (ctx_periodic ctx = true \/ incremental = false -> chosen = Ret None) /\
  (ctx_periodic ctx = false -> incremental = true ->
   match normal_backups rows with
   | [] => chosen = Ret None
   | _ :: _ =>
       exists c, In c (normal_backups rows) /\
         (forall r, In r (normal_backups rows) ->
                    b_created_at r.2 <= b_created_at c.2) /\
         chosen = parent_for c
   end) /\
  (forall id b w',
     API.create env ctx name description volume_id container incremental w
       = (Ret (id, b), w') ->
     chosen = Ret (b_parent_id b)) /\
  (forall v rs e,
     accepted env volume_id v w ->
     quota_reserve env w (ctx_project_id ctx) 1 (v_size v) = Ret rs ->
     chosen = Raise e ->
     e = InvalidBackup "The parent backup is creating." /\
     exists w',
       API.create env ctx name description volume_id container incremental
         w = (Raise e, w')) /\
  (forall v rs parent id,
     accepted env volume_id v w ->
     quota_reserve env w (ctx_project_id ctx) 1 (v_size v) = Ret rs ->
     chosen = Ret parent ->
     backup_create_result env (world_at_insertion volume_id v rs w) =
       Ret id ->
     (forall w0, quota_commit_fault env w0 rs = None) ->
     exists b w',
       API.create env ctx name description volume_id container incremental
         w = (Ret (id, b), w') /\
       b_parent_id b = parent /\
       b_volume_id b = volume_id /\
       b_status b = "creating" /\
       backups w' !! id = Some b).
Proof.
  intros rows chosen.
  destruct (resolve_parent_spec (ctx_periodic ctx) incremental rows)
    as [Hfull Hinc].
  split; [exact Hfull|]. split; [exact Hinc|]. split; [|split].
  - intros id b w' H. eapply create_records_parent. exact H.
  - intros v rs e Hacc Hq He. split.
    + eapply resolve_parent_raises. exact He.
    + eexists. eapply create_parent_creating; eassumption.
  - intros v rs parent id Hacc Hq Hp Hcr Hcm. do 2 eexists. split.
    + apply (create_run env ctx name description volume_id container
               incremental w v rs parent id Hacc Hq Hp Hcr (Hcm _)).
    + repeat split. cbn [backups with_event with_ledger with_backups].
      apply lookup_insert_eq.
Qed.

(** *** Quota failures (claims C3 and C10) *)

Lemma for_each_skip_then {A} (skipped : list A) (x : A) (rest : list A)
    (body : A -> M unit) w r :
  (forall y, In y skipped -> body y w = (Ret tt, w)) ->
  body x w = (Raise r, w) ->
  for_each (skipped ++ x :: rest) body w = (Raise r, w).
Proof.
  intros Hskip Hx. induction skipped as [|y skipped IH]; simpl.
  - now apply bind_Raise.
  - rewrite (bind_Ret _ _ _ _ _ (Hskip y (or_introl eq_refl))).
    apply IH. intros z Hz. apply Hskip. now right.
Qed.

(** C3 as stated does not hold: an [OverQuota] that names another
    resource gives no typed error, and the volume is left
    [backing-up]. *)
Lemma over_quota_not_always_typed : ~ over_quota_always_typed.
Proof.
  intros H.
  destruct (H unknown_resource_env Sample.ctx None None "v1" None false
              one_volume (Sample.volume "available" 10 None [] "lvm")
              ["volumes"] ∅ ∅) as (e & Hty & Hrun).
  - repeat split; vm_compute; reflexivity.
  - reflexivity.
  - vm_compute in Hrun. injection Hrun as He _. subst e.
    destruct Hty as [(? & ? & ? & Hty) | (? & Hty)]; discriminate Hty.
Qed.

(** C3, amended. When the reservation of [create] fails with [OverQuota],
    the overrun resources are examined in order and those whose name
    contains neither "gigabytes" nor "backups" are passed over.  When the
    first other one contains "gigabytes", the caller gets
    [VolumeBackupSizeExceedsAvailableQuota] with the size of the volume,
    the consumed amount and the limit of the backup capacity; when it
    contains "backups", the caller gets [BackupLimitExceeded] with the
    limit of that resource; this when the exception carries the usage and
    the limit of the resources that are read.  The world is unchanged: no
    backup row is created and the volume keeps its status. *)
Theorem create_over_quota env ctx name description volume_id container
    incremental w v skipped over rest usages quotas u q ug qg :
  accepted env volume_id v w ->
  quota_reserve env w (ctx_project_id ctx) 1 (v_size v) =
    Raise (OverQuota (skipped ++ over :: rest) usages quotas) ->
  (forall s, In s skipped ->
     PyStr.contains "gigabytes" s = false /\
     PyStr.contains "backups" s = false) ->
  PyStr.contains "gigabytes" over = true \/
  PyStr.contains "backups" over = true ->
  usages !! over = Some u ->
  quotas !! over = Some q ->
  (PyStr.contains "gigabytes" over = true ->
   usages !! "backup_gigabytes" = Some ug /\
   quotas !! "backup_gigabytes" = Some qg) ->
  API.create env ctx name description volume_id container incremental w =
    (Raise (if PyStr.contains "gigabytes" over
            then VolumeBackupSizeExceedsAvailableQuota (v_size v)
                   (reserved ug + in_use ug) qg
            else BackupLimitExceeded q), w).
Proof.
  intros Hacc Hq Hskip Hover Hu Hl Hg.
  rewrite (create_accepted _ _ _ _ _ _ _ _ _ Hacc).
  apply bind_Raise.
  rewrite (reserve_step_over_quota _ _ _ _ _ _ _ Hq).
  apply bind_Raise. unfold API.over_quota_handler.
  apply for_each_skip_then.
  - intros s Hs. destruct (Hskip s Hs) as [-> ->]. reflexivity.
  - destruct (PyStr.contains "gigabytes" over) eqn:Hgb.
    + destruct (Hg eq_refl) as [Hug Hqg].
      unfold API._consumed, API.quota_of, bind.
      rewrite Hu, Hl, Hug, Hqg. reflexivity.
    + destruct Hover as [Hover | Hover]; [discriminate|].
      rewrite Hover. unfold API._consumed, API.quota_of, bind.
      rewrite Hu, Hl. reflexivity.
Qed.

Lemma create_unreserved env ctx name description volume_id container
    incremental w v overs usages quotas :
  accepted env volume_id v w ->
  quota_reserve env w (ctx_project_id ctx) 1 (v_size v) =
    Raise (OverQuota overs usages quotas) ->
  (forall over, In over overs ->
     PyStr.contains "gigabytes" over = false /\
     PyStr.contains "backups" over = false) ->
  API.reserve_step env ctx v w = (Ret None, w) /\
  API.create env ctx name description volume_id container incremental w =
    create_from_reservation env ctx name description volume_id container
      incremental v None w.
Proof.
  intros Hacc Hq Hovers.
  assert (Hstep : API.reserve_step env ctx v w = (Ret None, w)).
  { rewrite (reserve_step_over_quota _ _ _ _ _ _ _ Hq).
    erewrite bind_Ret; [reflexivity|].
    apply over_quota_handler_other. exact Hovers. }
  split; [exact Hstep|].
  rewrite (create_accepted _ _ _ _ _ _ _ _ _ Hacc).
  apply bind_Ret. exact Hstep.
Qed.

Lemma create_from_nothing env ctx name description volume_id container
    incremental w v parent :
  volumes w !! volume_id = Some v ->
  API.resolve_parent (ctx_periodic ctx) incremental
    (volume_backups volume_id w) = Ret parent ->
  exists w',
    create_from_reservation env ctx name description volume_id container
      incremental v None w = (Raise (UnboundLocalError "reservations"), w') /\
    v_status <$> volumes w' !! volume_id = Some (Some "backing-up") /\
    backups w' ⊆ backups w /\
    ledger w' = ledger w /\
    events w' = events w.
Proof.
  intros Hv Hp. unfold create_from_reservation.
  erewrite bind_Ret; cycle 1.
  { rewrite find_parent_run, Hp. reflexivity. }
  erewrite bind_Ret; cycle 1.
  { apply volume_update_run. exact Hv. }
  match goal with
  | |- context [bind (API.insert_step env None ?o) _ ?w1] =>
      destruct (insert_step_unreserved env o w1)
        as (w' & Hins & Hvol & Hled & Hev & Hbs)
  end.
  exists w'. split; [apply bind_Raise; exact Hins|].
  rewrite Hvol, Hled, Hev. simpl. rewrite lookup_insert_eq.
  repeat split. exact Hbs.
Qed.

(** C10. When the reservation of [create] fails with an [OverQuota] whose
    overrun names contain neither "gigabytes" nor "backups", the handler
    completes without raising and leaves [reservations] unassigned; the
    call then returns neither a backup nor a typed quota error; and when
    chain resolution succeeds it marks the volume [backing-up], leaves no
    new backup row, queues no message, and ends in the [UnboundLocalError]
    raised by the read of [reservations]. *)
Theorem create_unclassified_over_quota env ctx name description volume_id
    container incremental w v overs usages quotas :
  accepted env volume_id v w ->
  quota_reserve env w (ctx_project_id ctx) 1 (v_size v) =
    Raise (OverQuota overs usages quotas) ->
  (forall over, In over overs ->
     PyStr.contains "gigabytes" over = false /\
     PyStr.contains "backups" over = false) ->
  API.reserve_step env ctx v w = (Ret None, w) /\
  (forall out w',
     API.create env ctx name description volume_id container incremental w
       = (out, w') ->
     (forall r, out <> Ret r) /\
     (forall requested consumed quota,
        out <> Raise (VolumeBackupSizeExceedsAvailableQuota requested
                        consumed quota)) /\
     (forall allowed, out <> Raise (BackupLimitExceeded allowed))) /\
  (forall parent,
     API.resolve_parent (ctx_periodic ctx) incremental
       (volume_backups volume_id w) = Ret parent ->
     exists w',
       API.create env ctx name description volume_id container incremental
         w = (Raise (UnboundLocalError "reservations"), w') /\
       v_status <$> volumes w' !! volume_id = Some (Some "backing-up") /\
       backups w' ⊆ backups w /\
       ledger w' = ledger w /\
       events w' = events w).
Proof.
  intros Hacc Hq Hovers.
  destruct (create_unreserved env ctx name description volume_id container
              incremental w v overs usages quotas Hacc Hq Hovers)
    as [Hstep Hcreate].
  assert (Hv : volumes w !! volume_id = Some v) by (destruct Hacc; assumption).
  split; [exact Hstep|]. split.
  - intros out w'. rewrite Hcreate.
    destruct (API.resolve_parent (ctx_periodic ctx) incremental
                (volume_backups volume_id w)) as [parent|e] eqn:Hp.
    + destruct (create_from_nothing env ctx name description volume_id
                  container incremental w v parent Hv Hp)
        as (w1 & -> & _).
      intros [= <- <-]. repeat split; intros; discriminate.
    + unfold create_from_reservation.
      erewrite bind_Raise; cycle 1.
      { rewrite find_parent_run, Hp. reflexivity. }
      apply resolve_parent_raises in Hp as ->.
      intros [= <- <-]. repeat split; intros; discriminate.
  - intros parent Hp. rewrite Hcreate.
    eapply create_from_nothing; eassumption.
Qed.

(** *** Failure of the insertion (claim C4) *)

(** C4. When the insertion of the backup row raises in [create], the
    handler reads the unassigned local [backup]: the reservation is
    rolled back, but the caller receives that [UnboundLocalError]
    instead of the exception of the insertion. *)
Theorem create_insert_failure_masks_exception env ctx name description
    volume_id container incremental w v rs parent e :
  accepted env volume_id v w ->
  quota_reserve env w (ctx_project_id ctx) 1 (v_size v) = Ret rs ->
  API.resolve_parent (ctx_periodic ctx) incremental
    (volume_backups volume_id w) = Ret parent ->
  backup_create_result env (world_at_insertion volume_id v rs w) = Raise e ->
  exists w',
    API.create env ctx name description volume_id container incremental w
      = (Raise (UnboundLocalError "backup"), w') /\
    backups w' = backups w /\
    (forall r, In r rs -> ledger w' !! r = Some RolledBack) /\
    events w' = events w.
Proof.
  intros Hacc Hq Hp Hc.
  rewrite (create_reserved _ _ _ _ _ _ _ _ _ _ _ Hacc Hq Hp).
  eexists. split.
  - apply bind_Raise. eapply insert_step_create_fails. exact Hc.
  - simpl. repeat split. intros r Hr. now apply mark_lookup.
Qed.

(** When the commit raises, the row is destroyed, the reservation is
    rolled back and the exception of the commit reaches the caller. *)
Lemma create_commit_failure env ctx name description volume_id container
    incremental w v rs parent id e :
  accepted env volume_id v w ->
  quota_reserve env w (ctx_project_id ctx) 1 (v_size v) = Ret rs ->
  API.resolve_parent (ctx_periodic ctx) incremental
    (volume_backups volume_id w) = Ret parent ->
  backup_create_result env (world_at_insertion volume_id v rs w) = Ret id ->
  (forall w0, quota_commit_fault env w0 rs = Some e) ->
  exists w',
    API.create env ctx name description volume_id container incremental w
      = (Raise e, w') /\
    backups w' !! id = None /\
    (forall r, In r rs -> ledger w' !! r = Some RolledBack) /\
    events w' = events w.
Proof.
  intros Hacc Hq Hp Hc Hf.
  rewrite (create_reserved _ _ _ _ _ _ _ _ _ _ _ Hacc Hq Hp).
  eexists. split.
  - apply bind_Raise. eapply insert_step_commit_fails; [exact Hc|apply Hf].
  - simpl. split; [apply lookup_delete_eq|]. split; [|reflexivity].
    intros r Hr. now apply mark_lookup.
Qed.

(** A backup returned by [create] was inserted and its reservation
    committed before the message to the executor was queued, which is
    the last effect of the call. *)
Lemma create_commits_before_dispatch env ctx name description volume_id
    container incremental w id b w' :
  API.create env ctx name description volume_id container incremental w =
    (Ret (id, b), w') ->
  exists rs w2,
    w' = with_event (EvRpc (mkMsg Cast (b_host b) (ArgsCreateBackup id))) w2 /\
    backups w2 !! id = Some b /\
    (forall r, In r rs -> ledger w2 !! r = Some Committed) /\
    events w2 = events w.
Proof.
  intros H. destruct (create_Ret_accepted _ _ _ _ _ _ _ _ _ _ H) as [v Hacc].
  rewrite (create_accepted _ _ _ _ _ _ _ _ _ Hacc) in H.
  apply bind_Ret_inv in H as (rsv & w1 & Hres & H).
  apply reserve_step_frame in Hres as (_ & _ & _ & Hev1 & _).
  unfold create_from_reservation in H.
  apply bind_Ret_inv in H as (parent & w2 & Hfind & H).
  apply find_parent_frame in Hfind as ->.
  apply bind_Ret_inv in H as (v' & w3 & Hup & H).
  assert (Hev3 : events w3 = events w1).
  { unfold Db.volume_update in Hup.
    destruct (volumes w1 !! volume_id); [|discriminate].
    now injection Hup as _ <-. }
  apply bind_Ret_inv in H as ([id' b'] & w4 & Hins & H).
  apply insert_step_Ret_inv in Hins as (rs & _ & _ & Hb & Hw4).
  apply bind_Ret_inv in H as ([] & w5 & Hcast & H).
  injection H as <- <- <-.
  unfold RpcApi.create_backup, RpcApi.cast, modify in Hcast.
  injection Hcast as <-. simpl.
  exists rs, w4. split; [reflexivity|]. subst w4. simpl.
  split; [apply lookup_insert_eq|]. split.
  - intros r Hr. now apply mark_lookup.
  - congruence.
Qed.

(** *** The capacity check of [restore] (claim C6) *)

Lemma backup_get_run backup_id w b :
  backups w !! backup_id = Some b -> Db.backup_get backup_id w = (Ret b, w).
Proof. intros H. unfold Db.backup_get. now rewrite H. Qed.

Lemma volume_get_run volume_id w v :
  volumes w !! volume_id = Some v -> Db.volume_get volume_id w = (Ret v, w).
Proof. intros H. unfold Db.volume_get. now rewrite H. Qed.

Lemma check_attached_instances_off env v w :
  (forall a, In a (v_volume_attachment v) ->
             server_status env (instance_uuid a) = Ret "SHUTOFF") ->
  API.check_attached_instances env v w = (Ret tt, w).
Proof.
  intros H. apply for_each_skip. intros a Ha.
  unfold bind, lift. rewrite (H a Ha). reflexivity.
Qed.

(** C6. When the backup is larger than the target volume, [restore]
    fails with [InvalidVolume] and leaves the backup rows alone, but it
    has already overwritten the description of the volume with the
    status of the volume. *)
Theorem restore_too_small_overwrites_description env ctx backup_id volume_id
    fuel w b size v :
  backups w !! backup_id = Some b ->
  b_status b = "available" ->
  b_size b = Some size ->
  volumes w !! volume_id = Some v ->
  v_status v = Some "available" \/
  (v_status v = Some "in-use" /\
   forall a, In a (v_volume_attachment v) ->
             server_status env (instance_uuid a) = Ret "SHUTOFF") ->
  v_size v * 1024 < size ->
  exists w',
    API.restore env ctx backup_id (Some volume_id) fuel w =
      (Raise (InvalidVolume (too_small_message v size)), w') /\
    backups w' = backups w /\
    events w' = events w /\
    (volumes w' =
       <[volume_id := volume_set (VDisplayDescription (v_status v)) v]>
         (volumes w)).
Proof.
  intros Hb Hst Hsize Hv Hvst Hlt. eexists. split.
  - unfold API.restore, API.get.
    rewrite (bind_Ret _ _ _ _ _ (backup_get_run _ _ _ Hb)).
    rewrite Hst, Hsize. simpl.
    erewrite bind_Ret; cycle 1.
    { unfold API.volume_api_get.
      rewrite (bind_Ret _ _ _ _ _ (volume_get_run _ _ _ Hv)). reflexivity. }
    simpl.
    erewrite bind_Ret; cycle 1.
    { unfold status_is. destruct Hvst as [-> | [-> Hoff]].
      - reflexivity.
      - simpl. apply check_attached_instances_off. exact Hoff. }
    erewrite bind_Ret; cycle 1.
    { apply volume_update_run. exact Hv. }
    apply Z.ltb_lt in Hlt. rewrite Hlt. reflexivity.
  - repeat split.
Qed.

(** *** Dispatch of export and import (claim C9) *)

(** The import of the sample deployment is queued as a cast. *)
Lemma import_record_cast_example :
  events
    (API.import_record Sample.env Sample.ctx "swift" "url"
       (Sample.world [] [])).2 =
  [EvRpc (mkMsg Cast (Some "node1")
            (ArgsImportRecord "b-new" "swift" "url" []))].
Proof. vm_compute. reflexivity. Qed.

(** C9 as stated does not hold: the message of an import is not a call. *)
Lemma import_not_dispatched_by_call : ~ import_dispatched_by_call.
Proof.
  intros H. pose proof import_record_cast_example as Hev.
  destruct (API.import_record Sample.env Sample.ctx "swift" "url"
              (Sample.world [] [])) as [r w'] eqn:Hrun.
  specialize (H Sample.env Sample.ctx "swift" "url" _ _ _
                (mkMsg Cast (Some "node1")
                   (ArgsImportRecord "b-new" "swift" "url" [])) Hrun).
  simpl in Hev. rewrite Hev in H. simpl in H.
  assert (Cast = Call) as Heq; [|discriminate Heq].
  apply H; [now left | tauto].
Qed.

(** C9, amended. Export is a call: the orchestrator returns what the
    [export_record] method of the executor returns, run at the moment of
    the request.  Import is a cast: the orchestrator inserts the
    placeholder, queues the message for the last enabled host with the
    remaining hosts as failover list, and returns the placeholder in
    status [creating] without running anything on an executor. *)
Theorem export_is_call_import_is_cast :
  (forall A (remote : option string -> string -> M A) ctx backup_id w b,
     backups w !! backup_id = Some b ->
     b_status b = "available" ->
     API.export_record remote ctx backup_id w =
       remote (b_host b) backup_id
         (with_event
            (EvRpc (mkMsg Call (b_host b) (ArgsExportRecord backup_id))) w))
  /\
  (forall env ctx backup_service backup_url w first_host hosts id,
     API.pop (enabled_hosts w) = Some (first_host, hosts) ->
     backup_create_result env w = Ret id ->
     API.import_record env ctx backup_service backup_url w =
       (Ret (id, import_placeholder ctx (now w)),
        with_event
          (EvRpc (mkMsg Cast (Some first_host)
                    (ArgsImportRecord id backup_service backup_url hosts)))
          (with_backups (insert id (import_placeholder ctx (now w))) w))).
Proof.
  split.
  - intros A remote ctx backup_id w b Hb Hst.
    unfold API.export_record, API.get.
    rewrite (bind_Ret _ _ _ _ _ (backup_get_run _ _ _ Hb)).
    rewrite Hst. simpl.
    unfold RpcApi.export_record, RpcApi.call, bind, modify, ret.
    destruct (remote _ _ _) as [[a|e] w1]; reflexivity.
  - intros env ctx backup_service backup_url w first_host hosts id Hpop Hc.
    unfold API.import_record.
    erewrite bind_Ret; cycle 1.
    { unfold API._list_backup_services, bind, Db.service_get_all_by_topic,
        ret. reflexivity. }
    fold (enabled_hosts w). rewrite Hpop.
    erewrite bind_Ret; cycle 1.
    { unfold Db.backup_create. rewrite Hc. reflexivity. }
    reflexivity.
Qed.

Lemma export_is_call_import_is_cast_witness :
  API.import_record Sample.env Sample.ctx "swift" "url" (Sample.world [] []) =
    (Ret ("b-new", import_placeholder Sample.ctx 100),
     with_event
       (EvRpc (mkMsg Cast (Some "node1")
                 (ArgsImportRecord "b-new" "swift" "url" [])))
       (with_backups (insert "b-new" (import_placeholder Sample.ctx 100))
          (Sample.world [] []))).
Proof.
  apply (proj2 export_is_call_import_is_cast Sample.env Sample.ctx "swift"
           "url" (Sample.world [] []) "node1" [] "b-new");
    reflexivity.
Defined.

(** Export through the bus returns what the executor of the backup's
    host computes. *)
Lemma export_returns_executor_record executors env ctx backup_id w b host
    self :
  backups w !! backup_id = Some b ->
  b_status b = "available" ->
  b_host b = Some host ->
  executors host = Some self ->
  API.export_record (Bus.export_record_at executors env ctx) ctx backup_id w
  = Manager.export_record self env ctx backup_id
      (with_event
         (EvRpc (mkMsg Call (Some host) (ArgsExportRecord backup_id))) w).
Proof.
  intros Hb Hst Hhost Hex.
  unfold API.export_record, API.get.
  rewrite (bind_Ret _ _ _ _ _ (backup_get_run _ _ _ Hb)).
  rewrite Hst. simpl.
  unfold RpcApi.export_record, RpcApi.call, bind, modify, ret.
  unfold Bus.export_record_at. rewrite Hhost. simpl. rewrite Hex.
  destruct (Manager.export_record _ _ _ _ _) as [[a|e] w1]; reflexivity.
Qed.

(** *** Duplicate delivery of [create_backup] (claim C8) *)

Lemma get_volume_backend_some self h :
  mgr_volume_managers self <> [] ->
  exists backend, Manager._get_volume_backend self (Some h) false = Ret backend.
Proof.
  intros Hne. unfold Manager._get_volume_backend.
  destruct (PyStr.partition_at h) as [[hd sep] tl].
  destruct (_ && _); [eauto|].
  destruct (negb _); [|eauto].
  destruct (mgr_volume_managers self); [congruence|eauto].
Qed.

Lemma string_eqb_neq (s t : string) : s <> t -> String.eqb s t = false.
Proof. intros H. now apply String.eqb_neq. Qed.




(** ** Frame reasoning

    [preserves R m]: whatever [m] does, the world before and the world
    after are related by [R]. *)

Section Frames.

Variable R : World -> World -> Prop.
Hypothesis R_refl : forall w, R w w.
Hypothesis R_trans : forall w1 w2 w3, R w1 w2 -> R w2 w3 -> R w1 w3.

Lemma preserves_ret {A} (a : A) : preserves R (ret a).
Proof. intros w r w' [= _ <-]. apply R_refl. Qed.

Lemma preserves_raise {A} (e : exn) : preserves R (raise (A := A) e).
Proof. intros w r w' [= _ <-]. apply R_refl. Qed.

Lemma preserves_lift {A} (o : outcome A) : preserves R (lift o).
Proof. intros w r w' [= _ <-]. apply R_refl. Qed.

Lemma preserves_local {A} name (v : option A) : preserves R (local name v).
Proof. destruct v; [apply preserves_ret | apply preserves_raise]. Qed.

Lemma preserves_bind {A B} (m : M A) (k : A -> M B) :
  preserves R m -> (forall a, preserves R (k a)) -> preserves R (bind m k).
Proof.
  intros Hm Hk w r w'. unfold bind.
  destruct (m w) as [[a|e] w1] eqn:Hrun.
  - intros H. eapply R_trans; [eapply Hm | eapply Hk]; eassumption.
  - intros [= _ <-]. eapply Hm. eassumption.
Qed.

Lemma preserves_try_except {A} (body : M A) (handler : exn -> M A) :
  preserves R body -> (forall e, preserves R (handler e)) ->
  preserves R (try_except body handler).
Proof.
  intros Hm Hk w r w'. unfold try_except.
  destruct (body w) as [[a|e] w1] eqn:Hrun.
  - intros [= _ <-]. eapply Hm. eassumption.
  - intros H. eapply R_trans; [eapply Hm | eapply Hk]; eassumption.
Qed.

Lemma preserves_save_and_reraise {A} (saved : exn) (body : M unit) :
  preserves R body ->
  preserves R (save_and_reraise_exception (A := A) saved body).
Proof.
  intros Hm w r w'. unfold save_and_reraise_exception.
  destruct (body w) as [[a|e] w1] eqn:Hrun;
    intros [= _ <-]; eapply Hm; eassumption.
Qed.

Lemma preserves_for_each {A} (xs : list A) (body : A -> M unit) :
  (forall x, In x xs -> preserves R (body x)) ->
  preserves R (for_each xs body).
Proof.
  induction xs as [|x xs IH]; intros H; simpl.
  - apply preserves_ret.
  - apply preserves_bind; [apply H; now left|].
    intros _. apply IH. intros y Hy. apply H. now right.
Qed.

Lemma preserves_modify (f : World -> World) :
  (forall w, R w (f w)) -> preserves R (modify f).
Proof. intros H w r w' [= _ <-]. apply H. Qed.

End Frames.

Lemma backups_but_refl k w : backups_but k w w.
Proof. split; [reflexivity | intros; reflexivity]. Qed.

Lemma backups_but_trans k w1 w2 w3 :
  backups_but k w1 w2 -> backups_but k w2 w3 -> backups_but k w1 w3.
Proof.
  intros [Hv1 Hb1] [Hv2 Hb2]. split; [congruence|].
  intros k' Hk. rewrite Hb2, Hb1 by exact Hk. reflexivity.
Qed.

Lemma volumes_but_refl k w : volumes_but k w w.
Proof. repeat split; auto. Qed.

Lemma volumes_but_trans k w1 w2 w3 :
  volumes_but k w1 w2 -> volumes_but k w2 w3 -> volumes_but k w1 w3.
Proof.
  intros (Hb1 & Hv1 & Hs1) (Hb2 & Hv2 & Hs2). split; [congruence|]. split.
  - intros k' Hk. rewrite Hv2, Hv1 by exact Hk. reflexivity.
  - auto.
Qed.

Lemma backup_update_backups_but k vals :
  preserves (backups_but k) (Db.backup_update k vals).
Proof.
  intros w r w'. unfold Db.backup_update.
  destruct (backups w !! k); intros [= _ <-]; [|apply backups_but_refl].
  split; [reflexivity|]. intros k' Hk. simpl.
  now rewrite lookup_insert_ne.
Qed.

Lemma backup_destroy_backups_but k :
  preserves (backups_but k) (Db.backup_destroy k).
Proof.
  intros w r w' [= _ <-]. split; [reflexivity|]. intros k' Hk. simpl.
  now rewrite lookup_delete_ne.
Qed.

Lemma backup_get_preserves R (R_refl : forall w, R w w) k :
  preserves R (Db.backup_get k).
Proof.
  intros w r w'. unfold Db.backup_get.
  destruct (backups w !! k); intros [= _ <-]; apply R_refl.
Qed.

Lemma volume_get_preserves R (R_refl : forall w, R w w) k :
  preserves R (Db.volume_get k).
Proof.
  intros w r w'. unfold Db.volume_get.
  destruct (volumes w !! k); intros [= _ <-]; apply R_refl.
Qed.

Lemma reserve_backups_but env k project_id n g :
  preserves (backups_but k) (Quotas.reserve env project_id n g).
Proof.
  intros w r w'. unfold Quotas.reserve.
  destruct (quota_reserve env w project_id n g); intros [= _ <-];
    split; simpl; auto.
Qed.

Lemma commit_backups_but env k rs :
  preserves (backups_but k) (Quotas.commit env rs).
Proof.
  intros w r w'. unfold Quotas.commit.
  destruct (quota_commit_fault env w rs); intros [= _ <-];
    split; simpl; auto.
Qed.

Lemma event_backups_but k e : preserves (backups_but k) (modify (with_event e)).
Proof. apply preserves_modify. intros w. split; simpl; auto. Qed.

Ltac frame_backups k :=
  repeat first
    [ apply (preserves_ret _ (backups_but_refl k))
    | apply (preserves_raise _ (backups_but_refl k))
    | apply (preserves_lift _ (backups_but_refl k))
    | apply backup_update_backups_but
    | apply backup_destroy_backups_but
    | apply (backup_get_preserves _ (backups_but_refl k))
    | apply (volume_get_preserves _ (backups_but_refl k))
    | apply reserve_backups_but
    | apply commit_backups_but
    | apply event_backups_but
    | apply (preserves_save_and_reraise _ (backups_but_trans k))
    | apply (preserves_bind _ (backups_but_trans k)); [|intros ?]
    | apply (preserves_try_except _ (backups_but_trans k)); [|intros ?]
    | match goal with
      | |- preserves _ (if ?c then _ else _) => destruct c
      | |- preserves _ (match ?x with _ => _ end) => destruct x
      end ].

Lemma delete_backup_backups_but self env ctx k :
  preserves (backups_but k) (Manager.delete_backup self env ctx k).
Proof.
  unfold Manager.delete_backup, Manager.require_own_driver,
    Manager.require_driver_initialized.
  frame_backups k.
Qed.

(** *** The start-up sweep (claim C5) *)

Lemma preserves_weaken {A} (R R' : World -> World -> Prop) (m : M A) :
  (forall w w', R w w' -> R' w w') -> preserves R m -> preserves R' m.
Proof. intros H Hm w r w' Hrun. apply H. eapply Hm. eassumption. Qed.

Lemma volume_update_volumes_but k vals :
  preserves (volumes_but k) (Db.volume_update k vals).
Proof.
  intros w r w'. unfold Db.volume_update.
  destruct (volumes w !! k); intros [= _ <-]; [|apply volumes_but_refl].
  split; [reflexivity|]. split.
  - intros k' Hk. simpl. now rewrite lookup_insert_ne.
  - intros _. simpl. rewrite lookup_insert_eq. eauto.
Qed.

Lemma event_volumes_but k e : preserves (volumes_but k) (modify (with_event e)).
Proof. apply preserves_modify. intros w. repeat split; simpl; auto. Qed.

Lemma detach_orphans_volumes_but self env backend k attachments :
  detach_keeps_records env ->
  preserves (volumes_but k)
    (Manager.detach_orphans self env backend k attachments).
Proof.
  intros Hd. unfold Manager.detach_orphans.
  apply (preserves_bind _ (volumes_but_trans k));
    [apply (preserves_lift _ (volumes_but_refl k))|].
  intros mgr.
  apply (preserves_for_each _ (volumes_but_refl k) (volumes_but_trans k)).
  intros a _. destruct (_ && _).
  - apply (preserves_bind _ (volumes_but_trans k));
      [apply event_volumes_but | intros _; apply Hd].
  - apply (preserves_ret _ (volumes_but_refl k)).
Qed.

Lemma sweep_volume_volumes_but self env row :
  detach_keeps_records env ->
  preserves (volumes_but row.1) (Manager.sweep_volume self env row).
Proof.
  intros Hd. unfold Manager.sweep_volume.
  repeat first
    [ apply (preserves_ret _ (volumes_but_refl row.1))
    | apply (preserves_lift _ (volumes_but_refl row.1))
    | apply volume_update_volumes_but
    | apply (detach_orphans_volumes_but _ _ _ _ _ Hd)
    | apply (preserves_bind _ (volumes_but_trans row.1)); [|intros ?]
    | match goal with
      | |- preserves _ (if ?c then _ else _) => destruct c
      | |- preserves _ (match ?x with _ => _ end) => destruct x
      end ].
Qed.

Lemma sweep_backup_backups_but self env ctxt row :
  preserves (backups_but row.1) (Manager.sweep_backup self env ctxt row).
Proof.
  unfold Manager.sweep_backup.
  repeat first
    [ apply (preserves_ret _ (backups_but_refl row.1))
    | apply backup_update_backups_but
    | apply delete_backup_backups_but
    | apply (preserves_bind _ (backups_but_trans row.1)); [|intros ?]
    | apply (preserves_try_except _ (backups_but_trans row.1)); [|intros ?]
    | match goal with
      | |- preserves _ (if ?c then _ else _) => destruct c
      end ].
Qed.

(** A loop over rows with distinct keys: what the body establishes for
    the row of [k] still holds at the end when the bodies of the other
    rows cannot undo it. *)
Lemma for_each_keyed {V} (R : string -> World -> World -> Prop)
    (P : World -> Prop) (body : string * V -> M unit)
    (rows : list (string * V)) k x w w' :
  NoDup (rows.*1) ->
  In (k, x) rows ->
  (forall row, preserves (R row.1) (body row)) ->
  (forall w1 w2, body (k, x) w1 = (Ret tt, w2) -> P w2) ->
  (forall k' w1 w2, k' <> k -> R k' w1 w2 -> P w1 -> P w2) ->
  for_each rows body w = (Ret tt, w') ->
  P w'.
Proof.
  intros Hnd Hin Hframe Hset Hkeep. revert w.
  assert (Hother : forall (l : list (string * V)) w1 w2,
             k ∉ l.*1 -> P w1 -> for_each l body w1 = (Ret tt, w2) -> P w2).
  { induction l as [|[k' y] l IH]; intros w1 w2 Hk HP Hrun.
    - injection Hrun as <-. exact HP.
    - simpl in Hrun. apply bind_Ret_inv in Hrun as ([] & w3 & Hstep & Hrun).
      rewrite fmap_cons, not_elem_of_cons in Hk. destruct Hk as [Hne Hk].
      eapply IH; [exact Hk| |exact Hrun].
      simpl in Hne.
      eapply (Hkeep k'); [congruence| |exact HP].
      apply (Hframe (k', y) _ _ _ Hstep). }
  induction rows as [|[k' y] rows IH]; intros w Hrun; [destruct Hin|].
  simpl in Hrun. apply bind_Ret_inv in Hrun as ([] & w3 & Hstep & Hrun).
  rewrite fmap_cons in Hnd. apply NoDup_cons in Hnd as [Hk' Hnd].
  destruct Hin as [Heq|Hin].
  - injection Heq as -> ->.
    eapply Hother; [exact Hk'| |exact Hrun]. eapply Hset. exact Hstep.
  - eapply IH; eassumption.
Qed.

Lemma NoDup_fst_filter {V} (f : string * V -> bool) (l : list (string * V)) :
  NoDup (l.*1) -> NoDup ((List.filter f l).*1).
Proof.
  induction l as [|r l IH]; intros Hnd; [exact Hnd|].
  rewrite fmap_cons in Hnd. apply NoDup_cons in Hnd as [Hr Hnd].
  simpl. destruct (f r); [|auto].
  rewrite fmap_cons. apply NoDup_cons. split; [|auto].
  intros Hin. apply Hr.
  apply list_elem_of_fmap in Hin as (r' & -> & Hin).
  apply list_elem_of_fmap. exists r'. split; [reflexivity|].
  apply list_elem_of_In. apply list_elem_of_In in Hin.
  apply List.filter_In in Hin. tauto.
Qed.

Lemma In_filter_rows {V} (f : string * V -> bool) (m : gmap string V) k x :
  m !! k = Some x -> f (k, x) = true ->
  In (k, x) (List.filter f (map_to_list m)).
Proof.
  intros Hm Hf. apply List.filter_In. split; [|exact Hf].
  apply list_elem_of_In. now apply elem_of_map_to_list.
Qed.

Lemma sweep_volume_restoring self env k v w w' :
  v_status v = Some "restoring-backup" ->
  v_volume_attachment v <> [] ->
  Manager.sweep_volume self env (k, v) w = (Ret tt, w') ->
  exists v', volumes w' !! k = Some v' /\
             v_status v' = Some "error_restoring".
Proof.
  intros Hst Hatt. unfold Manager.sweep_volume. simpl.
  intros H. apply bind_Ret_inv in H as (backend & w1 & _ & H).
  destruct (v_volume_attachment v) as [|a atts]; [congruence|].
  unfold status_is in H. rewrite Hst in H. simpl in H.
  apply bind_Ret_inv in H as ([] & w2 & _ & H).
  apply bind_Ret_inv in H as ([] & w3 & _ & H).
  apply bind_Ret_inv in H as (v' & w4 & Hup & H).
  inversion H; subst; clear H.
  unfold Db.volume_update in Hup.
  destruct (volumes w3 !! k) as [v0|]; [|discriminate].
  inversion Hup; subst; clear Hup. simpl. rewrite lookup_insert_eq. eauto.
Qed.

Lemma sweep_backup_creating self env ctxt k b w w' :
  b_status b = "creating" ->
  Manager.sweep_backup self env ctxt (k, b) w = (Ret tt, w') ->
  exists b', backups w' !! k = Some b' /\ b_status b' = "error" /\
             b_fail_reason b' = Some sweep_reason.
Proof.
  intros Hst. unfold Manager.sweep_backup. simpl. rewrite Hst. simpl.
  intros H. apply bind_Ret_inv in H as ([] & w1 & Hup & H).
  apply bind_Ret_inv in Hup as (b' & w2 & Hup & Hret).
  inversion Hret; subst; clear Hret.
  apply bind_Ret_inv in H as ([] & w3 & Hret & H).
  inversion Hret; subst; clear Hret. inversion H; subst; clear H.
  unfold Db.backup_update in Hup.
  destruct (backups w !! k) as [b0|]; [|discriminate].
  inversion Hup; subst; clear Hup. simpl. rewrite lookup_insert_eq. eauto.
Qed.

Lemma sample_detach_keeps_records : detach_keeps_records Sample.env.
Proof.
  intros backend volume_id attachment_id. simpl.
  apply (preserves_ret _ (volumes_but_refl volume_id)).
Qed.

(** C5 as stated does not hold: a volume in [restoring-backup] without
    any attachment keeps its status. *)
Lemma unattached_volume_not_swept : ~ sweep_resets_without_instance.
Proof.
  intros H.
  assert (Hrun : Manager.init_host Sample.executor Sample.env Sample.admin
                   crashed =
                 (Ret tt,
                  (Manager.init_host Sample.executor Sample.env Sample.admin
                     crashed).2))
    by (vm_compute; reflexivity).
  destruct (H Sample.executor Sample.env Sample.admin crashed _ "b1"
              interrupted_backup "v1" interrupted_volume
              sample_detach_keeps_records Hrun)
    as [_ (v' & Hv' & Hst)].
  - repeat split; reflexivity.
  - intros a [].
  - vm_compute in Hv'. injection Hv' as <-. discriminate Hst.
Qed.

Lemma volumes_but_lookup k k' w1 w2 :
  k' <> k -> volumes_but k' w1 w2 -> volumes w2 !! k = volumes w1 !! k.
Proof. intros Hne (_ & H & _). apply H. congruence. Qed.

Lemma backups_but_lookup k k' w1 w2 :
  k' <> k -> backups_but k' w1 w2 -> backups w2 !! k = backups w1 !! k.
Proof. intros Hne (_ & H). apply H. congruence. Qed.

Lemma same_backups_trans w1 w2 w3 :
  same_backups w1 w2 -> same_backups w2 w3 -> same_backups w1 w3.
Proof. unfold same_backups. congruence. Qed.

Lemma same_volumes_trans w1 w2 w3 :
  same_volumes w1 w2 -> same_volumes w2 w3 -> same_volumes w1 w3.
Proof. unfold same_volumes. congruence. Qed.

Lemma for_each_inv {A} (Q : World -> Prop) (body : A -> M unit)
    (xs : list A) :
  (forall x w1 r w2, In x xs -> Q w1 -> body x w1 = (r, w2) -> Q w2) ->
  forall w r w', Q w -> for_each xs body w = (r, w') -> Q w'.
Proof.
  induction xs as [|x xs IH]; intros Hbody w r w' HQ; simpl.
  - now intros [= _ <-].
  - unfold bind. destruct (body x w) as [[[]|e] w1] eqn:Hrun.
    + apply IH.
      * intros y w2 r2 w3 Hin. apply Hbody. now right.
      * eapply Hbody; [now left | exact HQ | exact Hrun].
    + intros [= _ <-]. eapply Hbody; [now left | exact HQ | exact Hrun].
Qed.

Lemma sweep_volume_settled self env k v w r w' :
  v_volume_attachment v = [] \/
  (v_status v <> Some "backing-up" /\ v_status v <> Some "restoring-backup") ->
  Manager.sweep_volume self env (k, v) w = (r, w') ->
  w' = w.
Proof.
  intros Hwhy. unfold Manager.sweep_volume, bind, lift. cbn [fst snd].
  destruct (Manager._get_volume_backend _ _ _) as [backend|e];
    [|now intros [= _ <-]].
  destruct Hwhy as [-> | [H1 H2]]; [now intros [= _ <-]|].
  destruct (v_volume_attachment v); [now intros [= _ <-]|].
  unfold status_is.
  rewrite (bool_decide_eq_false_2 _ H1), (bool_decide_eq_false_2 _ H2).
  now intros [= _ <-].
Qed.

(** What a completed sweep has done to an interrupted backup. *)
Lemma init_host_backup_reset self env ctxt w w' backup_id b volume_id v :
  detach_keeps_records env ->
  Manager.init_host self env ctxt w = (Ret tt, w') ->
  interrupted self env w backup_id b volume_id v ->
  backup_reset w' backup_id.
Proof.
  intros Hd Hrun (Hb & Hbh & Hbs & _).
  unfold Manager.init_host in Hrun.
  apply bind_Ret_inv in Hrun as (vrows & w0 & Hvrows & Hrun).
  unfold Db.volume_get_all_by_host in Hvrows.
  inversion Hvrows; subst vrows w0; clear Hvrows.
  apply bind_Ret_inv in Hrun as ([] & w1 & Hvols & Hrun).
  apply bind_Ret_inv in Hrun as (brows & w2 & Hbrows & Hrun).
  unfold Db.backup_get_all_by_host in Hbrows.
  inversion Hbrows; subst brows w2; clear Hbrows.
  assert (Hb1 : backups w1 = backups w).
  { eapply (preserves_for_each same_backups); [reflexivity
      | exact same_backups_trans | | exact Hvols].
    intros row _. eapply preserves_weaken;
      [|apply sweep_volume_volumes_but; exact Hd].
    intros ? ? (Heq & _). exact Heq. }
  eapply (for_each_keyed backups_but
            (fun w => backup_reset w backup_id));
    [| | | | |exact Hrun].
  - apply NoDup_fst_filter. apply NoDup_fst_map_to_list.
  - unfold Db.backup_rows. rewrite Hb1.
    apply In_filter_rows; [exact Hb|]. simpl.
    apply bool_decide_eq_true_2. exact Hbh.
  - intros row. apply sweep_backup_backups_but.
  - intros w3 w4. apply sweep_backup_creating. exact Hbs.
  - intros k' w3 w4 Hne Hframe. unfold backup_reset.
    rewrite (backups_but_lookup _ _ _ _ Hne Hframe). auto.
Qed.

(** What a completed sweep has done to an interrupted backup and to an
    interrupted restore onto a volume with attachments. *)
Lemma init_host_swept self env ctxt w w' backup_id b volume_id v :
  detach_keeps_records env ->
  Manager.init_host self env ctxt w = (Ret tt, w') ->
  interrupted self env w backup_id b volume_id v ->
  v_volume_attachment v <> [] ->
  swept w' backup_id volume_id.
Proof.
  intros Hd Hrun Hint Hatt. split.
  { exact (init_host_backup_reset self env ctxt w w' backup_id b volume_id v
             Hd Hrun Hint). }
  destruct Hint as (Hb & Hbh & Hbs & Hv & Hvh & Hvs).
  unfold Manager.init_host in Hrun.
  apply bind_Ret_inv in Hrun as (vrows & w0 & Hvrows & Hrun).
  unfold Db.volume_get_all_by_host in Hvrows.
  inversion Hvrows; subst vrows w0; clear Hvrows.
  apply bind_Ret_inv in Hrun as ([] & w1 & Hvols & Hrun).
  apply bind_Ret_inv in Hrun as (brows & w2 & Hbrows & Hrun).
  unfold Db.backup_get_all_by_host in Hbrows.
  inversion Hbrows; subst brows w2; clear Hbrows.
  assert (Hv2 : volumes w' = volumes w1).
  { eapply (preserves_for_each same_volumes); [reflexivity
      | exact same_volumes_trans | | exact Hrun].
    intros row _. eapply preserves_weaken;
      [|apply sweep_backup_backups_but].
    intros ? ? (Heq & _). exact Heq. }
  rewrite Hv2.
  eapply (for_each_keyed volumes_but
            (fun w => exists v', volumes w !! volume_id = Some v' /\
                        v_status v' = Some "error_restoring"));
    [| | | | |exact Hvols].
  - apply NoDup_fst_filter. apply NoDup_fst_map_to_list.
  - unfold Db.volume_rows.
    apply In_filter_rows; [exact Hv|]. simpl.
    apply bool_decide_eq_true_2. exact Hvh.
  - intros row. apply sweep_volume_volumes_but. exact Hd.
  - intros w3 w4. apply sweep_volume_restoring; assumption.
  - intros k' w3 w4 Hne Hframe.
    rewrite (volumes_but_lookup _ _ _ _ Hne Hframe). auto.
Qed.

(** A loop over rows with distinct keys completes when each body
    completes on a world that satisfies [Q] for its key, and the bodies
    of other rows keep [Q]. *)
Lemma for_each_keyed_total {V} (R : string -> World -> World -> Prop)
    (Q : string -> World -> Prop) (body : string * V -> M unit)
    (rows : list (string * V)) w :
  (forall row, preserves (R row.1) (body row)) ->
  (forall row w0, In row rows -> Q row.1 w0 ->
     exists w1, body row w0 = (Ret tt, w1)) ->
  (forall k k' w1 w2, k <> k' -> R k' w1 w2 -> Q k w1 -> Q k w2) ->
  NoDup (rows.*1) ->
  (forall row, In row rows -> Q row.1 w) ->
  exists w', for_each rows body w = (Ret tt, w').
Proof.
  intros Hframe Hbody Hkeep. revert w.
  induction rows as [|row rows IH]; intros w Hnd HQ.
  - exists w. reflexivity.
  - rewrite fmap_cons in Hnd. apply NoDup_cons in Hnd as [Hrow Hnd].
    destruct (Hbody row w (or_introl eq_refl) (HQ row (or_introl eq_refl)))
      as [w1 Hstep].
    destruct (IH (fun r w0 Hr => Hbody r w0 (or_intror Hr)) w1 Hnd)
      as [w' Hrest].
    + intros r Hr. eapply (Hkeep r.1 row.1).
      * intros Heq. apply Hrow. rewrite <- Heq.
        apply list_elem_of_fmap. exists r. split; [reflexivity|].
        now apply list_elem_of_In.
      * eapply Hframe. exact Hstep.
      * apply HQ. now right.
    + exists w'. simpl. rewrite (bind_Ret _ _ _ _ _ Hstep). exact Hrest.
Qed.

Lemma detach_orphans_completes self env backend k attachments w :
  detach_keeps_records env ->
  detach_succeeds env ->
  Manager._get_manager self (Some backend) = Ret backend ->
  exists w', Manager.detach_orphans self env backend k attachments w =
               (Ret tt, w') /\
             volumes_but k w w'.
Proof.
  intros Hd Hs Hmgr.
  assert (exists w', Manager.detach_orphans self env backend k attachments w
                     = (Ret tt, w')) as [w' Hrun].
  { unfold Manager.detach_orphans.
    erewrite bind_Ret; [|unfold lift; rewrite Hmgr; reflexivity].
    revert w. induction attachments as [|a atts IH]; intros w.
    - exists w. reflexivity.
    - simpl.
      assert (exists w1,
                (if bool_decide (attached_host a = Some (mgr_host self)) &&
                    bool_decide (instance_uuid a = None)
                 then modify (with_event (EvDetach k (att_id a))) ;;;
                      detach_volume env backend k (att_id a)
                 else ret tt) w = (Ret tt, w1)) as [w1 Hstep].
      { destruct (_ && _); [|exists w; reflexivity].
        destruct (Hs backend k (att_id a)
                    (with_event (EvDetach k (att_id a)) w)) as [w1 Hw1].
        exists w1. erewrite bind_Ret; [exact Hw1|reflexivity]. }
      destruct (IH w1) as [w' Hrest].
      exists w'. rewrite (bind_Ret _ _ _ _ _ Hstep). exact Hrest. }
  exists w'. split; [exact Hrun|].
  eapply detach_orphans_volumes_but; eassumption.
Qed.

Lemma sweep_volume_completes self env k v w :
  detach_keeps_records env ->
  detach_succeeds env ->
  backend_registered self ->
  extract_host env (v_host v) LevelBackend = mgr_host self ->
  is_Some (volumes w !! k) ->
  exists w', Manager.sweep_volume self env (k, v) w = (Ret tt, w').
Proof.
  intros Hd Hs (backend & Hbackend & Hmgr) Hhost Hk.
  unfold Manager.sweep_volume. cbn [fst snd]. rewrite Hhost.
  erewrite bind_Ret; [|unfold lift; rewrite Hbackend; reflexivity].
  destruct (v_volume_attachment v) as [|a atts]; [eexists; reflexivity|].
  assert (exists w1,
            (if status_is (v_status v) "backing-up"
             then Manager.detach_orphans self env backend k (a :: atts)
             else ret tt) w = (Ret tt, w1) /\ is_Some (volumes w1 !! k))
    as (w1 & Hstep1 & Hk1).
  { destruct (status_is _ _).
    - destruct (detach_orphans_completes self env backend k (a :: atts) w
                  Hd Hs Hmgr) as (w1 & Hrun & _ & _ & Hsome).
      exists w1. split; [exact Hrun|auto].
    - exists w. split; [reflexivity|exact Hk]. }
  rewrite (bind_Ret _ _ _ _ _ Hstep1).
  destruct (status_is (v_status v) "restoring-backup"); [|eexists; reflexivity].
  destruct (detach_orphans_completes self env backend k (a :: atts) w1
              Hd Hs Hmgr) as (w2 & Hrun & _ & _ & Hsome).
  rewrite (bind_Ret _ _ _ _ _ Hrun).
  destruct (Hsome Hk1) as [v2 Hv2].
  rewrite (bind_Ret _ _ _ _ _ (volume_update_run _ _ _ _ Hv2)).
  eexists. reflexivity.
Qed.

Lemma try_except_swallow (body : M unit) w :
  exists w', try_except body (fun _ => ret tt) w = (Ret tt, w').
Proof.
  unfold try_except. destruct (body w) as [[[]|e] w1]; eexists; reflexivity.
Qed.

Lemma sweep_backup_completes self env ctxt k b w :
  is_Some (backups w !! k) ->
  exists w', Manager.sweep_backup self env ctxt (k, b) w = (Ret tt, w').
Proof.
  intros [b0 Hb0]. unfold Manager.sweep_backup. cbn [fst snd].
  destruct (String.eqb_spec (b_status b) "creating") as [Hc|Hc].
  - rewrite Hc. simpl.
    erewrite bind_Ret; cycle 1.
    { erewrite bind_Ret; [reflexivity|]. apply backup_update_run. exact Hb0. }
    eexists. reflexivity.
  - erewrite bind_Ret; [|reflexivity].
    destruct (String.eqb_spec (b_status b) "restoring") as [Hr|Hr].
    + rewrite Hr. simpl.
      erewrite bind_Ret; cycle 1.
      { erewrite bind_Ret; [reflexivity|]. apply backup_update_run. exact Hb0. }
      eexists. reflexivity.
    + erewrite bind_Ret; [|reflexivity].
      destruct (String.eqb (b_status b) "deleting");
        [apply try_except_swallow | eexists; reflexivity].
Qed.

Lemma In_rows_lookup {V} (f : string * V -> bool) (m : gmap string V) row :
  In row (List.filter f (map_to_list m)) ->
  m !! row.1 = Some row.2 /\ f row = true.
Proof.
  intros Hin. apply List.filter_In in Hin as [Hin Hf]. split; [|exact Hf].
  apply list_elem_of_In in Hin. destruct row as [k x].
  now apply elem_of_map_to_list in Hin.
Qed.

(** The start-up sweep completes when the backend of the executor is
    registered and its volume manager does not refuse a detach. *)
Lemma init_host_completes self env ctxt w :
  detach_keeps_records env ->
  detach_succeeds env ->
  backend_registered self ->
  exists w', Manager.init_host self env ctxt w = (Ret tt, w').
Proof.
  intros Hd Hs Hreg. unfold Manager.init_host.
  erewrite bind_Ret; [|reflexivity].
  destruct (for_each_keyed_total volumes_but
              (fun k w0 => is_Some (volumes w0 !! k))
              (Manager.sweep_volume self env)
              (List.filter
                 (fun r => bool_decide
                    (extract_host env (v_host r.2) LevelBackend =
                     mgr_host self)) (Db.volume_rows w)) w)
    as [w1 Hvols].
  - intros row. apply sweep_volume_volumes_but. exact Hd.
  - intros [k v] w0 Hin HQ. apply In_rows_lookup in Hin as [_ Hf].
    apply bool_decide_eq_true_1 in Hf.
    apply sweep_volume_completes; assumption.
  - intros k k' w1 w2 Hne Hframe. simpl.
    now rewrite (volumes_but_lookup _ _ _ _ (not_eq_sym Hne) Hframe).
  - apply NoDup_fst_filter. apply NoDup_fst_map_to_list.
  - intros row Hin. apply In_rows_lookup in Hin as [Hin _].
    simpl. rewrite Hin. eauto.
  - rewrite (bind_Ret _ _ _ _ _ Hvols).
    erewrite bind_Ret; [|reflexivity].
    apply (for_each_keyed_total backups_but
             (fun k w0 => is_Some (backups w0 !! k))).
    + intros row. apply sweep_backup_backups_but.
    + intros [k b] w0 _ HQ. apply sweep_backup_completes. exact HQ.
    + intros k k' w2 w3 Hne Hframe. simpl.
      now rewrite (backups_but_lookup _ _ _ _ (not_eq_sym Hne) Hframe).
    + apply NoDup_fst_filter. apply NoDup_fst_map_to_list.
    + intros row Hin. apply In_rows_lookup in Hin as [Hin _].
      simpl. rewrite Hin. eauto.
Qed.

(** A volume without attachments is as it was after the sweep, whatever
    its status. *)
Lemma init_host_unattached_kept self env ctxt w r w' k v :
  detach_keeps_records env ->
  Manager.init_host self env ctxt w = (r, w') ->
  volumes w !! k = Some v ->
  v_volume_attachment v = [] ->
  volumes w' !! k = Some v.
Proof.
  intros Hd Hrun Hv Hno. unfold Manager.init_host in Hrun.
  unfold bind at 1, Db.volume_get_all_by_host in Hrun.
  set (vrows := List.filter _ (Db.volume_rows w)) in Hrun.
  unfold bind at 1 in Hrun.
  destruct (for_each vrows (Manager.sweep_volume self env) w)
    as [r1 w1] eqn:Hvols.
  assert (Hv1 : volumes w1 !! k = Some v).
  { apply (for_each_inv (fun w0 => volumes w0 !! k = Some v)
             (Manager.sweep_volume self env) vrows) with (w := w) (r := r1);
      [|exact Hv|exact Hvols].
    intros [k' v'] w2 r2 w3 Hin HQ Hbody.
    apply In_rows_lookup in Hin as [Hlook _]. simpl in Hlook.
    destruct (decide (k' = k)) as [->|Hne].
    - rewrite Hv in Hlook. inversion Hlook; subst v'.
      rewrite (sweep_volume_settled _ _ _ _ _ _ _ (or_introl Hno) Hbody).
      exact HQ.
    - pose proof (sweep_volume_volumes_but self env (k', v') Hd _ _ _ Hbody)
        as Hframe.
      now rewrite (volumes_but_lookup _ _ _ _ Hne Hframe). }
  destruct r1 as [[]|e1]; [|inversion Hrun; subst; exact Hv1].
  unfold bind at 1, Db.backup_get_all_by_host in Hrun.
  assert (Hv2 : volumes w' = volumes w1).
  { eapply (preserves_for_each same_volumes); [reflexivity
      | exact same_volumes_trans | | exact Hrun].
    intros row _. eapply preserves_weaken;
      [|apply sweep_backup_backups_but].
    intros ? ? (Heq & _). exact Heq. }
  now rewrite Hv2.
Qed.

(** C5, amended. On start-up, for a backup of the host found [creating]
    and a volume of the host found [restoring-backup], when a detach
    changes no other record than the volume it is given: a sweep that
    completes has set the backup to [error] with the reason of an
    incomplete backup; it has set the volume to [error_restoring] when
    the volume has at least one attachment, and has left the volume as it
    was when it has none; and the sweep does complete when the backend of
    the executor is registered and its volume manager does not refuse a
    detach. *)
Theorem init_host_resets_interrupted self env ctxt w backup_id b volume_id
    v :
  detach_keeps_records env ->
  interrupted self env w backup_id b volume_id v ->
  (forall w', Manager.init_host self env ctxt w = (Ret tt, w') ->
     backup_reset w' backup_id /\
     (v_volume_attachment v <> [] -> swept w' backup_id volume_id) /\
     (v_volume_attachment v = [] -> volumes w' !! volume_id = Some v)) /\
  (detach_succeeds env -> backend_registered self ->
   exists w', Manager.init_host self env ctxt w = (Ret tt, w')).
Proof.
  intros Hd Hint. split.
  - intros w' Hrun. split; [|split].
    + eapply init_host_backup_reset; eassumption.
    + intros Hatt. eapply init_host_swept; eassumption.
    + intros Hno. destruct Hint as (_ & _ & _ & Hv & _).
      eapply init_host_unattached_kept; eassumption.
  - intros Hs Hreg. apply init_host_completes; assumption.
Qed.

Lemma sample_detach_succeeds : detach_succeeds Sample.env.
Proof. intros backend volume_id attachment_id w. exists w. reflexivity. Qed.

Lemma sample_backend_registered : backend_registered Sample.executor.
Proof. exists "lvm". split; reflexivity. Qed.

Lemma init_host_resets_interrupted_witness :
  (exists w',
     Manager.init_host Sample.executor Sample.env Sample.admin
       crashed_attached = (Ret tt, w') /\
     swept w' "b1" "v1") /\
  (exists w',
     Manager.init_host Sample.executor Sample.env Sample.admin crashed =
       (Ret tt, w') /\
     backup_reset w' "b1" /\
     volumes w' !! "v1" = Some interrupted_volume).
Proof.
  split.
  - destruct (init_host_resets_interrupted Sample.executor Sample.env
                Sample.admin crashed_attached "b1" interrupted_backup "v1"
                (Sample.volume "restoring-backup" 10 (Some "available")
                   [mkAttachment "a1" (Some "node1@lvm") None] "lvm"))
      as [Hswept Hrun].
    + exact sample_detach_keeps_records.
    + repeat split; reflexivity.
    + destruct (Hrun sample_detach_succeeds sample_backend_registered)
        as [w' Hw']. exists w'. split; [exact Hw'|].
      destruct (Hswept w' Hw') as (_ & Hatt & _). apply Hatt. discriminate.
  - destruct (init_host_resets_interrupted Sample.executor Sample.env
                Sample.admin crashed "b1" interrupted_backup "v1"
                interrupted_volume)
      as [Hswept Hrun].
    + exact sample_detach_keeps_records.
    + repeat split; reflexivity.
    + destruct (Hrun sample_detach_succeeds sample_backend_registered)
        as [w' Hw']. exists w'. split; [exact Hw'|].
      destruct (Hswept w' Hw') as (Hb & _ & Hno).
      split; [exact Hb | apply Hno; reflexivity].
Defined.

(** *** The time-out of the instance-group backup (claim C2) *)


(** After the first sleep the first backup is [available] and the second
    is in [error], and so they are when the poll gives up. *)
Lemma ipsan_members_finished :
  b_status <$>
    backups
      (Manager.poll stuck_env group_kwargs (seq 0 MOST_BACKUP_RETRIES) None
         (poll_start Sample.executor stuck_env Sample.admin "vm1"
            group_kwargs "active" ipsan_group)).2 !! "b1" =
    Some "available" /\
  b_status <$>
    backups
      (Manager.poll stuck_env group_kwargs (seq 0 MOST_BACKUP_RETRIES) None
         (poll_start Sample.executor stuck_env Sample.admin "vm1"
            group_kwargs "active" ipsan_group)).2 !! "b2" =
    Some "error" /\
  b_status <$>
    backups
      (Manager.poll stuck_env group_kwargs (seq 0 MOST_BACKUP_RETRIES) None
         (poll_start Sample.executor stuck_env Sample.admin "vm1"
            group_kwargs "active" ipsan_group)).2 !! "b3" =
    Some "creating".
Proof. vm_compute. repeat split. Qed.


(** A group that completes just before the last attempt: the loop is
    left by [break] in its last iteration, and the members are marked as
    timed out all the same. *)
Lemma completion_in_last_attempt_times_out :
  (Manager.poll late_env group_kwargs (seq 0 MOST_BACKUP_RETRIES) None
     (poll_start Sample.executor late_env Sample.admin "vm1" group_kwargs
        "active" ipsan_group)).1 = Ret (Some 719%nat, true) /\
  b_status <$>
    backups
      (Manager.wait_for_backups late_env group_kwargs
         (poll_start Sample.executor late_env Sample.admin "vm1"
            group_kwargs "active" ipsan_group)).2 !! "b1"
    = Some "error" /\
  b_status <$>
    backups
      (Manager.wait_for_backups late_env group_kwargs
         (poll_start Sample.executor late_env Sample.admin "vm1"
            group_kwargs "active" ipsan_group)).2 !! "b3"
    = Some "error".
Proof. vm_compute. repeat split. Qed.

(** While a backup of an [ebs-data] volume is [creating] the poll is left
    by the [ValueError] of its log message: no member is marked and the
    guest stays frozen. *)
Lemma creating_ebs_member_leaves_poll :
  (Manager.create_instance_backup Sample.executor Sample.env Sample.admin
     "vm1" group_kwargs group).1 =
    Raise (ValueError Manager.malformed_format) /\
  events
    (Manager.create_instance_backup Sample.executor Sample.env Sample.admin
       "vm1" group_kwargs group).2 = [EvSync "vm1"; EvFreeze "vm1"] /\
  backups
    (Manager.create_instance_backup Sample.executor Sample.env Sample.admin
       "vm1" group_kwargs group).2 = backups group.
Proof. vm_compute. repeat split. Qed.

Lemma last_nonempty {A} (x : A) (l : list A) (d d' : A) :
  List.last (x :: l) d = List.last (x :: l) d'.
Proof.
  revert x. induction l as [|y l IH]; intros x; [reflexivity|].
  change (List.last (y :: l) d = List.last (y :: l) d'). apply IH.
Qed.


Lemma backup_update_timed_out id w :
  is_Some (backups w !! id) ->
  exists b' w',
    Db.backup_update id [BStatus "error"; BFailReason Manager.timeout_reason]
      w = (Ret b', w') /\
    volumes w' = volumes w /\ events w' = events w /\
    (exists b, backups w' !! id = Some b /\ timed_out b) /\
    (forall id', id' <> id -> backups w' !! id' = backups w !! id').
Proof.
  intros [b Hb]. unfold Db.backup_update. rewrite Hb. eexists. eexists.
  split; [reflexivity|]. simpl. repeat split.
  - rewrite lookup_insert_eq. eexists. split; [reflexivity|]. split; reflexivity.
  - intros id' Hne. now rewrite lookup_insert_ne.
Qed.

Lemma mark_timed_out_all kwargs w :
  (forall k, In k kwargs -> is_Some (backups w !! kw_backup_id k)) ->
  exists w',
    Manager.mark_timed_out kwargs w = (Ret tt, w') /\
    volumes w' = volumes w /\ events w' = events w /\
    (forall k, In k kwargs ->
       exists b, backups w' !! kw_backup_id k = Some b /\ timed_out b) /\
    (forall id, (forall k, In k kwargs -> kw_backup_id k <> id) ->
       backups w' !! id = backups w !! id) /\
    (forall id b, backups w !! id = Some b -> timed_out b ->
       exists b', backups w' !! id = Some b' /\ timed_out b').
Proof.
  unfold Manager.mark_timed_out. revert w.
  induction kwargs as [|k kwargs IH]; intros w Hex.
  - exists w. split; [reflexivity|]. repeat split.
    + intros k [].
    + intros id b Hb Ht. eauto.
  - destruct (backup_update_timed_out (kw_backup_id k) w
                (Hex k (or_introl eq_refl)))
      as (b1 & w1 & Hup & Hv1 & He1 & (bk & Hbk & Htk) & Hother).
    assert (Hex1 : forall k', In k' kwargs ->
                     is_Some (backups w1 !! kw_backup_id k')).
    { intros k' Hk'.
      destruct (decide (kw_backup_id k' = kw_backup_id k)) as [->|Hne].
      - rewrite Hbk. eauto.
      - rewrite Hother by exact Hne. apply Hex. now right. }
    destruct (IH w1 Hex1) as (w' & Hrun & Hv & He & Hall & Hrest & Hkeep).
    exists w'. split.
    { simpl. erewrite bind_Ret; [exact Hrun|].
      erewrite bind_Ret; [reflexivity|exact Hup]. }
    split; [congruence|]. split; [congruence|]. split; [|split].
    + intros k' [<-|Hk']; [|auto]. eapply Hkeep; eassumption.
    + intros id Hid. rewrite Hrest.
      * apply Hother. intros Heq. apply (Hid k); [now left|]. auto.
      * intros k' Hk'. apply Hid. now right.
    + intros id b Hb Ht.
      destruct (decide (id = kw_backup_id k)) as [->|Hne].
      * eapply Hkeep; eassumption.
      * eapply Hkeep; [|exact Ht]. rewrite Hother; assumption.
Qed.

Lemma freeze_run env instance st w :
  Manager.freeze env instance st w =
    (Ret tt, (Manager.freeze env instance st w).2).
Proof.
  unfold Manager.freeze. destruct (String.eqb st "active"); [|reflexivity].
  unfold bind, modify. destruct (sync_fails env instance); reflexivity.
Qed.

Lemma spawn_n_run self ctx id w :
  Manager.spawn_n self ctx id w =
    (Ret tt,
     with_pool (fun hub => (hub ++ [mkWorker self ctx id])%list) w).
Proof. reflexivity. Qed.

Lemma spawn_workers_run self ctx kwargs w :
  Manager.spawn_workers self ctx kwargs w =
    (Ret tt, (Manager.spawn_workers self ctx kwargs w).2).
Proof.
  unfold Manager.spawn_workers. revert w.
  induction kwargs as [|k kwargs IH]; intros w; [reflexivity|].
  cbn [for_each].
  rewrite (bind_Ret _ _ _ _ _ (spawn_n_run self ctx (kw_backup_id k) w)).
  apply IH.
Qed.

(** The workers are put on the hub and nothing else changes. *)
Lemma spawn_workers_records self ctx kwargs w :
  backups (Manager.spawn_workers self ctx kwargs w).2 = backups w /\
  volumes (Manager.spawn_workers self ctx kwargs w).2 = volumes w /\
  events (Manager.spawn_workers self ctx kwargs w).2 = events w /\
  pool (Manager.spawn_workers self ctx kwargs w).2 =
    (pool w ++
     List.map (fun k => mkWorker self ctx (kw_backup_id k)) kwargs)%list.
Proof.
  unfold Manager.spawn_workers. revert w.
  induction kwargs as [|k kwargs IH]; intros w.
  - cbn. rewrite app_nil_r. repeat split.
  - cbn [for_each].
    rewrite (bind_Ret _ _ _ _ _ (spawn_n_run self ctx (kw_backup_id k) w)).
    destruct (IH (with_pool
                    (fun hub =>
                       (hub ++ [mkWorker self ctx (kw_backup_id k)])%list) w))
      as (Hb & Hv & He & Hp).
    rewrite Hb, Hv, He, Hp. cbn [with_pool backups volumes events pool map].
    rewrite <- app_assoc. repeat split.
Qed.

(** The group backup up to the thaw: the poll runs on the world in which
    the guest is frozen and the workers are on the hub. *)
Lemma create_instance_backup_run self env ctx instance kwargs w st :
  vm_state env instance = Ret st ->
  Manager.create_instance_backup self env ctx instance kwargs w =
    (Manager.wait_for_backups env kwargs ;;;
     Manager.thaw_guest env instance st)
      (poll_start self env ctx instance kwargs st w).
Proof.
  intros Hst. unfold Manager.create_instance_backup, poll_start.
  erewrite bind_Ret; [|unfold lift; rewrite Hst; reflexivity].
  rewrite (bind_Ret _ _ _ _ _ (freeze_run _ _ _ _)).
  rewrite (bind_Ret _ _ _ _ _ (spawn_workers_run _ _ _ _)).
  reflexivity.
Qed.



(** *** The active marker across repeated restores (claim C7) *)

(** After one restore the restored backup is the only marked one. *)
Lemma one_restore_marks_one :
  (restore_cycle "b1" two_backups).1 = Ret tt /\
  b_display_description <$> backups (restore_cycle "b1" two_backups).2 !! "b1"
    = Some (Some ("nightly" ++ MAGICSTR)) /\
  carries_active_marker <$> backups (restore_cycle "b1" two_backups).2 !! "b2"
    = Some false.
Proof. vm_compute. repeat split. Qed.

(** C7. Three successful restores onto the same volume, of [b1], of [b1]
    again and of [b2]: the second restore leaves two markers on [b1], the
    third strips only one of them, and both backups of the volume carry
    the active marker at the end. *)
Theorem repeated_restore_leaves_two_markers :
  (three_restores two_backups).1 = Ret tt /\
  b_display_description <$> backups (three_restores two_backups).2 !! "b1" =
    Some (Some ("nightly" ++ MAGICSTR)) /\
  b_display_description <$> backups (three_restores two_backups).2 !! "b2" =
    Some (Some ("weekly" ++ MAGICSTR)) /\
  carries_active_marker <$> backups (three_restores two_backups).2 !! "b1" =
    Some true /\
  carries_active_marker <$> backups (three_restores two_backups).2 !! "b2" =
    Some true.
Proof. vm_compute. repeat split. Qed.

(** What the bookkeeping does guarantee. *)

Lemma substring_skip (d m : string) (n : nat) :
  String.substring (String.length d) n (d ++ m) = String.substring 0 n m.
Proof. induction d as [|c d IH]; [reflexivity | exact IH]. Qed.

Lemma length_append (d m : string) :
  String.length (d ++ m) = (String.length d + String.length m)%nat.
Proof. induction d as [|c d IH]; simpl; [reflexivity | now rewrite IH]. Qed.

Lemma last6_marker (d : string) : PyStr.last6 (d ++ MAGICSTR) = MAGICSTR.
Proof.
  unfold PyStr.last6. rewrite length_append.
  replace (String.length d + String.length MAGICSTR - 6)%nat
    with (String.length d) by (simpl; lia).
  rewrite substring_skip. reflexivity.
Qed.

Lemma substring_prefix (d m : string) :
  String.substring 0 (String.length d) (d ++ m) = d.
Proof.
  induction d as [|c d IH]; simpl; [destruct m; reflexivity|].
  now rewrite IH.
Qed.

Lemma drop_last6_marker (d : string) : PyStr.drop_last6 (d ++ MAGICSTR) = d.
Proof.
  unfold PyStr.drop_last6. rewrite length_append.
  replace (String.length d + String.length MAGICSTR - 6)%nat
    with (String.length d) by (simpl; lia).
  apply substring_prefix.
Qed.

Lemma truthy_marker (d : string) : PyStr.truthy (Some (d ++ MAGICSTR)) = true.
Proof. destruct d; reflexivity. Qed.

Lemma strip_loop_body_run k bk w :
  backups w !! k = Some bk ->
  (match b_display_description bk with
   | Some description =>
       if PyStr.truthy (Some description) then
         if String.eqb (PyStr.last6 description) MAGICSTR then
           _ <- Db.backup_update k
                  [BDisplayDescription (PyStr.drop_last6 description)] ;;
           ret tt
         else ret tt
       else ret tt
   | None => ret tt
   end) w =
  (Ret tt, with_backups (insert k (strip_marker bk)) w).
Proof.
  intros Hk. unfold strip_marker.
  assert (Hid : with_backups (insert k bk) w = w).
  { destruct w. unfold with_backups. simpl in *. f_equal.
    now apply insert_id. }
  destruct (b_display_description bk) as [d|];
    [|cbv beta iota; now rewrite Hid].
  destruct (PyStr.truthy (Some d)); [|cbn [andb]; now rewrite Hid].
  destruct (String.eqb (PyStr.last6 d) MAGICSTR);
    [|cbn [andb]; now rewrite Hid].
  cbn [andb]. erewrite bind_Ret; cycle 1.
  { apply backup_update_run. exact Hk. }
  reflexivity.
Qed.

(** The loop of the bookkeeping strips one marker from every row it was
    given, provided the rows are those of the store. *)
Lemma strip_loop_run (rows : list (string * Backup)) w :
  NoDup (rows.*1) ->
  (forall r, In r rows -> backups w !! r.1 = Some r.2) ->
  exists w',
    for_each rows (fun bak =>
      match b_display_description bak.2 with
      | Some description =>
          if PyStr.truthy (Some description) then
            if String.eqb (PyStr.last6 description) MAGICSTR then
              _ <- Db.backup_update bak.1
                     [BDisplayDescription (PyStr.drop_last6 description)] ;;
              ret tt
            else ret tt
          else ret tt
      | None => ret tt
      end) w = (Ret tt, w') /\
    volumes w' = volumes w /\
    (forall r, In r rows -> backups w' !! r.1 = Some (strip_marker r.2)) /\
    (forall k, k ∉ rows.*1 -> backups w' !! k = backups w !! k).
Proof.
  revert w. induction rows as [|[k bk] rows IH]; intros w Hnd Hrows.
  - exists w. split; [reflexivity|]. split; [reflexivity|].
    split; [intros r []|reflexivity].
  - rewrite fmap_cons in Hnd. apply NoDup_cons in Hnd as [Hk Hnd].
    pose proof (strip_loop_body_run k bk w
                  (Hrows (k, bk) (or_introl eq_refl))) as Hstep.
    assert (Hne : forall r, In r rows -> r.1 <> k).
    { intros r Hr Heq. apply Hk. simpl. rewrite <- Heq.
      apply list_elem_of_fmap. exists r. split; [reflexivity|].
      now apply list_elem_of_In. }
    destruct (IH (with_backups (insert k (strip_marker bk)) w) Hnd)
      as (w' & Hrun & Hvol & Hin & Hout).
    { intros r Hr. simpl. rewrite lookup_insert_ne by (apply not_eq_sym; auto).
      apply Hrows. now right. }
    exists w'. split.
    { simpl for_each. erewrite bind_Ret; [exact Hrun|exact Hstep]. }
    split; [rewrite Hvol; reflexivity|]. split.
    + intros r [<-|Hr]; [|auto].
      simpl. rewrite Hout by exact Hk. simpl. apply lookup_insert_eq.
    + intros k' Hk'. rewrite fmap_cons, not_elem_of_cons in Hk'.
      destruct Hk' as [Hk'1 Hk'2]. rewrite Hout by exact Hk'2.
      simpl. now rewrite lookup_insert_ne by (apply not_eq_sym; exact Hk'1).
Qed.

(** The rows read by the bookkeeping. *)
Lemma visible_rows_run ctx volume_id w :
  (if ctx_is_admin ctx then Db.backup_get_all volume_id
   else Db.backup_get_all_by_project (ctx_project_id ctx) volume_id) w =
  (Ret (List.filter (visible ctx volume_id) (Db.backup_rows w)), w).
Proof.
  unfold visible. destruct (ctx_is_admin ctx); reflexivity.
Qed.

(** The bookkeeping of a restore, when the row it was handed is the
    current one: the restored backup ends with its description followed
    by one marker, and every other backup it reads has lost one trailing
    marker; backups it does not read keep their rows. *)
Lemma mark_active_run ctx backup_id volume_id backup w b0 :
  backups w !! backup_id = Some b0 ->
  b_display_description backup = b_display_description b0 ->
  exists w',
    Manager.mark_active ctx backup_id volume_id backup w = (Ret tt, w') /\
    volumes w' = volumes w /\
    (exists b', backups w' !! backup_id = Some b' /\
       b_display_description b' = Some (description_text b0 ++ MAGICSTR)) /\
    (forall k bk, k <> backup_id -> backups w !! k = Some bk ->
       backups w' !! k =
         Some (if visible ctx volume_id (k, bk) then strip_marker bk
               else bk)) /\
    (forall k, backups w !! k = None -> backups w' !! k = None).
Proof.
  intros Hb0 Hdesc. unfold Manager.mark_active.
  rewrite (bind_Ret _ _ _ _ _ (visible_rows_run ctx volume_id w)).
  destruct (strip_loop_run
              (List.filter (visible ctx volume_id) (Db.backup_rows w)) w)
    as (w1 & Hloop & Hvol1 & Hin & Hout).
  { apply NoDup_fst_filter. apply NoDup_fst_map_to_list. }
  { intros r Hr. apply In_rows_lookup in Hr. tauto. }
  rewrite (bind_Ret _ _ _ _ _ Hloop).
  assert (Hrow : forall k bk, backups w !! k = Some bk ->
            backups w1 !! k =
              Some (if visible ctx volume_id (k, bk) then strip_marker bk
                    else bk)).
  { intros k bk Hk. destruct (visible ctx volume_id (k, bk)) eqn:Hvis.
    - apply (Hin (k, bk)). apply In_filter_rows; assumption.
    - rewrite Hout; [exact Hk|]. intros Hmem.
      apply list_elem_of_fmap in Hmem as ([k' bk'] & Heq & Hmem).
      simpl in Heq. subst k'. apply list_elem_of_In in Hmem.
      apply In_rows_lookup in Hmem as [Hlook Hvis']. simpl in Hlook.
      rewrite Hk in Hlook. injection Hlook as <-. congruence. }
  pose proof (Hrow backup_id b0 Hb0) as Hcur.
  set (b1 := if visible ctx volume_id (backup_id, b0) then strip_marker b0
             else b0) in Hcur.
  set (text := match b_display_description backup with
               | Some d => if PyStr.truthy (Some d) then d ++ MAGICSTR
                           else MAGICSTR
               | None => MAGICSTR
               end).
  assert (Htext : text = description_text b0 ++ MAGICSTR).
  { unfold text, description_text. rewrite Hdesc.
    destruct (b_display_description b0) as [d|]; [|reflexivity].
    destruct d; reflexivity. }
  exists (with_backups
            (insert backup_id (backup_set (BDisplayDescription text) b1)) w1).
  split.
  { unfold text. destruct (b_display_description backup) as [d|].
    - destruct (PyStr.truthy (Some d));
        (erewrite bind_Ret; cycle 1;
         [apply backup_update_run; exact Hcur | reflexivity]).
    - erewrite bind_Ret; cycle 1;
        [apply backup_update_run; exact Hcur | reflexivity]. }
  split; [exact Hvol1|]. split; [|split].
  - eexists. split; [apply lookup_insert_eq|]. simpl. now rewrite Htext.
  - intros k bk Hne Hk. simpl.
    rewrite lookup_insert_ne by (apply not_eq_sym; exact Hne).
    apply Hrow. exact Hk.
  - intros k Hk. simpl.
    assert (k <> backup_id) as Hne by congruence.
    rewrite lookup_insert_ne by (apply not_eq_sym; exact Hne).
    rewrite Hout; [exact Hk|]. intros Hmem.
    apply list_elem_of_fmap in Hmem as ([k' bk'] & Heq & Hmem).
    simpl in Heq. subst k'. apply list_elem_of_In in Hmem.
    apply In_rows_lookup in Hmem as [Hlook _]. simpl in Hlook. congruence.
Qed.

(** When no other backup read by the bookkeeping carried more than one
    marker, the restored backup is the only marked one among them
    afterwards; and it carries a single marker when it was not marked
    before. *)
Lemma mark_active_unique ctx backup_id volume_id backup w b0 :
  backups w !! backup_id = Some b0 ->
  b_display_description backup = b_display_description b0 ->
  (forall k bk, k <> backup_id -> backups w !! k = Some bk ->
     visible ctx volume_id (k, bk) = true ->
     carries_active_marker (strip_marker bk) = false) ->
  exists w',
    Manager.mark_active ctx backup_id volume_id backup w = (Ret tt, w') /\
    (carries_active_marker <$> backups w' !! backup_id = Some true) /\
    (forall k bk', k <> backup_id -> backups w' !! k = Some bk' ->
       visible ctx volume_id (k, bk') = true ->
       carries_active_marker bk' = false) /\
    (carries_active_marker b0 = false ->
     exists b', backups w' !! backup_id = Some b' /\
                carries_active_marker (strip_marker b') = false).
Proof.
  intros Hb0 Hdesc Hsingle.
  destruct (mark_active_run ctx backup_id volume_id backup w b0 Hb0 Hdesc)
    as (w' & Hrun & _ & (b' & Hb' & Hd') & Hothers & Hnone).
  exists w'. split; [exact Hrun|]. split; [|split].
  - rewrite Hb'. simpl. unfold carries_active_marker. rewrite Hd'.
    rewrite last6_marker. reflexivity.
  - intros k bk' Hne Hk Hvis.
    destruct (backups w !! k) as [bk|] eqn:Hold.
    + rewrite (Hothers k bk Hne Hold) in Hk. injection Hk as <-.
      destruct (visible ctx volume_id (k, bk)) eqn:Hv.
      * apply (Hsingle k bk Hne Hold Hv).
      * congruence.
    + rewrite (Hnone k Hold) in Hk. discriminate Hk.
  - intros Hclean. exists b'. split; [exact Hb'|].
    unfold strip_marker. rewrite Hd', truthy_marker, last6_marker. simpl.
    unfold carries_active_marker. simpl. rewrite drop_last6_marker.
    revert Hclean. unfold carries_active_marker, description_text.
    destruct (b_display_description b0); [auto|reflexivity].
Qed.

(** *** The properties of [create] and [restore] at concrete calls *)

Lemma create_parent_selection_witness :
  exists b w',
    API.create Sample.env Sample.ctx (Some "second") None "v1" None true
      chain = (Ret ("b-new", b), w') /\
    b_parent_id b = Some "b1" /\
    b_volume_id b = "v1" /\
    b_status b = "creating" /\
    backups w' !! "b-new" = Some b.
Proof.
  destruct (create_parent_selection Sample.env Sample.ctx (Some "second")
              None "v1" None true chain) as (_ & _ & _ & _ & Hrun).
  apply (Hrun (Sample.volume "available" 10 None [] "lvm") ["r1"]
           (Some "b1") "b-new").
  - repeat split; vm_compute; reflexivity.
  - reflexivity.
  - vm_compute; reflexivity.
  - reflexivity.
  - reflexivity.
Defined.

Lemma create_unclassified_over_quota_witness :
  exists w',
    API.create unknown_resource_env Sample.ctx None None "v1" None false
      one_volume = (Raise (UnboundLocalError "reservations"), w') /\
    v_status <$> volumes w' !! "v1" = Some (Some "backing-up").
Proof.
  destruct (create_unclassified_over_quota unknown_resource_env Sample.ctx
              None None "v1" None false one_volume
              (Sample.volume "available" 10 None [] "lvm") ["volumes"] ∅ ∅)
    as (_ & _ & Hrun).
  - repeat split; reflexivity.
  - reflexivity.
  - intros over [<-|[]]. split; reflexivity.
  - destruct (Hrun None eq_refl) as (w' & Hcreate & Hst & _).
    exists w'. split; assumption.
Defined.

Lemma create_insert_failure_masks_exception_witness :
  exists w',
    API.create failing_insert_env Sample.ctx None None "v1" None false
      one_volume = (Raise (UnboundLocalError "backup"), w') /\
    ledger w' !! "r1" = Some RolledBack.
Proof.
  destruct (create_insert_failure_masks_exception failing_insert_env
              Sample.ctx None None "v1" None false one_volume
              (Sample.volume "available" 10 None [] "lvm") ["r1"] None
              (Failure "db down"))
    as (w' & Hrun & _ & Hled & _).
  - repeat split; reflexivity.
  - reflexivity.
  - reflexivity.
  - reflexivity.
  - exists w'. split; [exact Hrun|]. apply Hled. now left.
Defined.

Lemma restore_too_small_overwrites_description_witness :
  exists w',
    API.restore Sample.env Sample.ctx "b1" (Some "v1") 0 too_small =
      (Raise (InvalidVolume (too_small_message small_volume 2048)), w') /\
    v_display_description <$> volumes too_small !! "v1" =
      Some (Some "my data") /\
    v_display_description <$> volumes w' !! "v1" = Some (Some "available").
Proof.
  destruct (restore_too_small_overwrites_description Sample.env Sample.ctx
              "b1" "v1" 0 too_small large_backup 2048 small_volume)
    as (w' & Hrun & _ & _ & Hvol).
  - reflexivity.
  - reflexivity.
  - reflexivity.
  - reflexivity.
  - left; reflexivity.
  - reflexivity.
  - exists w'. split; [exact Hrun|]. split; [reflexivity|].
    rewrite Hvol, lookup_insert_eq. reflexivity.
Defined.

Lemma create_over_quota_witness :
  API.create over_capacity_env Sample.ctx None None "v1" None false
    one_volume =
    (Raise (VolumeBackupSizeExceedsAvailableQuota 10 99 100), one_volume).
Proof.
  apply (create_over_quota over_capacity_env Sample.ctx None None "v1" None
           false one_volume (Sample.volume "available" 10 None [] "lvm")
           [] "backup_gigabytes" [] capacity_usages capacity_quotas
           (mkUsage 1 98) 100 (mkUsage 1 98) 100).
  - repeat split; reflexivity.
  - reflexivity.
  - intros s [].
  - left; reflexivity.
  - reflexivity.
  - reflexivity.
  - intros _. split; reflexivity.
Defined.

(** * Further properties of the orchestrator

    ** Creation of a backup ([API.create]) *)

Lemma service_enabled_run env v w :
  API._is_backup_service_enabled v (extract_host env (v_host v) LevelHost) w =
    (Ret (service_enabled env v w), w).
Proof. reflexivity. Qed.

(** X1. A call of [create] that does not pass the volume and service
    checks raises [VolumeNotFound], [InvalidVolume] or [ServiceNotFound]
    and leaves the world exactly as it was: nothing is reserved, written
    or sent. *)
Theorem create_rejected_unchanged env ctx name description volume_id container
    incremental w :
  (forall v, ~ accepted env volume_id v w) ->
  exists e,
    API.create env ctx name description volume_id container incremental w =
      (Raise e, w) /\
    (e = VolumeNotFound volume_id \/
     e = InvalidVolume "Volume to be backed up must be available" \/
     e = ServiceNotFound "cinder-backup").
Proof.
  intros Hno. unfold API.create, API.volume_api_get.
  destruct (volumes w !! volume_id) as [v|] eqn:Hv.
  - rewrite (bind_Ret _ _ w v w) by (unfold Db.volume_get; now rewrite Hv).
    destruct (status_is (v_status v) "available") eqn:Hst; cbn [negb].
    + rewrite (bind_Ret _ _ w _ w (service_enabled_run env v w)).
      destruct (service_enabled env v w) eqn:Hen; cbn [negb].
      * exfalso. apply (Hno v). repeat split; try assumption.
        unfold status_is in Hst. now apply bool_decide_eq_true in Hst.
      * eexists. split; [reflexivity|]. right; right; reflexivity.
    + eexists. split; [reflexivity|]. right; left; reflexivity.
  - rewrite (bind_Raise _ _ w (VolumeNotFound volume_id) w)
      by (unfold Db.volume_get; now rewrite Hv).
    eexists. split; [reflexivity|]. left; reflexivity.
Qed.

Lemma create_rejected_unchanged_witness :
  exists e,
    API.create Sample.env Sample.ctx None None "v9" None false one_volume =
      (Raise e, one_volume) /\
    (e = VolumeNotFound "v9" \/
     e = InvalidVolume "Volume to be backed up must be available" \/
     e = ServiceNotFound "cinder-backup").
Proof.
  apply (create_rejected_unchanged Sample.env Sample.ctx None None "v9" None
           false one_volume).
  intros v (Hv & _). vm_compute in Hv. discriminate.
Defined.

(** X2. When the volume is available, a backup service is enabled on its
    host, the quota engine grants the reservation, the chain resolution
    does not fail, and the insertion and the commit succeed, [create]
    returns the new row (status [creating], size 0, host of the volume,
    the resolved parent) and has done exactly this: the volume is
    [backing-up], the row is stored, the reservations are committed and
    one [create_backup] cast is queued for the host of the volume. *)
Theorem create_success env ctx name description volume_id container
    incremental w v rs parent id :
  accepted env volume_id v w ->
  quota_reserve env w (ctx_project_id ctx) 1 (v_size v) = Ret rs ->
  API.resolve_parent (ctx_periodic ctx) incremental
    (volume_backups volume_id w) = Ret parent ->
  backup_create_result env (world_at_insertion volume_id v rs w) = Ret id ->
  (forall w0, quota_commit_fault env w0 rs = None) ->
  exists row w',
    API.create env ctx name description volume_id container incremental w =
      (Ret (id, row), w') /\
    b_status row = "creating" /\
    b_size row = Some 0 /\
    b_parent_id row = parent /\
    b_host row = Some (extract_host env (v_host v) LevelHost) /\
    (volumes w' =
       <[volume_id := volume_set (VStatus (Some "backing-up")) v]>
         (volumes w)) /\
    (backups w' = <[id := row]> (backups w)) /\
    (forall r, In r rs -> ledger w' !! r = Some Committed) /\
    events w' =
      (events w ++
       [EvRpc (mkMsg Cast (Some (extract_host env (v_host v) LevelHost))
                 (ArgsCreateBackup id))])%list.
Proof.
  intros Hacc Hres Hpar Hcr Hcm. do 2 eexists. split.
  - apply (create_run env ctx name description volume_id container incremental
             w v rs parent id Hacc Hres Hpar Hcr (Hcm _)).
  - cbn [backups volumes ledger events with_event with_ledger with_backups
         with_volumes world_at_insertion].
    repeat split. intros r Hin. now apply mark_lookup.
Qed.

Lemma create_success_witness :
  exists row w',
    API.create Sample.env Sample.ctx (Some "n") (Some "d") "v1" None false
      one_volume = (Ret ("b-new", row), w') /\
    b_status row = "creating" /\
    b_size row = Some 0 /\
    b_parent_id row = None /\
    b_host row = Some "node1" /\
    (volumes w' =
       <[ "v1" := volume_set (VStatus (Some "backing-up"))
                    (Sample.volume "available" 10 None [] "lvm")]>
         (volumes one_volume)) /\
    (backups w' = <[ "b-new" := row]> (backups one_volume)) /\
    (forall r, In r ["r1"] -> ledger w' !! r = Some Committed) /\
    events w' =
      (events one_volume ++
       [EvRpc (mkMsg Cast (Some "node1") (ArgsCreateBackup "b-new"))])%list.
Proof.
  apply (create_success Sample.env Sample.ctx (Some "n") (Some "d") "v1" None
           false one_volume (Sample.volume "available" 10 None [] "lvm")
           ["r1"] None "b-new").
  - repeat split; vm_compute; reflexivity.
  - reflexivity.
  - vm_compute; reflexivity.
  - reflexivity.
  - reflexivity.
Defined.

Lemma prefix_append (p s : string) : String.prefix p (p ++ s) = true.
Proof.
  induction p as [|c p IH]; simpl.
  - destruct s; reflexivity.
  - destruct (ascii_dec c c); [exact IH|congruence].
Qed.

Lemma contains_prefix (p s : string) : PyStr.contains p (p ++ s) = true.
Proof.
  destruct p as [|c p]; simpl.
  - destruct s; reflexivity.
  - destruct (ascii_dec c c); [|congruence].
    rewrite prefix_append. reflexivity.
Qed.

Lemma tagged_description_periodic description :
  API.tagged_description true description =
    Some (PERIODICSTR ++ default EmptyString description).
Proof.
  destruct description as [d|]; simpl; [|reflexivity].
  destruct d; reflexivity.
Qed.

(** The row returned by [create] is the row stored. *)
Lemma create_Ret_row env ctx name description volume_id container incremental
    w id b w' :
  API.create env ctx name description volume_id container incremental w =
    (Ret (id, b), w') ->
  b_display_description b =
    API.tagged_description (ctx_periodic ctx) description /\
  b_status b = "creating" /\
  b_volume_id b = volume_id /\
  backups w' !! id = Some b.
Proof.
  intros H.
  destruct (create_commits_before_dispatch _ _ _ _ _ _ _ _ _ _ _ H)
    as (rs & w2 & -> & Hb & _ & _).
  destruct (create_Ret_accepted _ _ _ _ _ _ _ _ _ _ H) as (v & Hacc).
  rewrite (create_accepted _ _ _ _ _ _ _ _ _ Hacc) in H.
  apply bind_Ret_inv in H as (reservations & w1 & _ & H).
  unfold create_from_reservation in H.
  apply bind_Ret_inv in H as (parent & w3 & _ & H).
  apply bind_Ret_inv in H as (v' & w4 & _ & H).
  apply bind_Ret_inv in H as ([id' b'] & w5 & Hins & H).
  apply insert_step_Ret_inv in Hins as (rs' & _ & _ & Hrow & _).
  unfold RpcApi.create_backup, RpcApi.cast, bind, modify, ret in H.
  inversion H; subst. simpl. repeat split; exact Hb.
Qed.

(** X3. A backup created by a periodic request has no parent, its
    description is the periodic tag followed by the description given,
    and no later request takes it as the parent of a new backup: in
    whatever world the row is found with that description, whatever its
    status has become, a backup that [create] returns there names another
    parent or none. *)
Theorem periodic_backup_outside_chains env ctx name description volume_id
    container incremental w id b w' :
  ctx_periodic ctx = true ->
  API.create env ctx name description volume_id container incremental w =
    (Ret (id, b), w') ->
  b_parent_id b = None /\
  b_display_description b =
    Some (PERIODICSTR ++ default EmptyString description) /\
  forall later b_later env' ctx' name' description' volume_id' container'
         incremental' id' b' w'',
    backups later !! id = Some b_later ->
    b_display_description b_later = b_display_description b ->
    API.create env' ctx' name' description' volume_id' container'
      incremental' later = (Ret (id', b'), w'') ->
    b_parent_id b' <> Some id.
Proof.
  intros Hp H.
  pose proof (create_records_parent _ _ _ _ _ _ _ _ _ _ _ H) as Hpar.
  destruct (create_Ret_row _ _ _ _ _ _ _ _ _ _ _ H) as (Hd & _ & _ & Hb).
  rewrite Hp in Hpar, Hd. rewrite tagged_description_periodic in Hd.
  split; [|split].
  - destruct (resolve_parent_spec true incremental (volume_backups volume_id w))
      as [Hn _].
    rewrite (Hn (or_introl eq_refl)) in Hpar. now inversion Hpar.
  - exact Hd.
  - intros later b_later env' ctx' name' description' vid container'
      incremental' id' b' w'' Hlater Hsame Hcreate Hparent.
    pose proof (create_records_parent _ _ _ _ _ _ _ _ _ _ _ Hcreate) as Hres.
    rewrite Hparent in Hres.
    destruct (resolve_parent_spec (ctx_periodic ctx') incremental'
                (volume_backups vid later)) as [Hnone Hc].
    destruct (ctx_periodic ctx') eqn:Hper.
    { rewrite (Hnone (or_introl eq_refl)) in Hres. discriminate. }
    destruct incremental'.
    2:{ rewrite (Hnone (or_intror eq_refl)) in Hres. discriminate. }
    specialize (Hc eq_refl eq_refl).
    destruct (normal_backups (volume_backups vid later)) as [|x rest] eqn:Hnb.
    + rewrite Hc in Hres. discriminate.
    + destruct Hc as (c & Hin & _ & Hc). rewrite Hc in Hres.
      unfold parent_for in Hres.
      destruct (String.eqb (b_status c.2) "available"); cycle 1.
      { destruct (String.eqb (b_status c.2) "creating"); discriminate. }
      inversion Hres as [Hid]. rewrite <- Hnb in Hin.
      unfold normal_backups in Hin. apply List.filter_In in Hin as [Hin Htag].
      unfold volume_backups in Hin. apply List.filter_In in Hin as [Hin _].
      unfold Db.backup_rows in Hin. apply list_elem_of_In in Hin.
      destruct c as [k bk]. apply elem_of_map_to_list in Hin.
      simpl in *. subst k. rewrite Hlater in Hin. inversion Hin; subst bk.
      unfold carries_periodic_tag in Htag. rewrite Hsame, Hd in Htag.
      rewrite contains_prefix in Htag. discriminate.
Qed.

Lemma periodic_backup_outside_chains_witness :
  b_parent_id
    (created_at_set 100
       (API.create_options periodic_ctx None
          (API.tagged_description true (Some "nightly")) "v1" None None
          "node1")) = None /\
  b_status <$> backups periodic_done !! "b-new" = Some "available" /\
  exists b' w'',
    API.create next_env Sample.ctx (Some "second") None "v1" None true
      periodic_done = (Ret ("b-next", b'), w'') /\
    b_parent_id b' = Some "b1" /\
    b_parent_id b' <> Some "b-new".
Proof.
  destruct (periodic_backup_outside_chains Sample.env periodic_ctx None
              (Some "nightly") "v1" None true after_backup "b-new"
              (created_at_set 100
                 (API.create_options periodic_ctx None
                    (API.tagged_description true (Some "nightly")) "v1" None
                    None "node1"))
              (API.create Sample.env periodic_ctx None (Some "nightly") "v1"
                 None true after_backup).2 eq_refl)
    as (H1 & _ & H3).
  - vm_compute. reflexivity.
  - split; [exact H1|]. split; [vm_compute; reflexivity|].
    exists (created_at_set 100
              (API.create_options Sample.ctx (Some "second") None "v1" None
                 (Some "b1") "node1")).
    exists (API.create next_env Sample.ctx (Some "second") None "v1" None
              true periodic_done).2.
    split; [vm_compute; reflexivity|].
    split; [reflexivity|].
    destruct (backups periodic_done !! "b-new") as [later_row|] eqn:Hrow;
      [|vm_compute in Hrow; discriminate Hrow].
    apply (H3 periodic_done later_row next_env Sample.ctx (Some "second")
             None "v1" None true "b-next"
             (created_at_set 100
                (API.create_options Sample.ctx (Some "second") None "v1" None
                   (Some "b1") "node1"))
             (API.create next_env Sample.ctx (Some "second") None "v1" None
                true periodic_done).2).
    + exact Hrow.
    + vm_compute in Hrow. injection Hrow as <-. reflexivity.
    + vm_compute. reflexivity.
Defined.

(** X4. When a request for an incremental backup finds the latest normal
    backup of the volume still [creating], [create] raises
    [InvalidBackup] after the quota has been reserved: the volume, the
    backups and the bus are as before, and the reservations stay
    pending: they are neither committed nor rolled back. *)
Theorem create_parent_creating_keeps_reservation env ctx name description
    volume_id container w v rs pid p :
  accepted env volume_id v w ->
  quota_reserve env w (ctx_project_id ctx) 1 (v_size v) = Ret rs ->
  ctx_periodic ctx = false ->
  API.latest_normal_backup true (volume_backups volume_id w) = Some (pid, p) ->
  b_status p = "creating" ->
  exists w',
    API.create env ctx name description volume_id container true w =
      (Raise (InvalidBackup "The parent backup is creating."), w') /\
    volumes w' = volumes w /\
    backups w' = backups w /\
    events w' = events w /\
    (forall r, In r rs -> ledger w' !! r = Some Pending).
Proof.
  intros Hacc Hres Hp Hl Hst.
  assert (Hr : API.resolve_parent (ctx_periodic ctx) true
                 (volume_backups volume_id w) =
               Raise (InvalidBackup "The parent backup is creating.")).
  { unfold API.resolve_parent. rewrite Hp, Hl. unfold API.parent_of.
    rewrite Hst. reflexivity. }
  eexists. split.
  - apply (create_parent_creating _ _ _ _ _ _ _ _ _ _ _ Hacc Hres Hr).
  - simpl. repeat split; try reflexivity.
    intros r Hin. now apply mark_lookup.
Qed.

Lemma create_parent_creating_keeps_reservation_witness :
  exists w',
    API.create Sample.env Sample.ctx None None "v1" None true pending_parent =
      (Raise (InvalidBackup "The parent backup is creating."), w') /\
    volumes w' = volumes pending_parent /\
    backups w' = backups pending_parent /\
    events w' = events pending_parent /\
    (forall r, In r ["r1"] -> ledger w' !! r = Some Pending).
Proof.
  apply (create_parent_creating_keeps_reservation Sample.env Sample.ctx None
           None "v1" None pending_parent
           (Sample.volume "available" 10 None [] "lvm") ["r1"] "b1"
           (Sample.backup "v1" "creating" (Some 0) (Some "first") None 10)).
  - repeat split; vm_compute; reflexivity.
  - reflexivity.
  - reflexivity.
  - vm_compute; reflexivity.
  - reflexivity.
Defined.

(** X5. A request followed by the delivery of its message: when [create]
    succeeds and the executor of the host then runs [create_backup] with
    a driver that succeeds, the volume is [available] again and the
    backup is [available] with the size reported by the driver, the parent
    chosen by [create], and the host, service and availability zone of the
    executor. *)
Theorem create_round_trip self env ctx name description volume_id container
    incremental w v rs parent id backend driver res :
  accepted env volume_id v w ->
  quota_reserve env w (ctx_project_id ctx) 1 (v_size v) = Ret rs ->
  API.resolve_parent (ctx_periodic ctx) incremental
    (volume_backups volume_id w) = Ret parent ->
  backup_create_result env (world_at_insertion volume_id v rs w) = Ret id ->
  (forall w0, quota_commit_fault env w0 rs = None) ->
  Manager._get_volume_backend self
    (Some (extract_host env (v_host v) LevelBackend)) false = Ret backend ->
  Manager._get_driver self (Some backend) = Ret driver ->
  driver_initialized env driver = true ->
  (forall w0, drv_backup_volume env backend id w0 = (Ret (Some res), w0)) ->
  exists w',
    (backup <- API.create env ctx name description volume_id container
                 incremental ;;
     Manager.create_backup self env ctx backup.1) w = (Ret tt, w') /\
    volume_status w' volume_id = Some (Some "available") /\
    exists b',
      backups w' !! id = Some b' /\
      b_status b' = "available" /\
      b_size b' = res_size res /\
      b_parent_id b' = parent /\
      b_host b' = Some (mgr_host self) /\
      b_service b' = Some (Manager.driver_name self) /\
      b_availability_zone b' = Some (mgr_az self).
Proof.
  intros Hacc Hres Hpar Hcr Hcm Hbe Hdr Hinit Hdrv.
  rewrite (bind_Ret _ _ _ _ _
             (create_run env ctx name description volume_id container
                incremental w v rs parent id Hacc Hres Hpar Hcr (Hcm _))).
  cbn [fst].
  set (row := created_row env ctx name description volume_id container parent
                v (now w)).
  set (w1 := with_event _ _).
  assert (Hb1 : backups w1 !! id = Some row).
  { subst w1. simpl. apply lookup_insert_eq. }
  assert (Hv1 : volumes w1 !! volume_id =
                Some (volume_apply [VStatus (Some "backing-up")] v)).
  { subst w1. simpl. apply lookup_insert_eq. }
  unfold Manager.create_backup.
  rewrite (bind_Ret _ _ _ _ _ (backup_get_run _ _ _ Hb1)).
  change (b_volume_id row) with volume_id.
  rewrite (bind_Ret _ _ _ _ _ (volume_get_run _ _ _ Hv1)).
  change (v_host (volume_apply [VStatus (Some "backing-up")] v))
    with (v_host v).
  rewrite Hbe. rewrite (bind_Ret _ _ w1 backend w1) by reflexivity.
  rewrite (bind_Ret _ _ _ _ _ (backup_update_run _ _ _ _ Hb1)).
  change (status_is (v_status (volume_apply [VStatus (Some "backing-up")] v))
            "backing-up") with true.
  change (b_status row) with "creating".
  cbn [negb String.eqb Ascii.eqb Bool.eqb].
  erewrite bind_Ret; cycle 1.
  { unfold try_except. rewrite Hdr.
    rewrite (bind_Ret _ _ _ driver _) by reflexivity.
    unfold Manager.require_driver_initialized. rewrite Hinit.
    unfold bind at 1, ret at 1. unfold bind at 1, modify.
    rewrite (bind_Ret _ _ _ _ _ (Hdrv _)). reflexivity. }
  erewrite bind_Ret; cycle 1.
  { apply volume_update_run. simpl. exact Hv1. }
  erewrite bind_Ret; cycle 1.
  { apply backup_update_run. simpl. apply lookup_insert_eq. }
  eexists. split; [reflexivity|]. split.
  - unfold volume_status. simpl. rewrite lookup_insert_eq. reflexivity.
  - eexists. split; [simpl; apply lookup_insert_eq|].
    repeat split.
Qed.

Lemma create_round_trip_witness :
  exists w',
    (backup <- API.create Sample.env Sample.ctx None None "v1" None false ;;
     Manager.create_backup Sample.executor Sample.env Sample.ctx backup.1)
      one_volume = (Ret tt, w') /\
    volume_status w' "v1" = Some (Some "available") /\
    exists b',
      backups w' !! "b-new" = Some b' /\
      b_status b' = "available" /\
      b_size b' = Some 512 /\
      b_parent_id b' = None /\
      b_host b' = Some "node1@lvm" /\
      b_service b' = Some "cinder.backup.drivers.swift" /\
      b_availability_zone b' = Some "nova".
Proof.
  apply (create_round_trip Sample.executor Sample.env Sample.ctx None None
           "v1" None false one_volume
           (Sample.volume "available" 10 None [] "lvm") ["r1"] None "b-new"
           "lvm" "lvm" (mkBackupResult (Some 512) None)).
  - repeat split; vm_compute; reflexivity.
  - reflexivity.
  - vm_compute; reflexivity.
  - reflexivity.
  - reflexivity.
  - reflexivity.
  - reflexivity.
  - reflexivity.
  - reflexivity.
Defined.

(** ** Restore of a backup ([API.restore], [restore_backup]) *)

Lemma unchanged_refl w : unchanged w w.
Proof. reflexivity. Qed.

Lemma unchanged_trans w1 w2 w3 :
  unchanged w1 w2 -> unchanged w2 w3 -> unchanged w1 w3.
Proof. unfold unchanged. congruence. Qed.

Lemma check_attached_instances_unchanged env v :
  preserves unchanged (API.check_attached_instances env v).
Proof.
  unfold API.check_attached_instances.
  apply (preserves_for_each _ unchanged_refl unchanged_trans). intros a _.
  apply (preserves_bind _ unchanged_trans).
  - apply (preserves_lift _ unchanged_refl).
  - intros st. destruct (negb _).
    + apply (preserves_raise _ unchanged_refl).
    + apply (preserves_ret _ unchanged_refl).
Qed.

(** The run of a call of [restore] onto an existing volume that passes
    every check. *)
Lemma restore_run env ctx backup_id volume_id fuel w b size v :
  backups w !! backup_id = Some b ->
  b_status b = "available" ->
  b_size b = Some size ->
  volumes w !! volume_id = Some v ->
  v_status v = Some "available" \/
  (v_status v = Some "in-use" /\
   forall a, In a (v_volume_attachment v) ->
             server_status env (instance_uuid a) = Ret "SHUTOFF") ->
  size <= v_size v * 1024 ->
  API.restore env ctx backup_id (Some volume_id) fuel w =
    (Ret (backup_id, volume_id),
     with_event
       (EvRpc (mkMsg Cast (Some (extract_host env (v_host v) LevelHost))
                 (ArgsRestoreBackup backup_id volume_id)))
       (with_volumes
          (insert volume_id
             (volume_set (VStatus (Some "restoring-backup"))
                (volume_set (VDisplayDescription (v_status v)) v)))
          (with_backups
             (insert backup_id (backup_set (BStatus "restoring") b))
             (with_volumes
                (insert volume_id
                   (volume_set (VDisplayDescription (v_status v)) v))
                w)))).
Proof.
  intros Hb Hst Hsize Hv Hvst Hle.
  unfold API.restore, API.get.
  rewrite (bind_Ret _ _ _ _ _ (backup_get_run _ _ _ Hb)).
  rewrite Hst, Hsize. simpl.
  erewrite bind_Ret; cycle 1.
  { unfold API.volume_api_get.
    rewrite (bind_Ret _ _ _ _ _ (volume_get_run _ _ _ Hv)). reflexivity. }
  simpl.
  erewrite bind_Ret; cycle 1.
  { unfold status_is. destruct Hvst as [-> | [-> Hoff]].
    - reflexivity.
    - simpl. apply check_attached_instances_off. exact Hoff. }
  erewrite bind_Ret; cycle 1.
  { apply volume_update_run. exact Hv. }
  assert (Hnlt : Z.ltb (v_size v * 1024) size = false)
    by (apply Z.ltb_ge; exact Hle).
  rewrite Hnlt.
  erewrite bind_Ret; cycle 1.
  { apply backup_update_run. simpl. exact Hb. }
  erewrite bind_Ret; cycle 1.
  { apply volume_update_run. simpl. apply lookup_insert_eq. }
  reflexivity.
Qed.

(** X6. A restore of an available backup onto an existing volume that is
    available, or in use by instances that are all shut off, and large
    enough: [restore] returns the two identifiers, the backup is
    [restoring], the volume is [restoring-backup] with its previous
    status stored in its description, one [restore_backup] cast is queued
    for the host of the volume, and no quota is touched. *)
Theorem restore_success env ctx backup_id volume_id fuel w b size v :
  backups w !! backup_id = Some b ->
  b_status b = "available" ->
  b_size b = Some size ->
  volumes w !! volume_id = Some v ->
  v_status v = Some "available" \/
  (v_status v = Some "in-use" /\
   forall a, In a (v_volume_attachment v) ->
             server_status env (instance_uuid a) = Ret "SHUTOFF") ->
  size <= v_size v * 1024 ->
  exists w',
    API.restore env ctx backup_id (Some volume_id) fuel w =
      (Ret (backup_id, volume_id), w') /\
    (backups w' = <[backup_id := backup_set (BStatus "restoring") b]>
                    (backups w)) /\
    (volumes w' =
       <[volume_id :=
           volume_set (VStatus (Some "restoring-backup"))
             (volume_set (VDisplayDescription (v_status v)) v)]>
         (volumes w)) /\
    events w' =
      (events w ++
       [EvRpc (mkMsg Cast (Some (extract_host env (v_host v) LevelHost))
                 (ArgsRestoreBackup backup_id volume_id))])%list /\
    ledger w' = ledger w.
Proof.
  intros Hb Hst Hsize Hv Hvst Hle. eexists. split.
  - apply (restore_run env ctx backup_id volume_id fuel w b size v);
      assumption.
  - simpl. repeat split. apply insert_insert_eq.
Qed.

Lemma restore_success_witness :
  exists w',
    API.restore Sample.env Sample.ctx "b1" (Some "v1") 0 after_backup =
      (Ret ("b1", "v1"), w') /\
    (backups w' = <[ "b1" := backup_set (BStatus "restoring") finished_backup]>
                    (backups after_backup)) /\
    (volumes w' =
       <[ "v1" :=
           volume_set (VStatus (Some "restoring-backup"))
             (volume_set (VDisplayDescription (Some "available"))
                (Sample.volume "available" 10 None [] "lvm"))]>
         (volumes after_backup)) /\
    events w' =
      (events after_backup ++
       [EvRpc (mkMsg Cast (Some "node1") (ArgsRestoreBackup "b1" "v1"))])%list
    /\
    ledger w' = ledger after_backup.
Proof.
  apply (restore_success Sample.env Sample.ctx "b1" "v1" 0%nat after_backup
           finished_backup 512 (Sample.volume "available" 10 None [] "lvm")).
  - vm_compute; reflexivity.
  - reflexivity.
  - reflexivity.
  - vm_compute; reflexivity.
  - left; reflexivity.
  - simpl; lia.
Defined.

(** X7. A restore onto an existing volume that is large enough for the
    backup changes the world only when it succeeds: whatever exception it
    raises (unknown backup or volume, backup not available or without
    size, volume neither available nor in use, an attached instance that
    is not shut off or cannot be read), the world is left exactly as it
    was. *)
Theorem restore_failure_unchanged env ctx backup_id volume_id fuel w e w' :
  (forall b v size,
     backups w !! backup_id = Some b ->
     volumes w !! volume_id = Some v ->
     b_size b = Some size -> size <= v_size v * 1024) ->
  API.restore env ctx backup_id (Some volume_id) fuel w = (Raise e, w') ->
  w' = w.
Proof.
  intros Hfit. unfold API.restore, API.get.
  destruct (backups w !! backup_id) as [b|] eqn:Hb; cycle 1.
  { rewrite (bind_Raise _ _ w (BackupNotFound backup_id) w)
      by (unfold Db.backup_get; now rewrite Hb).
    now intros [= _ <-]. }
  rewrite (bind_Ret _ _ _ _ _ (backup_get_run _ _ _ Hb)).
  destruct (negb (String.eqb (b_status b) "available")).
  { now intros [= _ <-]. }
  destruct (b_size b) as [size|] eqn:Hsize; cycle 1.
  { now intros [= _ <-]. }
  unfold API.volume_api_get.
  destruct (volumes w !! volume_id) as [v|] eqn:Hv; cycle 1.
  { rewrite (bind_Raise _ _ w (VolumeNotFound volume_id) w).
    - now intros [= _ <-].
    - rewrite (bind_Raise _ _ w (VolumeNotFound volume_id) w); [reflexivity|].
      unfold Db.volume_get; now rewrite Hv. }
  erewrite bind_Ret; cycle 1.
  { rewrite (bind_Ret _ _ _ _ _ (volume_get_run _ _ _ Hv)). reflexivity. }
  cbn [fst snd].
  match goal with
  | |- bind ?m _ _ = _ -> _ => destruct (m w) as [[[]|e0] w1] eqn:Hchk
  end.
  - assert (w1 = w) as ->.
    { destruct (negb _) in Hchk; [discriminate|].
      destruct (status_is (v_status v) "in-use").
      - apply (check_attached_instances_unchanged env v _ _ _ Hchk).
      - now inversion Hchk. }
    rewrite (bind_Ret _ _ _ _ _ Hchk).
    erewrite bind_Ret; cycle 1.
    { apply volume_update_run. exact Hv. }
    assert (Hnlt : Z.ltb (v_size v * 1024) size = false)
      by (apply Z.ltb_ge; eapply Hfit; eauto).
    rewrite Hnlt.
    erewrite bind_Ret; cycle 1.
    { apply backup_update_run. simpl. exact Hb. }
    erewrite bind_Ret; cycle 1.
    { apply volume_update_run. simpl. apply lookup_insert_eq. }
    discriminate.
  - rewrite (bind_Raise _ _ _ _ _ Hchk). intros [= _ <-].
    destruct (negb _) in Hchk; [now inversion Hchk|].
    destruct (status_is (v_status v) "in-use").
    + apply (check_attached_instances_unchanged env v _ _ _ Hchk).
    + now inversion Hchk.
Qed.

Lemma restore_failure_unchanged_witness :
  (API.restore Sample.env Sample.ctx "b1" (Some "v1") 0 restoring_twice).2 =
    restoring_twice.
Proof.
  apply (restore_failure_unchanged Sample.env Sample.ctx "b1" "v1" 0%nat
           restoring_twice (InvalidBackup "Backup status must be available")).
  - intros b v size Hb Hv Hs. vm_compute in Hb, Hv.
    inversion Hb; subst b. inversion Hv; subst v.
    simpl in Hs. inversion Hs; subst size. simpl. lia.
  - vm_compute. reflexivity.
Defined.

(** *** Status updates of the executor *)

Lemma volume_update_status volume_id st w :
  is_Some (volumes w !! volume_id) ->
  exists v' w',
    Db.volume_update volume_id [VStatus st] w = (Ret v', w') /\
    volume_status w' volume_id = Some st /\
    backups w' = backups w.
Proof.
  intros [v Hv]. rewrite (volume_update_run _ _ _ _ Hv).
  do 2 eexists. split; [reflexivity|]. unfold volume_status. simpl.
  rewrite lookup_insert_eq. split; reflexivity.
Qed.

Lemma backup_update_status backup_id st rest w :
  is_Some (backups w !! backup_id) ->
  (forall b, b_status (backup_apply rest b) = b_status b) ->
  exists b' w',
    Db.backup_update backup_id (BStatus st :: rest) w = (Ret b', w') /\
    backup_status w' backup_id = Some st /\
    volumes w' = volumes w.
Proof.
  intros [b Hb] Hrest. rewrite (backup_update_run _ _ _ _ Hb).
  do 2 eexists. split; [reflexivity|]. unfold backup_status.
  cbn [backups volumes with_backups].
  rewrite lookup_insert_eq. split; [|reflexivity].
  change (backup_apply (BStatus st :: rest) b)
    with (backup_apply rest (backup_set (BStatus st) b)).
  cbn [fmap option_fmap option_map]. now rewrite Hrest.
Qed.

(** The handler of a failed driver call of [create_backup]: both
    statuses are put back and the failure is raised again. *)
Lemma revert_run {A} volume_id backup_id st reason err w :
  is_Some (volumes w !! volume_id) ->
  is_Some (backups w !! backup_id) ->
  exists w',
    save_and_reraise_exception (A := A) err
      (_ <- Db.volume_update volume_id [VStatus st] ;;
       _ <- Db.backup_update backup_id [BStatus "error"; BFailReason reason] ;;
       ret tt) w = (Raise err, w') /\
    volume_status w' volume_id = Some st /\
    backup_status w' backup_id = Some "error".
Proof.
  intros Hv Hb.
  destruct (volume_update_status volume_id st w Hv)
    as (v' & w1 & Hr1 & Hs1 & Hb1).
  destruct (backup_update_status backup_id "error" [BFailReason reason] w1)
    as (b' & w2 & Hr2 & Hs2 & Hv2).
  { now rewrite Hb1. }
  { reflexivity. }
  exists w2. split.
  - unfold save_and_reraise_exception.
    rewrite (bind_Ret _ _ _ _ _ Hr1), (bind_Ret _ _ _ _ _ Hr2). reflexivity.
  - split; [|exact Hs2]. unfold volume_status in *. now rewrite Hv2.
Qed.

(** The last two updates of [create_backup]. *)
Lemma finish_run volume_id backup_id st rest w :
  is_Some (volumes w !! volume_id) ->
  is_Some (backups w !! backup_id) ->
  (forall b, b_status (backup_apply rest b) = b_status b) ->
  exists w',
    (_ <- Db.volume_update volume_id [VStatus st] ;;
     _ <- Db.backup_update backup_id (BStatus "available" :: rest) ;;
     ret tt) w = (Ret tt, w') /\
    volume_status w' volume_id = Some st /\
    backup_status w' backup_id = Some "available".
Proof.
  intros Hv Hb Hrest.
  destruct (volume_update_status volume_id st w Hv)
    as (v' & w1 & Hr1 & Hs1 & Hb1).
  destruct (backup_update_status backup_id "available" rest w1)
    as (b' & w2 & Hr2 & Hs2 & Hv2).
  { now rewrite Hb1. }
  { exact Hrest. }
  exists w2. split.
  - rewrite (bind_Ret _ _ _ _ _ Hr1), (bind_Ret _ _ _ _ _ Hr2). reflexivity.
  - split; [|exact Hs2]. unfold volume_status in *. now rewrite Hv2.
Qed.

(** A status check of the executor fails: the backup and the volume are
    marked and the error is raised. *)
Lemma abort_run volume_id backup_id bs rest vs e w :
  is_Some (volumes w !! volume_id) ->
  is_Some (backups w !! backup_id) ->
  (forall b, b_status (backup_apply rest b) = b_status b) ->
  exists w',
    (_ <- Db.backup_update backup_id (BStatus bs :: rest) ;;
     _ <- Db.volume_update volume_id [VStatus vs] ;;
     raise (A := unit) e) w = (Raise e, w') /\
    volume_status w' volume_id = Some vs /\
    backup_status w' backup_id = Some bs.
Proof.
  intros Hv Hb Hrest.
  destruct (backup_update_status backup_id bs rest w Hb Hrest)
    as (b' & w1 & Hr1 & Hs1 & Hv1).
  destruct (volume_update_status volume_id vs w1)
    as (v' & w2 & Hr2 & Hs2 & Hb2).
  { now rewrite Hv1. }
  exists w2. split.
  - rewrite (bind_Ret _ _ _ _ _ Hr1), (bind_Ret _ _ _ _ _ Hr2). reflexivity.
  - split; [exact Hs2|]. unfold backup_status in *. now rewrite Hb2.
Qed.

Lemma same_statuses_refl w : same_statuses w w.
Proof. split; auto. Qed.

Lemma same_statuses_trans w1 w2 w3 :
  same_statuses w1 w2 -> same_statuses w2 w3 -> same_statuses w1 w3.
Proof.
  intros [H1 K1] [H2 K2]. split; [congruence|].
  intros k. now rewrite K2, K1.
Qed.

Lemma describe_same_statuses k d :
  preserves same_statuses (Db.backup_update k [BDisplayDescription d]).
Proof.
  intros w r w' H. unfold Db.backup_update in H.
  destruct (backups w !! k) as [b|] eqn:Hb; inversion H; subst;
    [|apply same_statuses_refl].
  split; [reflexivity|]. intros k'. unfold backup_status. simpl.
  destruct (decide (k' = k)) as [->|Hne].
  - rewrite lookup_insert_eq, Hb. reflexivity.
  - now rewrite lookup_insert_ne by congruence.
Qed.

(** The bookkeeping of the active marker changes descriptions only. *)
Lemma mark_active_same_statuses ctx backup_id volume_id backup :
  preserves same_statuses
    (Manager.mark_active ctx backup_id volume_id backup).
Proof.
  unfold Manager.mark_active.
  apply (preserves_bind _ same_statuses_trans).
  { destruct (ctx_is_admin ctx); intros w r w' [= _ <-];
      apply same_statuses_refl. }
  intros rows. apply (preserves_bind _ same_statuses_trans).
  - apply (preserves_for_each _ same_statuses_refl same_statuses_trans).
    intros bak _.
    destruct (b_display_description bak.2) as [d|];
      [|apply (preserves_ret _ same_statuses_refl)].
    destruct (PyStr.truthy (Some d));
      [|apply (preserves_ret _ same_statuses_refl)].
    destruct (String.eqb _ _); [|apply (preserves_ret _ same_statuses_refl)].
    apply (preserves_bind _ same_statuses_trans);
      [apply describe_same_statuses|].
    intros _. apply (preserves_ret _ same_statuses_refl).
  - intros _.
    destruct (b_display_description backup) as [d|];
      [destruct (PyStr.truthy (Some d))|];
      (apply (preserves_bind _ same_statuses_trans);
       [apply describe_same_statuses
       |intros _; apply (preserves_ret _ same_statuses_refl)]).
Qed.

(** The handler of a failed driver call of [restore_backup]. *)
Lemma restore_revert_run volume_id backup_id err w :
  is_Some (volumes w !! volume_id) ->
  is_Some (backups w !! backup_id) ->
  exists w',
    save_and_reraise_exception (A := unit) err
      (_ <- Db.volume_update volume_id [VStatus (Some "error_restoring")] ;;
       _ <- Db.backup_update backup_id [BStatus "available"] ;;
       ret tt) w = (Raise err, w') /\
    volume_status w' volume_id = Some (Some "error_restoring") /\
    backup_status w' backup_id = Some "available".
Proof.
  intros Hv Hb.
  destruct (volume_update_status volume_id (Some "error_restoring") w Hv)
    as (v' & w1 & Hr1 & Hs1 & Hb1).
  destruct (backup_update_status backup_id "available" [] w1)
    as (b' & w2 & Hr2 & Hs2 & Hv2).
  { now rewrite Hb1. }
  { reflexivity. }
  exists w2. split.
  - unfold save_and_reraise_exception.
    rewrite (bind_Ret _ _ _ _ _ Hr1), (bind_Ret _ _ _ _ _ Hr2). reflexivity.
  - split; [|exact Hs2]. unfold volume_status in *. now rewrite Hv2.
Qed.

(** The end of a restore whose driver call succeeded. *)
Lemma restore_finish_run ctx volume_id backup_id stash w :
  is_Some (volumes w !! volume_id) ->
  is_Some (backups w !! backup_id) ->
  exists w',
    (_ <- Db.volume_update volume_id [VStatus stash] ;;
     _ <- Db.volume_update volume_id
            [VDisplayDescription (Some EmptyString)] ;;
     backup <- Db.backup_update backup_id [BStatus "available"] ;;
     Manager.mark_active ctx backup_id volume_id backup) w = (Ret tt, w') /\
    (exists v', volumes w' !! volume_id = Some v' /\
                v_status v' = stash /\
                v_display_description v' = Some EmptyString) /\
    (exists b', backups w' !! backup_id = Some b' /\
                b_status b' = "available" /\
                carries_active_marker b' = true).
Proof.
  intros [v Hv] [b Hb].
  rewrite (bind_Ret _ _ _ _ _ (volume_update_run _ _ _ _ Hv)).
  erewrite bind_Ret; cycle 1.
  { apply volume_update_run. simpl. apply lookup_insert_eq. }
  erewrite bind_Ret; cycle 1.
  { apply backup_update_run. simpl. exact Hb. }
  match goal with
  | |- context [Manager.mark_active ctx backup_id volume_id ?bk ?w1] =>
      destruct (mark_active_run ctx backup_id volume_id bk w1 bk)
        as (w' & Hrun & Hvol & (b' & Hb' & Hd') & _);
        [simpl; apply lookup_insert_eq | reflexivity |];
      pose proof (mark_active_same_statuses ctx backup_id volume_id bk
                    _ _ _ Hrun) as [_ Hst]
  end.
  exists w'. split; [exact Hrun|]. split.
  - rewrite Hvol. simpl. rewrite insert_insert_eq, lookup_insert_eq.
    eexists. split; [reflexivity|]. split; reflexivity.
  - exists b'. split; [exact Hb'|]. split.
    + specialize (Hst backup_id). unfold backup_status in Hst.
      rewrite Hb' in Hst. simpl in Hst. rewrite lookup_insert_eq in Hst.
      simpl in Hst. now inversion Hst.
    + unfold carries_active_marker. rewrite Hd'.
      rewrite last6_marker. reflexivity.
Qed.

(** The guarded driver call of [restore_backup]. *)
Lemma restore_driver_call_run self env backend backup_id volume_id w :
  restore_driver_keeps_rows env ->
  exists r w',
    (driver <- lift (Manager._get_driver self (Some backend)) ;;
     Manager.require_driver_initialized env driver ;;;
     modify (with_event (EvDriverRestore backup_id volume_id)) ;;;
     drv_restore_backup env backend backup_id volume_id) w = (r, w') /\
    rows_kept w w'.
Proof.
  intros Hk. unfold bind, lift.
  destruct (Manager._get_driver self (Some backend)) as [d|e].
  2:{ do 2 eexists. split; [reflexivity|]. split; auto. }
  unfold Manager.require_driver_initialized.
  destruct (driver_initialized env d).
  2:{ do 2 eexists. split; [reflexivity|]. split; auto. }
  unfold ret, modify.
  destruct (drv_restore_backup env backend backup_id volume_id
              (with_event (EvDriverRestore backup_id volume_id) w))
    as [r w1] eqn:Hd.
  do 2 eexists. split; [reflexivity|]. apply (Hk _ _ _ _ _ _ Hd).
Qed.

(** X8. Whatever [restore_backup] does on records that exist, it leaves
    neither record in its transient status: when it returns, the volume
    has the status that was stored in its description and the backup is
    [available]; when it raises, the volume is [error] (it was not
    [restoring-backup]) or [error_restoring], and the backup is
    [available] or [error].  The driver is only assumed to remove no
    row. *)
Theorem restore_backup_settles self env ctx backup_id volume_id w b v r w' :
  restore_driver_keeps_rows env ->
  backups w !! backup_id = Some b ->
  volumes w !! volume_id = Some v ->
  mgr_volume_managers self <> [] ->
  Manager.restore_backup self env ctx backup_id volume_id w = (r, w') ->
  (r = Ret tt /\
   volume_status w' volume_id = Some (v_display_description v) /\
   backup_status w' backup_id = Some "available") \/
  (exists e, r = Raise e /\
     (volume_status w' volume_id = Some (Some "error") \/
      volume_status w' volume_id = Some (Some "error_restoring")) /\
     (backup_status w' backup_id = Some "available" \/
      backup_status w' backup_id = Some "error")).
Proof.
  intros Hk Hb Hv Hm. unfold Manager.restore_backup.
  rewrite (bind_Ret _ _ _ _ _ (backup_get_run _ _ _ Hb)).
  rewrite (bind_Ret _ _ _ _ _ (volume_get_run _ _ _ Hv)).
  destruct (get_volume_backend_some self
              (extract_host env (v_host v) LevelBackend) Hm) as (backend & Hbe).
  rewrite Hbe.
  rewrite (bind_Ret _ _ w backend w) by reflexivity.
  rewrite (bind_Ret _ _ _ _ _ (backup_update_run _ _ _ _ Hb)).
  set (w0 := with_backups _ w).
  assert (Hv0 : is_Some (volumes w0 !! volume_id)) by (simpl; eauto).
  assert (Hb0 : is_Some (backups w0 !! backup_id)).
  { subst w0. simpl. rewrite lookup_insert_eq. eauto. }
  destruct (negb (status_is (v_status v) "restoring-backup")).
  { destruct (abort_run volume_id backup_id "available" [] (Some "error")
                (InvalidVolume
                   (Manager.status_mismatch "Restore backup aborted" "volume"
                      "restoring-backup" (API.str_of (v_status v)))) w0)
      as (w2 & Hr & Hs & Hbs); [auto | auto | reflexivity |].
    match goal with
    | |- ?m w0 = _ -> _ =>
        change (m w0) with
          ((_ <- Db.backup_update backup_id [BStatus "available"] ;;
            _ <- Db.volume_update volume_id [VStatus (Some "error")] ;;
            raise (A := unit)
              (InvalidVolume
                 (Manager.status_mismatch "Restore backup aborted" "volume"
                    "restoring-backup" (API.str_of (v_status v))))) w0)
    end.
    rewrite Hr. intros [= <- <-]. right. eauto 10. }
  destruct (negb (String.eqb (b_status b) "restoring")).
  { match goal with
    | |- ?m w0 = _ -> _ =>
        match m with
        | context [raise ?e] =>
            match m with
            | context [BFailReason ?reason] =>
                destruct (abort_run volume_id backup_id "error"
                            [BFailReason reason] (Some "error_restoring") e w0)
                  as (w2 & Hr & Hs & Hbs); [auto | auto | reflexivity |];
                change (m w0) with
                  ((_ <- Db.backup_update backup_id
                           [BStatus "error"; BFailReason reason] ;;
                    _ <- Db.volume_update volume_id
                           [VStatus (Some "error_restoring")] ;;
                    raise (A := unit) e) w0)
            end
        end
    end.
    rewrite Hr. intros [= <- <-]. right. eauto 10. }
  destruct (negb (bool_decide _)).
  { match goal with
    | |- ?m w0 = _ -> _ =>
        match m with
        | context [raise ?e] =>
            destruct (abort_run volume_id backup_id "available" []
                        (Some "error_restoring") e w0)
              as (w2 & Hr & Hs & Hbs); [auto | auto | reflexivity |];
            change (m w0) with
              ((_ <- Db.backup_update backup_id [BStatus "available"] ;;
                _ <- Db.volume_update volume_id
                       [VStatus (Some "error_restoring")] ;;
                raise (A := unit) e) w0)
        end
    end.
    rewrite Hr. intros [= <- <-]. right. eauto 10. }
  destruct (restore_driver_call_run self env backend backup_id volume_id w0 Hk)
    as (r1 & w1 & Hrun & [Hkv Hkb]).
  destruct r1 as [[]|err].
  - erewrite bind_Ret; cycle 1.
    { unfold try_except. rewrite Hrun. reflexivity. }
    destruct (restore_finish_run ctx volume_id backup_id
                (v_display_description v) w1)
      as (w2 & Hr2 & (v' & Hv' & Hvs & _) & (b' & Hb' & Hbs & _));
      [auto | auto |].
    rewrite Hr2. intros [= <- <-]. left. split; [reflexivity|].
    unfold volume_status, backup_status. rewrite Hv', Hb'. simpl.
    now rewrite Hvs, Hbs.
  - destruct (restore_revert_run volume_id backup_id err w1)
      as (w2 & Hr2 & Hs2 & Hbs2); [auto | auto |].
    erewrite bind_Raise; cycle 1.
    { unfold try_except. rewrite Hrun. exact Hr2. }
    intros [= <- <-]. right. eauto 10.
Qed.

Lemma sample_restore_driver_keeps_rows : restore_driver_keeps_rows Sample.env.
Proof. intros backend id vid w r w' [= _ <-]. split; auto. Qed.

Lemma restore_backup_settles_witness :
  volume_status
    (Manager.restore_backup Sample.executor Sample.env Sample.ctx "b1" "v1"
       restore_in_progress).2 "v1" = Some (Some "in-use") /\
  backup_status
    (Manager.restore_backup Sample.executor Sample.env Sample.ctx "b1" "v1"
       restore_in_progress).2 "b1" = Some "available".
Proof.
  destruct (restore_backup_settles Sample.executor Sample.env Sample.ctx "b1"
              "v1" restore_in_progress
              (Sample.backup "v1" "restoring" (Some 512) (Some "nightly")
                 None 10)
              (Sample.volume "restoring-backup" 10 (Some "in-use") [] "lvm")
              (Ret tt)
              (Manager.restore_backup Sample.executor Sample.env Sample.ctx
                 "b1" "v1" restore_in_progress).2)
    as [(_ & Hv & Hb) | (e & He & _)].
  - exact sample_restore_driver_keeps_rows.
  - vm_compute; reflexivity.
  - vm_compute; reflexivity.
  - discriminate.
  - vm_compute; reflexivity.
  - split; assumption.
  - discriminate He.
Defined.

(** X9. A request followed by the delivery of its message: after a
    successful [restore] and a [restore_backup] whose driver succeeds, the
    volume has the status it had before the request, its description has
    been replaced by the empty string, and the backup is [available] again
    and carries the active marker. *)
Theorem restore_round_trip self env ctx backup_id volume_id fuel w b size v
    backend driver :
  backups w !! backup_id = Some b ->
  b_status b = "available" ->
  b_size b = Some size ->
  volumes w !! volume_id = Some v ->
  v_status v = Some "available" \/
  (v_status v = Some "in-use" /\
   forall a, In a (v_volume_attachment v) ->
             server_status env (instance_uuid a) = Ret "SHUTOFF") ->
  size <= v_size v * 1024 ->
  Manager._map_service_to_driver (b_service b) =
    Some (Manager.driver_name self) ->
  Manager._get_volume_backend self
    (Some (extract_host env (v_host v) LevelBackend)) false = Ret backend ->
  Manager._get_driver self (Some backend) = Ret driver ->
  driver_initialized env driver = true ->
  (forall w0, drv_restore_backup env backend backup_id volume_id w0 =
                (Ret tt, w0)) ->
  exists w',
    (API.restore env ctx backup_id (Some volume_id) fuel ;;;
     Manager.restore_backup self env ctx backup_id volume_id) w =
      (Ret tt, w') /\
    (exists v', volumes w' !! volume_id = Some v' /\
                v_status v' = v_status v /\
                v_display_description v' = Some EmptyString) /\
    (exists b', backups w' !! backup_id = Some b' /\
                b_status b' = "available" /\
                carries_active_marker b' = true).
Proof.
  intros Hb Hst Hsize Hv Hvst Hle Hsvc Hbe Hdr Hinit Hdrv.
  rewrite (bind_Ret _ _ _ _ _
             (restore_run env ctx backup_id volume_id fuel w b size v
                Hb Hst Hsize Hv Hvst Hle)).
  set (w1 := with_event _ _).
  assert (Hb1 : backups w1 !! backup_id =
                Some (backup_set (BStatus "restoring") b))
    by (subst w1; simpl; apply lookup_insert_eq).
  assert (Hv1 : volumes w1 !! volume_id =
                Some (volume_set (VStatus (Some "restoring-backup"))
                        (volume_set (VDisplayDescription (v_status v)) v)))
    by (subst w1; simpl; apply lookup_insert_eq).
  clearbody w1.
  unfold Manager.restore_backup.
  rewrite (bind_Ret _ _ _ _ _ (backup_get_run _ _ _ Hb1)).
  rewrite (bind_Ret _ _ _ _ _ (volume_get_run _ _ _ Hv1)).
  cbn [v_host volume_set v_status v_display_description b_status b_service
       backup_set].
  rewrite Hbe. rewrite (bind_Ret _ _ w1 backend w1) by reflexivity.
  rewrite (bind_Ret _ _ _ _ _ (backup_update_run _ _ _ _ Hb1)).
  unfold status_is. rewrite bool_decide_eq_true_2 by reflexivity.
  rewrite String.eqb_refl. cbn [negb].
  rewrite Hsvc. rewrite bool_decide_eq_true_2 by reflexivity. cbn [negb].
  erewrite bind_Ret; cycle 1.
  { unfold try_except. rewrite Hdr.
    rewrite (bind_Ret _ _ _ driver _) by reflexivity.
    unfold Manager.require_driver_initialized. rewrite Hinit.
    unfold bind, ret, modify. rewrite Hdrv. reflexivity. }
  match goal with
  | |- context [Manager.mark_active _ _ _ _] =>
      match goal with
      | |- exists w', _ ?w2 = _ /\ _ =>
          destruct (restore_finish_run ctx volume_id backup_id (v_status v)
                      w2) as (w3 & Hfin & Hvol & Hbak)
      end
  end.
  { simpl. rewrite Hv1. eauto. }
  { simpl. rewrite lookup_insert_eq. eauto. }
  exists w3. split; [exact Hfin|]. split; assumption.
Qed.

Lemma restore_round_trip_witness :
  exists w',
    (API.restore Sample.env Sample.ctx "b1" (Some "v1") 0 ;;;
     Manager.restore_backup Sample.executor Sample.env Sample.ctx "b1" "v1")
      after_backup = (Ret tt, w') /\
    (exists v', volumes w' !! "v1" = Some v' /\
                v_status v' = Some "available" /\
                v_display_description v' = Some EmptyString) /\
    (exists b', backups w' !! "b1" = Some b' /\
                b_status b' = "available" /\
                carries_active_marker b' = true).
Proof.
  apply (restore_round_trip Sample.executor Sample.env Sample.ctx "b1" "v1"
           0%nat after_backup finished_backup 512
           (Sample.volume "available" 10 None [] "lvm") "lvm" "lvm").
  - vm_compute; reflexivity.
  - reflexivity.
  - reflexivity.
  - vm_compute; reflexivity.
  - left; reflexivity.
  - simpl; lia.
  - reflexivity.
  - reflexivity.
  - reflexivity.
  - reflexivity.
  - reflexivity.
Defined.

(** ** Deletion of a backup ([API.delete], [delete_backup]) *)

Lemma get_all_children_run ctx backup_id w :
  API.get_all ctx [Db.FilterParentId backup_id] w =
    (Ret (List.filter
            (fun r => (ctx_is_admin ctx ||
                       bool_decide (b_project_id r.2 = ctx_project_id ctx)) &&
                      bool_decide (b_parent_id r.2 = Some backup_id))
            (Db.backup_rows w)), w).
Proof.
  unfold API.get_all, Db.backup_get_all_filtered,
    Db.backup_get_all_by_project_filtered, Db.matches.
  destruct (ctx_is_admin ctx); simpl; do 2 f_equal;
    apply List.filter_ext; intros r; now rewrite andb_true_r.
Qed.

Lemma children_nil_iff ctx backup_id w :
  List.filter
    (fun r => (ctx_is_admin ctx ||
               bool_decide (b_project_id r.2 = ctx_project_id ctx)) &&
              bool_decide (b_parent_id r.2 = Some backup_id))
    (Db.backup_rows w) = [] <->
  ~ has_visible_child ctx backup_id w.
Proof.
  split.
  - intros Hnil (k & c & Hk & Hp & Hvis).
    assert (Hin : In (k, c) (Db.backup_rows w)).
    { apply list_elem_of_In. now apply elem_of_map_to_list. }
    assert (Hf : In (k, c) []).
    { rewrite <- Hnil. apply List.filter_In. split; [exact Hin|]. simpl.
      rewrite (bool_decide_eq_true_2 _ Hp), andb_true_r.
      destruct Hvis as [-> | Hpr]; [reflexivity|].
      rewrite (bool_decide_eq_true_2 _ Hpr). apply orb_true_r. }
    destruct Hf.
  - intros Hno.
    destruct (List.filter _ _) as [|[k c] rest] eqn:Hf; [reflexivity|].
    exfalso. apply Hno. exists k, c.
    assert (Hin : In (k, c) ((k, c) :: rest)) by now left.
    rewrite <- Hf in Hin. apply List.filter_In in Hin as [Hin Hc].
    apply list_elem_of_In, elem_of_map_to_list in Hin.
    apply andb_true_iff in Hc as [Hvis Hp]. simpl in *.
    apply bool_decide_eq_true in Hp.
    repeat split; try assumption.
    apply orb_true_iff in Hvis as [Ha | Hpr]; [now left|right].
    now apply bool_decide_eq_true in Hpr.
Qed.

Lemma status_settled b :
  existsb (String.eqb (b_status b)) ["available"; "error"] = true <->
  b_status b = "available" \/ b_status b = "error".
Proof.
  simpl. rewrite orb_false_r, orb_true_iff, !String.eqb_eq. reflexivity.
Qed.

(** X10. [delete] refuses, with [InvalidBackup] and without changing
    anything, a backup that is neither [available] nor [error], and a
    backup that some backup the caller can list (any backup for an
    administrator, those of the project otherwise) names as its parent. *)
Theorem delete_refused_unchanged ctx backup_id w b :
  backups w !! backup_id = Some b ->
  (b_status b <> "available" /\ b_status b <> "error") \/
  has_visible_child ctx backup_id w ->
  exists reason,
    API.delete ctx backup_id w = (Raise (InvalidBackup reason), w).
Proof.
  intros Hb Hwhy. unfold API.delete, API.get.
  rewrite (bind_Ret _ _ _ _ _ (backup_get_run _ _ _ Hb)).
  destruct (existsb _ _) eqn:Hst; cbn [negb].
  - destruct Hwhy as [[Hna Hne] | Hchild].
    { apply status_settled in Hst. tauto. }
    match goal with
    | |- context [API.get_all ?c _] =>
        rewrite (bind_Ret _ _ _ _ _ (get_all_children_run c backup_id w))
    end.
    match goal with
    | |- context [List.filter ?f ?l] => destruct (List.filter f l) eqn:Hf
    end.
    + exfalso. revert Hchild.
      eapply (proj1 (children_nil_iff _ backup_id w)).
      rewrite <- Hf. apply List.filter_ext. intros r.
      destruct (b_display_description b) as [d|]; [|reflexivity].
      destruct (PyStr.truthy _); [|reflexivity].
      destruct (PyStr.contains _ _); reflexivity.
    + eexists. reflexivity.
  - eexists. reflexivity.
Qed.

Lemma delete_refused_unchanged_witness :
  exists reason,
    API.delete Sample.ctx "b1" with_child =
      (Raise (InvalidBackup reason), with_child).
Proof.
  apply (delete_refused_unchanged Sample.ctx "b1" with_child
           (Sample.backup "v1" "available" (Some 512) (Some "full") None 10)).
  - vm_compute; reflexivity.
  - right. eexists "b2", _. split; [vm_compute; reflexivity|].
    split; [reflexivity | right; reflexivity].
Defined.

(** The run of a call of [delete] that is accepted. *)
Lemma delete_run ctx backup_id w b :
  backups w !! backup_id = Some b ->
  b_status b = "available" \/ b_status b = "error" ->
  ~ has_visible_child ctx backup_id w ->
  API.delete ctx backup_id w =
    (Ret (if carries_periodic_tag b then set_periodic true ctx else ctx),
     deletion_queued backup_id b w).
Proof.
  intros Hb Hst Hleaf. unfold API.delete, API.get.
  rewrite (bind_Ret _ _ _ _ _ (backup_get_run _ _ _ Hb)).
  apply status_settled in Hst. rewrite Hst. cbn [negb].
  match goal with
  | |- context [API.get_all ?c _] =>
      rewrite (bind_Ret _ _ _ _ _ (get_all_children_run c backup_id w))
  end.
  match goal with
  | |- context [List.filter ?f ?l] =>
      replace (List.filter f l) with (@nil (string * Backup))
  end.
  - rewrite (bind_Ret _ _ _ _ _ (backup_update_run _ _ _ _ Hb)).
    unfold RpcApi.delete_backup, RpcApi.cast, bind, modify, ret,
      deletion_queued. simpl. do 2 f_equal.
    unfold carries_periodic_tag.
    destruct (b_display_description b) as [d|]; [|reflexivity].
    destruct d; [reflexivity|]. reflexivity.
  - symmetry. apply (proj2 (children_nil_iff ctx backup_id w)) in Hleaf.
    rewrite <- Hleaf. apply List.filter_ext. intros r.
    destruct (b_display_description b) as [d|]; [|reflexivity].
    destruct (PyStr.truthy _); [|reflexivity].
    destruct (PyStr.contains _ _); reflexivity.
Qed.

(** X11. [delete] accepts a backup that is [available] or [error] and
    that no backup the caller can list names as its parent, whether or
    not it carries the active marker: the backup becomes [deleting], one
    [delete_backup] cast is queued for the host of the backup, nothing
    else changes, and the context of the caller is marked periodic when
    the description of the backup carries the periodic tag. *)
Theorem delete_queues_deletion ctx backup_id w b :
  backups w !! backup_id = Some b ->
  b_status b = "available" \/ b_status b = "error" ->
  ~ has_visible_child ctx backup_id w ->
  exists ctx' w',
    API.delete ctx backup_id w = (Ret ctx', w') /\
    ctx_periodic ctx' = carries_periodic_tag b || ctx_periodic ctx /\
    (backups w' = <[backup_id := backup_set (BStatus "deleting") b]>
                    (backups w)) /\
    volumes w' = volumes w /\
    ledger w' = ledger w /\
    events w' =
      (events w ++
       [EvRpc (mkMsg Cast (b_host b) (ArgsDeleteBackup backup_id))])%list.
Proof.
  intros Hb Hst Hleaf. do 2 eexists. split.
  - apply (delete_run ctx backup_id w b Hb Hst Hleaf).
  - split; [destruct (carries_periodic_tag b); reflexivity|].
    repeat split.
Qed.

Lemma delete_queues_deletion_witness :
  exists ctx' w',
    API.delete Sample.ctx "b1" after_backup = (Ret ctx', w') /\
    ctx_periodic ctx' =
      carries_periodic_tag finished_backup || ctx_periodic Sample.ctx /\
    (backups w' = <[ "b1" := backup_set (BStatus "deleting") finished_backup]>
                    (backups after_backup)) /\
    volumes w' = volumes after_backup /\
    ledger w' = ledger after_backup /\
    events w' =
      (events after_backup ++
       [EvRpc (mkMsg Cast (b_host finished_backup)
                 (ArgsDeleteBackup "b1"))])%list.
Proof.
  apply (delete_queues_deletion Sample.ctx "b1" after_backup finished_backup).
  - vm_compute; reflexivity.
  - left; reflexivity.
  - apply children_nil_iff. vm_compute. reflexivity.
Defined.

(** X12. A second [delete] of a backup whose deletion has been accepted
    is refused with [InvalidBackup] and adds nothing: the world is the
    one the first call left, with a single [delete_backup] message. *)
Theorem delete_twice_refused ctx ctx2 backup_id w b :
  backups w !! backup_id = Some b ->
  b_status b = "available" \/ b_status b = "error" ->
  ~ has_visible_child ctx backup_id w ->
  (API.delete ctx backup_id ;;; API.delete ctx2 backup_id) w =
    (Raise (InvalidBackup "Backup status must be available or error"),
     deletion_queued backup_id b w).
Proof.
  intros Hb Hst Hleaf.
  rewrite (bind_Ret _ _ _ _ _ (delete_run _ _ _ _ Hb Hst Hleaf)).
  unfold API.delete, API.get.
  erewrite bind_Ret; cycle 1.
  { apply backup_get_run. unfold deletion_queued. simpl.
    apply lookup_insert_eq. }
  reflexivity.
Qed.

Lemma delete_twice_refused_witness :
  (API.delete Sample.ctx "b1" ;;; API.delete Sample.admin "b1") after_backup =
    (Raise (InvalidBackup "Backup status must be available or error"),
     deletion_queued "b1" finished_backup after_backup).
Proof.
  apply (delete_twice_refused Sample.ctx Sample.admin "b1" after_backup
           finished_backup).
  - vm_compute; reflexivity.
  - left; reflexivity.
  - apply children_nil_iff. vm_compute. reflexivity.
Defined.

Lemma row_kept_refl k w : row_kept k w w.
Proof. split; [apply backups_but_refl | auto]. Qed.

Lemma row_kept_trans k w1 w2 w3 :
  row_kept k w1 w2 -> row_kept k w2 w3 -> row_kept k w1 w3.
Proof.
  intros [H1 K1] [H2 K2]. split; [eapply backups_but_trans; eauto | auto].
Qed.

Lemma backup_update_row_kept k vals :
  preserves (row_kept k) (Db.backup_update k vals).
Proof.
  intros w r w' H. split; [eapply backup_update_backups_but; eauto|].
  intros Hs. unfold Db.backup_update in H.
  destruct (backups w !! k) as [b|] eqn:Hb; inversion H; subst; simpl.
  - rewrite lookup_insert_eq. eauto.
  - rewrite Hb. exact Hs.
Qed.

Lemma reserve_row_kept env k project_id n g :
  preserves (row_kept k) (Quotas.reserve env project_id n g).
Proof.
  intros w r w' H. unfold Quotas.reserve in H.
  destruct (quota_reserve env w project_id n g); inversion H; subst;
    apply row_kept_refl || (split; [split; simpl; auto | simpl; auto]).
Qed.

Lemma event_row_kept k e : preserves (row_kept k) (modify (with_event e)).
Proof.
  intros w r w' [= _ <-]. split; [split; simpl; auto | simpl; auto].
Qed.

Ltac frame_row k :=
  repeat first
    [ apply (preserves_ret _ (row_kept_refl k))
    | apply (preserves_raise _ (row_kept_refl k))
    | apply (preserves_lift _ (row_kept_refl k))
    | apply backup_update_row_kept
    | apply (backup_get_preserves _ (row_kept_refl k))
    | apply (volume_get_preserves _ (row_kept_refl k))
    | apply reserve_row_kept
    | apply event_row_kept
    | apply (preserves_save_and_reraise _ (row_kept_trans k))
    | apply (preserves_bind _ (row_kept_trans k)); [|intros ?]
    | apply (preserves_try_except _ (row_kept_trans k)); [|intros ?]
    | match goal with
      | |- preserves _ (if ?c then _ else _) => destruct c
      | |- preserves _ (match ?x with _ => _ end) => destruct x
      end ].

Lemma destroys_or_keeps_bind {A} k (m : M A) (f : A -> M unit) :
  preserves (row_kept k) m ->
  (forall a, destroys_or_keeps k (f a)) ->
  destroys_or_keeps k (bind m f).
Proof.
  intros Hm Hf w r w'. unfold bind.
  destruct (m w) as [[a|e] w1] eqn:Hrun.
  - intros H. pose proof (Hm _ _ _ Hrun) as [[Hv Hb] Hk].
    destruct (Hf a _ _ _ H) as [(-> & Hd & Hv') | (e & -> & Hkept)].
    + left. split; [reflexivity|]. split; [|congruence].
      rewrite Hd. apply map_eq. intros i.
      destruct (decide (i = k)) as [->|Hne].
      * now rewrite !lookup_delete_eq.
      * rewrite !lookup_delete_ne by congruence. now apply Hb.
    + right. exists e. split; [reflexivity|].
      eapply row_kept_trans; [|exact Hkept]. split; [split|]; assumption.
  - intros [= <- <-]. right. exists e. split; [reflexivity|].
    eapply Hm; eauto.
Qed.

Lemma destroys_or_keeps_raise k e : destroys_or_keeps k (raise e).
Proof.
  intros w r w' [= <- <-]. right. exists e. split; [reflexivity|].
  apply row_kept_refl.
Qed.

(** The end of [delete_backup]: the row is destroyed and the reservation
    is committed. *)
Lemma destroy_then_commit env k reservations w :
  (forall w0 rs, quota_commit_fault env w0 rs = None) ->
  exists w',
    (Db.backup_destroy k ;;;
     match reservations with
     | Some (r :: rs) => Quotas.commit env (r :: rs)
     | _ => ret tt
     end) w = (Ret tt, w') /\
    backups w' = delete k (backups w) /\
    volumes w' = volumes w /\
    events w' = events w /\
    ledger w' = match reservations with
                | Some (r :: rs) => Quotas.mark Committed (r :: rs) (ledger w)
                | _ => ledger w
                end.
Proof.
  intros Hc. unfold bind, Db.backup_destroy, modify.
  destruct reservations as [[|r rs]|].
  - eexists. split; [reflexivity|]. repeat split.
  - unfold Quotas.commit. rewrite Hc. eexists. split; [reflexivity|].
    repeat split.
  - eexists. split; [reflexivity|]. repeat split.
Qed.

Lemma delete_backup_destroys_or_keeps self env ctx backup_id :
  (forall w0 rs, quota_commit_fault env w0 rs = None) ->
  destroys_or_keeps backup_id (Manager.delete_backup self env ctx backup_id).
Proof.
  intros Hc. unfold Manager.delete_backup.
  apply destroys_or_keeps_bind.
  { unfold Manager.require_own_driver, Manager.require_driver_initialized.
    frame_row backup_id. }
  intros _. apply destroys_or_keeps_bind; [frame_row backup_id|].
  intros backup. apply destroys_or_keeps_bind; [frame_row backup_id|].
  intros _. destruct (negb (String.eqb (b_status backup) "deleting")).
  { apply destroys_or_keeps_bind; [frame_row backup_id|].
    intros _. apply destroys_or_keeps_raise. }
  apply destroys_or_keeps_bind; [frame_row backup_id|].
  intros _. apply destroys_or_keeps_bind; [frame_row backup_id|].
  intros reservations w0 r0 w0' H0.
  destruct (destroy_then_commit env backup_id reservations w0 Hc)
    as (w1 & Hrun1 & Hb & Hv & _).
  rewrite Hrun1 in H0. inversion H0; subst. left. auto.
Qed.

(** X13. When the quota engine does not fail on commit, the executor's
    [delete_backup] destroys the row of the backup exactly when it returns
    normally: if it raises, for whatever reason, a row that existed is
    still there.  In both cases no volume and no other backup is
    touched. *)
Theorem delete_backup_destroys_iff_returns self env ctx backup_id w r w' :
  (forall w0 rs, quota_commit_fault env w0 rs = None) ->
  Manager.delete_backup self env ctx backup_id w = (r, w') ->
  volumes w' = volumes w /\
  (forall k, k <> backup_id -> backups w' !! k = backups w !! k) /\
  ((r = Ret tt /\ backups w' !! backup_id = None) \/
   (exists e, r = Raise e /\
      (is_Some (backups w !! backup_id) ->
       is_Some (backups w' !! backup_id)))).
Proof.
  intros Hc Hrun.
  destruct (delete_backup_destroys_or_keeps self env ctx backup_id Hc
              _ _ _ Hrun)
    as [(-> & Hd & Hv) | (e & -> & [[Hv Hb] Hk])].
  - split; [exact Hv|]. split.
    + intros k Hne. rewrite Hd. now apply lookup_delete_ne.
    + left. split; [reflexivity|]. rewrite Hd. apply lookup_delete_eq.
  - split; [exact Hv|]. split; [exact Hb|]. right. eauto.
Qed.

Lemma delete_backup_destroys_iff_returns_witness :
  (Manager.delete_backup Sample.executor Sample.env Sample.admin "b1"
     deleting).1 = Ret tt /\
  backups
    (Manager.delete_backup Sample.executor Sample.env Sample.admin "b1"
       deleting).2 !! "b1" = None.
Proof.
  destruct (delete_backup_destroys_iff_returns Sample.executor Sample.env
              Sample.admin "b1" deleting (Ret tt)
              (Manager.delete_backup Sample.executor Sample.env Sample.admin
                 "b1" deleting).2) as (_ & _ & H).
  - reflexivity.
  - vm_compute. reflexivity.
  - split; [vm_compute; reflexivity|].
    destruct H as [[_ H] | (e & He & _)]; [exact H | discriminate He].
Defined.

Lemma require_own_driver_ready self env w :
  own_driver_ready self env ->
  Manager.require_own_driver self env w = (Ret tt, w).
Proof.
  intros (d & Hd & Hi). unfold Manager.require_own_driver.
  rewrite Hd. unfold bind, lift, Manager.require_driver_initialized.
  now rewrite Hi.
Qed.

Lemma guard_ready {A} self env (handler : exn -> M unit) (k : unit -> M A) w :
  own_driver_ready self env ->
  bind (try_except (Manager.require_own_driver self env) handler) k w =
  k tt w.
Proof.
  intros H. unfold bind at 1, try_except.
  now rewrite (require_own_driver_ready _ _ _ H).
Qed.

Lemma sample_own_driver_ready env :
  (forall d, driver_initialized env d = true) ->
  own_driver_ready Sample.executor env.
Proof. intros H. exists "lvm". split; [reflexivity | apply H]. Qed.

(** X14. When the backup driver fails to delete the data of a backup
    that is [deleting], [delete_backup] raises the exception of the
    driver and keeps the row: the backup is set to [error] with the text
    of the exception as its reason and the executor as its host; no
    quota is touched and no volume changes. *)
Theorem delete_backup_driver_failure self env ctx backup_id w b e :
  own_driver_ready self env ->
  backups w !! backup_id = Some b ->
  b_status b = "deleting" ->
  Manager._map_service_to_driver (b_service b) =
    Some (Manager.driver_name self) ->
  drv_delete env backup_id = Some e ->
  exists w',
    Manager.delete_backup self env ctx backup_id w = (Raise e, w') /\
    (backups w' =
       <[backup_id :=
           backup_apply [BStatus "error"; BFailReason (text_type env e)]
             (taken_over self b)]> (backups w)) /\
    volumes w' = volumes w /\
    ledger w' = ledger w.
Proof.
  intros Hready Hb Hst Hsvc Hdrv. eexists. split.
  - unfold Manager.delete_backup. rewrite (guard_ready _ _ _ _ _ Hready).
    rewrite (bind_Ret _ _ _ _ _ (backup_get_run _ _ _ Hb)).
    rewrite (bind_Ret _ _ _ _ _ (backup_update_run _ _ _ _ Hb)).
    rewrite Hst, String.eqb_refl. cbn [negb].
    rewrite Hsvc, String.eqb_refl. cbn [negb].
    erewrite bind_Raise; [reflexivity|].
    unfold try_except, bind at 1, modify. rewrite Hdrv.
    unfold raise, save_and_reraise_exception.
    erewrite bind_Ret; cycle 1.
    { apply backup_update_run. simpl. apply lookup_insert_eq. }
    reflexivity.
  - simpl. repeat split. apply insert_insert_eq.
Qed.

Lemma delete_backup_driver_failure_witness :
  exists w',
    Manager.delete_backup Sample.executor unreachable_env Sample.admin
      "b1" deleting = (Raise (Failure "unreachable"), w') /\
    (backups w' =
       <[ "b1" :=
           backup_apply
             [BStatus "error"; BFailReason "object store unreachable"]
             (taken_over Sample.executor deleting_backup)]>
         (backups deleting)) /\
    volumes w' = volumes deleting /\
    ledger w' = ledger deleting.
Proof.
  apply (delete_backup_driver_failure Sample.executor unreachable_env
           Sample.admin "b1" deleting deleting_backup (Failure "unreachable")).
  - apply sample_own_driver_ready. reflexivity.
  - vm_compute; reflexivity.
  - reflexivity.
  - reflexivity.
  - reflexivity.
Defined.

(** [delete_backup] up to the point where the driver has deleted the
    data. *)
Lemma delete_backup_driver_done self env ctx backup_id w b :
  own_driver_ready self env ->
  backups w !! backup_id = Some b ->
  b_status b = "deleting" ->
  Manager._map_service_to_driver (b_service b) =
    Some (Manager.driver_name self) ->
  drv_delete env backup_id = None ->
  Manager.delete_backup self env ctx backup_id w =
  (reservations <-
     try_except
       (volume <- Db.volume_get (b_volume_id b) ;;
        rs <- Quotas.reserve env (b_project_id b) (-1) (- v_size volume) ;;
        ret (Some rs))
       (fun _ => ret None) ;;
   Db.backup_destroy backup_id ;;;
   match reservations with
   | Some (r :: rs) => Quotas.commit env (r :: rs)
   | _ => ret tt
   end)
    (with_event (EvDriverDelete backup_id)
       (with_backups (insert backup_id (taken_over self b)) w)).
Proof.
  intros Hready Hb Hst Hsvc Hdrv.
  unfold Manager.delete_backup. rewrite (guard_ready _ _ _ _ _ Hready).
  rewrite (bind_Ret _ _ _ _ _ (backup_get_run _ _ _ Hb)).
  rewrite (bind_Ret _ _ _ _ _ (backup_update_run _ _ _ _ Hb)).
  rewrite Hst, String.eqb_refl. cbn [negb].
  rewrite Hsvc, String.eqb_refl. cbn [negb].
  erewrite bind_Ret; [reflexivity|].
  unfold try_except, bind at 1, modify. rewrite Hdrv. reflexivity.
Qed.

(** X15. The quota correction of [delete_backup] is best effort: when
    the volume of the backup cannot be read, or the quota engine refuses
    the negative reservation, the backup is destroyed all the same,
    [delete_backup] returns normally and the ledger is left untouched: no
    quota is given back. *)
Theorem delete_backup_quota_best_effort self env ctx backup_id w b :
  own_driver_ready self env ->
  backups w !! backup_id = Some b ->
  b_status b = "deleting" ->
  Manager._map_service_to_driver (b_service b) =
    Some (Manager.driver_name self) ->
  drv_delete env backup_id = None ->
  (forall v w0, volumes w !! b_volume_id b = Some v ->
     exists e, quota_reserve env w0 (b_project_id b) (-1) (- v_size v) =
                 Raise e) ->
  exists w',
    Manager.delete_backup self env ctx backup_id w = (Ret tt, w') /\
    backups w' = delete backup_id (backups w) /\
    volumes w' = volumes w /\
    ledger w' = ledger w.
Proof.
  intros Hready Hb Hst Hsvc Hdrv Hq.
  rewrite (delete_backup_driver_done _ _ _ _ _ _ Hready Hb Hst Hsvc Hdrv).
  set (w1 := with_event _ _).
  assert (Hres :
    try_except
      (volume <- Db.volume_get (b_volume_id b) ;;
       rs <- Quotas.reserve env (b_project_id b) (-1) (- v_size volume) ;;
       ret (Some rs))
      (fun _ => ret None) w1 = (Ret None, w1)).
  { unfold try_except, bind, Db.volume_get. subst w1. simpl.
    destruct (volumes w !! b_volume_id b) as [v|] eqn:Hv; [|reflexivity].
    unfold Quotas.reserve.
    match goal with
    | |- context [quota_reserve env ?w0 _ _ _] =>
        destruct (Hq v w0 eq_refl) as (e & ->)
    end.
    reflexivity. }
  rewrite (bind_Ret _ _ _ _ _ Hres).
  eexists. split; [reflexivity|]. subst w1. simpl. repeat split.
  apply delete_insert_eq.
Qed.

Lemma delete_backup_quota_best_effort_witness :
  exists w',
    Manager.delete_backup Sample.executor Sample.env Sample.admin "b1"
      orphaned = (Ret tt, w') /\
    backups w' = delete "b1" (backups orphaned) /\
    volumes w' = volumes orphaned /\
    ledger w' = ledger orphaned.
Proof.
  apply (delete_backup_quota_best_effort Sample.executor Sample.env
           Sample.admin "b1" orphaned deleting_backup).
  - apply sample_own_driver_ready. reflexivity.
  - vm_compute; reflexivity.
  - reflexivity.
  - reflexivity.
  - reflexivity.
  - intros v w0 Hv. vm_compute in Hv. discriminate.
Defined.

(** The run of a [delete_backup] in which every step succeeds. *)
Lemma delete_backup_success self env ctx backup_id w b v r rs :
  own_driver_ready self env ->
  backups w !! backup_id = Some b ->
  b_status b = "deleting" ->
  Manager._map_service_to_driver (b_service b) =
    Some (Manager.driver_name self) ->
  drv_delete env backup_id = None ->
  volumes w !! b_volume_id b = Some v ->
  (forall w0, quota_reserve env w0 (b_project_id b) (-1) (- v_size v) =
                Ret (r :: rs)) ->
  (forall w0, quota_commit_fault env w0 (r :: rs) = None) ->
  Manager.delete_backup self env ctx backup_id w =
    (Ret tt,
     with_ledger (Quotas.mark Committed (r :: rs))
       (with_backups (delete backup_id)
          (with_ledger (Quotas.mark Pending (r :: rs))
             (with_event (EvDriverDelete backup_id)
                (with_backups (insert backup_id (taken_over self b)) w))))).
Proof.
  intros Hready Hb Hst Hsvc Hdrv Hv Hq Hc.
  rewrite (delete_backup_driver_done _ _ _ _ _ _ Hready Hb Hst Hsvc Hdrv).
  erewrite bind_Ret; cycle 1.
  { unfold try_except.
    erewrite bind_Ret; cycle 1.
    { apply volume_get_run. simpl. exact Hv. }
    unfold bind, Quotas.reserve. rewrite Hq. reflexivity. }
  unfold bind, Db.backup_destroy, modify, Quotas.commit. rewrite Hc.
  reflexivity.
Qed.

(** X16. A request followed by the delivery of its message: after an
    accepted [delete] and a [delete_backup] by an executor that runs the
    service of the backup and whose driver succeeds, the row of the
    backup is gone, no other record has changed, and a reservation of
    minus one backup and minus the size of the volume (not of the
    backup) has been committed for the project of the backup. *)
Theorem delete_round_trip self env ctx backup_id w b v r rs :
  backups w !! backup_id = Some b ->
  b_status b = "available" \/ b_status b = "error" ->
  ~ has_visible_child ctx backup_id w ->
  own_driver_ready self env ->
  Manager._map_service_to_driver (b_service b) =
    Some (Manager.driver_name self) ->
  drv_delete env backup_id = None ->
  volumes w !! b_volume_id b = Some v ->
  (forall w0, quota_reserve env w0 (b_project_id b) (-1) (- v_size v) =
                Ret (r :: rs)) ->
  (forall w0, quota_commit_fault env w0 (r :: rs) = None) ->
  exists w',
    (ctx' <- API.delete ctx backup_id ;;
     Manager.delete_backup self env ctx' backup_id) w = (Ret tt, w') /\
    backups w' = delete backup_id (backups w) /\
    volumes w' = volumes w /\
    (forall x, In x (r :: rs) -> ledger w' !! x = Some Committed) /\
    events w' =
      (events w ++
       [EvRpc (mkMsg Cast (b_host b) (ArgsDeleteBackup backup_id));
        EvDriverDelete backup_id])%list.
Proof.
  intros Hb Hst Hleaf Hready Hsvc Hdrv Hv Hq Hc.
  rewrite (bind_Ret _ _ _ _ _ (delete_run _ _ _ _ Hb Hst Hleaf)).
  eexists. split.
  - apply (delete_backup_success self env _ backup_id _
             (backup_set (BStatus "deleting") b) v r rs); try assumption.
    + unfold deletion_queued. simpl. apply lookup_insert_eq.
    + reflexivity.
  - unfold deletion_queued.
    cbn [backups volumes ledger events with_ledger with_backups with_event].
    split; [|split; [reflexivity|split]].
    + unfold taken_over. rewrite insert_insert_eq. apply delete_insert_eq.
    + intros x Hx. now apply mark_lookup.
    + now rewrite <- app_assoc.
Qed.

Lemma delete_round_trip_witness :
  exists w',
    (ctx' <- API.delete Sample.ctx "b1" ;;
     Manager.delete_backup Sample.executor Sample.env ctx' "b1") after_backup
      = (Ret tt, w') /\
    backups w' = delete "b1" (backups after_backup) /\
    volumes w' = volumes after_backup /\
    (forall x, In x ["r1"] -> ledger w' !! x = Some Committed) /\
    events w' =
      (events after_backup ++
       [EvRpc (mkMsg Cast (Some "node1@lvm") (ArgsDeleteBackup "b1"));
        EvDriverDelete "b1"])%list.
Proof.
  apply (delete_round_trip Sample.executor Sample.env Sample.ctx "b1"
           after_backup finished_backup
           (Sample.volume "available" 10 None [] "lvm") "r1" []).
  - vm_compute; reflexivity.
  - left; reflexivity.
  - apply children_nil_iff. vm_compute. reflexivity.
  - apply sample_own_driver_ready. reflexivity.
  - reflexivity.
  - reflexivity.
  - vm_compute; reflexivity.
  - reflexivity.
  - reflexivity.
Defined.

(** ** The executor's [create_backup] and the worker of an instance
    group *)

(** The guarded driver call of [create_backup]. *)
Lemma driver_call_run self env backend backup_id w :
  backup_driver_keeps_rows env ->
  exists r w',
    (driver <- lift (Manager._get_driver self (Some backend)) ;;
     Manager.require_driver_initialized env driver ;;;
     modify (with_event (EvDriverBackup backup_id)) ;;;
     result <- drv_backup_volume env backend backup_id ;;
     ret (default (mkBackupResult None None) result)) w = (r, w') /\
    rows_kept w w'.
Proof.
  intros Hk. unfold bind, lift.
  destruct (Manager._get_driver self (Some backend)) as [d|e].
  2:{ do 2 eexists. split; [reflexivity|]. split; auto. }
  unfold Manager.require_driver_initialized.
  destruct (driver_initialized env d).
  2:{ do 2 eexists. split; [reflexivity|]. split; auto. }
  unfold ret, modify.
  destruct (drv_backup_volume env backend backup_id
              (with_event (EvDriverBackup backup_id) w)) as [[res|e] w1] eqn:Hd;
    do 2 eexists; (split; [reflexivity|]); apply (Hk _ _ _ _ _ Hd).
Qed.

(** X17. Whatever [create_backup] does for a volume found [backing-up]
    (the backup not [creating], the backend or the driver not ready, the
    driver failing or succeeding), it puts the volume back to [available],
    and the backup ends [available] exactly when it returns and [error]
    when it raises.  The driver is only assumed to remove no row. *)
Theorem create_backup_releases_volume self env ctx backup_id w b v r w' :
  backup_driver_keeps_rows env ->
  backups w !! backup_id = Some b ->
  volumes w !! b_volume_id b = Some v ->
  v_status v = Some "backing-up" ->
  mgr_volume_managers self <> [] ->
  Manager.create_backup self env ctx backup_id w = (r, w') ->
  volume_status w' (b_volume_id b) = Some (Some "available") /\
  ((r = Ret tt /\ backup_status w' backup_id = Some "available") \/
   (exists e, r = Raise e /\ backup_status w' backup_id = Some "error")).
Proof.
  intros Hk Hb Hv Hst Hm. unfold Manager.create_backup.
  rewrite (bind_Ret _ _ _ _ _ (backup_get_run _ _ _ Hb)).
  rewrite (bind_Ret _ _ _ _ _ (volume_get_run _ _ _ Hv)).
  destruct (get_volume_backend_some self
              (extract_host env (v_host v) LevelBackend) Hm) as (backend & Hbe).
  rewrite Hbe.
  rewrite (bind_Ret _ _ w backend w) by reflexivity.
  rewrite (bind_Ret _ _ _ _ _ (backup_update_run _ _ _ _ Hb)).
  set (w0 := with_backups _ w).
  assert (Hv0 : is_Some (volumes w0 !! b_volume_id b)) by (simpl; eauto).
  assert (Hb0 : is_Some (backups w0 !! backup_id)).
  { subst w0. simpl. rewrite lookup_insert_eq. eauto. }
  unfold status_is. rewrite Hst.
  rewrite bool_decide_eq_true_2 by reflexivity. cbn [negb].
  destruct (negb (String.eqb (b_status b) "creating")).
  - destruct (volume_update_status (b_volume_id b) (Some "available") w0 Hv0)
      as (v' & w1 & Hr1 & Hs1 & Hb1).
    rewrite (bind_Ret _ _ _ _ _ Hr1).
    edestruct (backup_update_status backup_id "error") with (w := w1)
      as (b' & w2 & Hr2 & Hs2 & Hv2); cycle 2.
    { rewrite (bind_Ret _ _ _ _ _ Hr2). intros [= <- <-]. split.
      - unfold volume_status in *. now rewrite Hv2.
      - right. eauto. }
    { now rewrite Hb1. }
    { reflexivity. }
  - destruct (driver_call_run self env backend backup_id w0 Hk)
      as (r1 & w1 & Hrun & Hkept).
    destruct Hkept as [Hkv Hkb].
    destruct r1 as [res|err].
    + erewrite bind_Ret; cycle 1.
      { unfold try_except. rewrite Hrun. reflexivity. }
      edestruct (finish_run (b_volume_id b) backup_id (Some "available"))
        with (w := w1) as (w2 & Hr2 & Hs2 & Hbs2); cycle 3.
      { match goal with
        | |- ?m w1 = _ -> _ =>
            change (m w1) with
              ((_ <- Db.volume_update (b_volume_id b)
                       [VStatus (Some "available")] ;;
                _ <- Db.backup_update backup_id
                       [BStatus "available"; BSize (res_size res);
                        BAvailabilityZone (mgr_az self);
                        BContainer (default (b_container b)
                                      (res_container res))] ;;
                ret tt) w1)
        end.
        rewrite Hr2. intros [= <- <-]. split; [exact Hs2|]. left. auto. }
      { auto. }
      { auto. }
      { reflexivity. }
    + destruct (revert_run (A := BackupResult) (b_volume_id b) backup_id
                  (Some "available") (text_type env err) err w1)
        as (w2 & Hr2 & Hs2 & Hbs2); [auto | auto |].
      erewrite bind_Raise; cycle 1.
      { unfold try_except. rewrite Hrun. exact Hr2. }
      intros [= <- <-]. split; [exact Hs2|]. right. eauto.
Qed.

Lemma sample_backup_driver_keeps_rows : backup_driver_keeps_rows Sample.env.
Proof. intros backend id w r w' [= _ <-]. split; auto. Qed.

Lemma create_backup_releases_volume_witness :
  volume_status
    (Manager.create_backup Sample.executor Sample.env Sample.admin "b3"
       group).2 "v3" = Some (Some "available") /\
  backup_status
    (Manager.create_backup Sample.executor Sample.env Sample.admin "b3"
       group).2 "b3" = Some "available".
Proof.
  destruct (create_backup_releases_volume Sample.executor Sample.env
              Sample.admin "b3" group
              (Sample.backup "v3" "creating" (Some 0) (Some "g") None 10)
              group_volume (Ret tt)
              (Manager.create_backup Sample.executor Sample.env Sample.admin
                 "b3" group).2) as [Hv Hb].
  - exact sample_backup_driver_keeps_rows.
  - vm_compute; reflexivity.
  - vm_compute; reflexivity.
  - reflexivity.
  - discriminate.
  - vm_compute; reflexivity.
  - split; [exact Hv|].
    destruct Hb as [[_ Hb] | (e & He & _)]; [exact Hb | discriminate He].
Defined.

(** X18. The worker of a member of an instance group,
    [_create_backup_for_instance_backup], puts the volume back into the
    status stored in its description, not into [available]: whatever the
    worker does for a volume found [backing-up], the volume ends with that
    status, and the backup ends [available] exactly when the worker
    returns and [error] when it raises. *)
Theorem instance_member_backup_restores_stash self env ctx backup_id w b v r
    w' :
  backup_driver_keeps_rows env ->
  backups w !! backup_id = Some b ->
  volumes w !! b_volume_id b = Some v ->
  v_status v = Some "backing-up" ->
  mgr_volume_managers self <> [] ->
  Manager._create_backup_for_instance_backup self env ctx backup_id w =
    (r, w') ->
  volume_status w' (b_volume_id b) = Some (v_display_description v) /\
  ((r = Ret tt /\ backup_status w' backup_id = Some "available") \/
   (exists e, r = Raise e /\ backup_status w' backup_id = Some "error")).
Proof.
  intros Hk Hb Hv Hst Hm. unfold Manager._create_backup_for_instance_backup.
  rewrite (bind_Ret _ _ _ _ _ (backup_get_run _ _ _ Hb)).
  rewrite (bind_Ret _ _ _ _ _ (volume_get_run _ _ _ Hv)).
  destruct (get_volume_backend_some self
              (extract_host env (v_host v) LevelBackend) Hm) as (backend & Hbe).
  rewrite Hbe.
  rewrite (bind_Ret _ _ w backend w) by reflexivity.
  rewrite (bind_Ret _ _ _ _ _ (backup_update_run _ _ _ _ Hb)).
  set (w0 := with_backups _ w).
  assert (Hv0 : is_Some (volumes w0 !! b_volume_id b)) by (simpl; eauto).
  assert (Hb0 : is_Some (backups w0 !! backup_id)).
  { subst w0. simpl. rewrite lookup_insert_eq. eauto. }
  unfold status_is. rewrite Hst.
  rewrite bool_decide_eq_true_2 by reflexivity. cbn [negb].
  destruct (negb (String.eqb (b_status b) "creating")).
  - destruct (volume_update_status (b_volume_id b) (v_display_description v)
                w0 Hv0) as (v' & w1 & Hr1 & Hs1 & Hb1).
    rewrite (bind_Ret _ _ _ _ _ Hr1).
    edestruct (backup_update_status backup_id "error") with (w := w1)
      as (b' & w2 & Hr2 & Hs2 & Hv2); cycle 2.
    { rewrite (bind_Ret _ _ _ _ _ Hr2). intros [= <- <-]. split.
      - unfold volume_status in *. now rewrite Hv2.
      - right. eauto. }
    { now rewrite Hb1. }
    { reflexivity. }
  - destruct (driver_call_run self env backend backup_id w0 Hk)
      as (r1 & w1 & Hrun & Hkept).
    destruct Hkept as [Hkv Hkb].
    destruct r1 as [res|err].
    + erewrite bind_Ret; cycle 1.
      { unfold try_except. rewrite Hrun. reflexivity. }
      edestruct (finish_run (b_volume_id b) backup_id
                   (v_display_description v))
        with (w := w1) as (w2 & Hr2 & Hs2 & Hbs2); cycle 3.
      { match goal with
        | |- ?m w1 = _ -> _ =>
            change (m w1) with
              ((_ <- Db.volume_update (b_volume_id b)
                       [VStatus (v_display_description v)] ;;
                _ <- Db.backup_update backup_id
                       [BStatus "available"; BSize (res_size res);
                        BAvailabilityZone (mgr_az self);
                        BContainer (default (b_container b)
                                      (res_container res))] ;;
                ret tt) w1)
        end.
        rewrite Hr2. intros [= <- <-]. split; [exact Hs2|]. left. auto. }
      { auto. }
      { auto. }
      { reflexivity. }
    + destruct (revert_run (A := BackupResult) (b_volume_id b) backup_id
                  (v_display_description v) (text_type env err) err w1)
        as (w2 & Hr2 & Hs2 & Hbs2); [auto | auto |].
      erewrite bind_Raise; cycle 1.
      { unfold try_except. rewrite Hrun. exact Hr2. }
      intros [= <- <-]. split; [exact Hs2|]. right. eauto.
Qed.

Lemma instance_member_backup_restores_stash_witness :
  volume_status
    (Manager._create_backup_for_instance_backup Sample.executor Sample.env
       Sample.admin "b3" group).2 "v3" = Some (Some "in-use") /\
  backup_status
    (Manager._create_backup_for_instance_backup Sample.executor Sample.env
       Sample.admin "b3" group).2 "b3" = Some "available".
Proof.
  destruct (instance_member_backup_restores_stash Sample.executor Sample.env
              Sample.admin "b3" group
              (Sample.backup "v3" "creating" (Some 0) (Some "g") None 10)
              group_volume (Ret tt)
              (Manager._create_backup_for_instance_backup Sample.executor
                 Sample.env Sample.admin "b3" group).2) as [Hv Hb].
  - exact sample_backup_driver_keeps_rows.
  - vm_compute; reflexivity.
  - vm_compute; reflexivity.
  - reflexivity.
  - discriminate.
  - vm_compute; reflexivity.
  - split; [exact Hv|].
    destruct Hb as [[_ Hb] | (e & He & _)]; [exact Hb | discriminate He].
Defined.

(** ** Export of a backup record ([export_record]) *)

(** X19. The executor's [export_record] is read-only and fails in one
    way: whatever it does, no volume, no backup and no reservation
    changes, and the only exceptions it raises are [BackupNotFound] for an
    unknown backup and [InvalidBackup]; a failure of the driver is turned
    into [InvalidBackup]. *)
Theorem export_record_read_only self env ctx backup_id w r w' :
  Manager.export_record self env ctx backup_id w = (r, w') ->
  volumes w' = volumes w /\
  backups w' = backups w /\
  ledger w' = ledger w /\
  (forall e, r = Raise e ->
     e = BackupNotFound backup_id \/ exists reason, e = InvalidBackup reason).
Proof.
  unfold Manager.export_record, bind, Db.backup_get.
  destruct (backups w !! backup_id) as [b|].
  2:{ intros [= <- <-]. repeat split. intros e [= <-]. now left. }
  destruct (negb (String.eqb (b_status b) "available")).
  { intros [= <- <-]. repeat split. intros e [= <-]. right. eauto. }
  destruct (negb (bool_decide _)).
  { intros [= <- <-]. repeat split. intros e [= <-]. right. eauto. }
  unfold try_except, Manager.require_own_driver, bind, lift.
  destruct (Manager._get_driver self None) as [d|e0].
  2:{ intros [= <- <-]. repeat split. intros e [= <-]. right. eauto. }
  unfold Manager.require_driver_initialized.
  destruct (driver_initialized env d).
  2:{ intros [= <- <-]. repeat split. intros e [= <-]. right. eauto. }
  unfold ret, modify.
  destruct (drv_export_record env backup_id) as [url|e0].
  - intros [= <- <-]. repeat split. intros e. discriminate.
  - intros [= <- <-]. repeat split. intros e [= <-]. right. eauto.
Qed.

Lemma export_record_read_only_witness :
  (Manager.export_record Sample.executor Sample.env Sample.ctx "b1"
     after_backup).1 =
    Ret (mkBackupRecord (Some "cinder.backup.drivers.swift") "url") /\
  backups
    (Manager.export_record Sample.executor Sample.env Sample.ctx "b1"
       after_backup).2 = backups after_backup.
Proof.
  destruct (export_record_read_only Sample.executor Sample.env Sample.ctx
              "b1" after_backup
              (Ret (mkBackupRecord (Some "cinder.backup.drivers.swift")
                      "url"))
              (Manager.export_record Sample.executor Sample.env Sample.ctx
                 "b1" after_backup).2) as (_ & Hb & _).
  - vm_compute; reflexivity.
  - split; [vm_compute; reflexivity | exact Hb].
Defined.

(** ** The start-up sweep ([init_host]) *)

Lemma for_each_others {V} (R : string -> World -> World -> Prop)
    (Q : World -> Prop) (body : string * V -> M unit)
    (rows : list (string * V)) k :
  (forall row, In row rows -> row.1 <> k) ->
  (forall row, preserves (R row.1) (body row)) ->
  (forall k' w1 w2, k' <> k -> R k' w1 w2 -> Q w1 -> Q w2) ->
  forall w r w', Q w -> for_each rows body w = (r, w') -> Q w'.
Proof.
  intros Hne Hbody Hkeep.
  induction rows as [|row rows IH]; intros w r w' HQ; simpl.
  - now intros [= _ <-].
  - unfold bind. destruct (body row w) as [[[]|e] w1] eqn:Hrun.
    + apply IH.
      * intros row' Hin. apply Hne. now right.
      * eapply Hkeep; [apply Hne; now left | eapply Hbody; eauto | exact HQ].
    + intros [= _ <-].
      eapply Hkeep; [apply Hne; now left | eapply Hbody; eauto | exact HQ].
Qed.

Lemma for_each_keyed_inv {V} (R : string -> World -> World -> Prop)
    (P Q : World -> Prop) (body : string * V -> M unit)
    (rows : list (string * V)) k x :
  NoDup (rows.*1) ->
  In (k, x) rows ->
  (forall row, preserves (R row.1) (body row)) ->
  (forall k' w1 w2, k' <> k -> R k' w1 w2 -> P w1 -> P w2) ->
  (forall w1 w2, P w1 -> body (k, x) w1 = (Ret tt, w2) -> Q w2) ->
  (forall k' w1 w2, k' <> k -> R k' w1 w2 -> Q w1 -> Q w2) ->
  forall w w', P w -> for_each rows body w = (Ret tt, w') -> Q w'.
Proof.
  intros Hnd Hin Hbody HP Hstep HQ.
  induction rows as [|row rows IH]; [destruct Hin|].
  intros w w' Hw Hrun. simpl in Hrun.
  apply bind_Ret_inv in Hrun as ([] & w1 & Hrow & Hrest).
  simpl in Hnd. apply NoDup_cons in Hnd as [Hnotin Hnd].
  destruct Hin as [-> | Hin].
  - eapply (for_each_others R Q body rows k); [| exact Hbody | exact HQ | | exact Hrest].
    + intros row' Hin' Heq. apply Hnotin. simpl. rewrite <- Heq.
      apply list_elem_of_fmap. exists row'. split; [reflexivity|].
      now apply list_elem_of_In.
    + eapply Hstep; eauto.
  - assert (Hne : row.1 <> k).
    { intros Heq. apply Hnotin. rewrite Heq.
      apply list_elem_of_fmap. exists (k, x). split; [reflexivity|].
      now apply list_elem_of_In. }
    eapply (IH Hnd Hin w1 w'); [|exact Hrest].
    eapply HP; [exact Hne | eapply Hbody; eauto | exact Hw].
Qed.

Lemma delete_backup_completes self env ctx backup_id w b :
  own_driver_ready self env ->
  backups w !! backup_id = Some b ->
  b_status b = "deleting" ->
  Manager._map_service_to_driver (b_service b) =
    Some (Manager.driver_name self) ->
  drv_delete env backup_id = None ->
  (forall w0 rs, quota_commit_fault env w0 rs = None) ->
  exists w',
    Manager.delete_backup self env ctx backup_id w = (Ret tt, w') /\
    backups w' = delete backup_id (backups w) /\
    volumes w' = volumes w.
Proof.
  intros Hready Hb Hst Hsvc Hdrv Hc.
  rewrite (delete_backup_driver_done _ _ _ _ _ _ Hready Hb Hst Hsvc Hdrv).
  set (w1 := with_event _ _).
  assert (Hres : exists res w2,
    try_except
      (volume <- Db.volume_get (b_volume_id b) ;;
       rs <- Quotas.reserve env (b_project_id b) (-1) (- v_size volume) ;;
       ret (Some rs))
      (fun _ => ret None) w1 = (Ret res, w2) /\
    backups w2 = backups w1 /\ volumes w2 = volumes w1).
  { unfold try_except, bind, Db.volume_get.
    destruct (volumes w1 !! b_volume_id b) as [v|].
    - unfold Quotas.reserve.
      destruct (quota_reserve env w1 (b_project_id b) (-1) (- v_size v));
        do 2 eexists; (split; [reflexivity|]); split; reflexivity.
    - do 2 eexists. split; [reflexivity|]. split; reflexivity. }
  destruct Hres as (res & w2 & Hres & Hb2 & Hv2).
  rewrite (bind_Ret _ _ _ _ _ Hres).
  destruct (destroy_then_commit env backup_id res w2 Hc)
    as (w3 & Hrun & Hb3 & Hv3 & _).
  exists w3. split; [exact Hrun|]. split.
  - rewrite Hb3, Hb2. subst w1. simpl. apply delete_insert_eq.
  - rewrite Hv3, Hv2. reflexivity.
Qed.

(** The backup rows are as the volume loop of the sweep found them. *)
Lemma init_host_Ret_inv self env ctxt w w' :
  detach_keeps_records env ->
  Manager.init_host self env ctxt w = (Ret tt, w') ->
  exists w1,
    backups w1 = backups w /\
    for_each
      (List.filter (fun r => bool_decide (b_host r.2 = Some (mgr_host self)))
         (Db.backup_rows w1))
      (Manager.sweep_backup self env ctxt) w1 = (Ret tt, w').
Proof.
  intros Hd Hrun. unfold Manager.init_host in Hrun.
  apply bind_Ret_inv in Hrun as (vrows & w0 & Hvrows & Hrun).
  unfold Db.volume_get_all_by_host in Hvrows.
  inversion Hvrows; subst vrows w0; clear Hvrows.
  apply bind_Ret_inv in Hrun as ([] & w1 & Hvols & Hrun).
  apply bind_Ret_inv in Hrun as (brows & w2 & Hbrows & Hrun).
  unfold Db.backup_get_all_by_host in Hbrows.
  inversion Hbrows; subst brows w2; clear Hbrows.
  exists w1. split; [|exact Hrun].
  eapply (preserves_for_each same_backups); [reflexivity
    | exact same_backups_trans | | exact Hvols].
  intros row _. eapply preserves_weaken;
    [|apply sweep_volume_volumes_but; exact Hd].
  intros ? ? (Heq & _). exact Heq.
Qed.

Lemma sweep_backup_restoring self env ctxt k b w w' :
  b_status b = "restoring" ->
  backups w !! k = Some b ->
  Manager.sweep_backup self env ctxt (k, b) w = (Ret tt, w') ->
  backups w' !! k = Some (backup_set (BStatus "available") b).
Proof.
  intros Hst Hb. unfold Manager.sweep_backup. cbn [fst snd].
  rewrite Hst. cbn [String.eqb Ascii.eqb Bool.eqb].
  rewrite (bind_Ret _ _ w tt w) by reflexivity.
  erewrite bind_Ret; cycle 1.
  { rewrite (bind_Ret _ _ _ _ _ (backup_update_run _ _ _ _ Hb)).
    reflexivity. }
  intros [= <-]. simpl. apply lookup_insert_eq.
Qed.

(** X20. On start-up, a backup of the host found [restoring] is set
    back to [available], with the rest of its row unchanged; the sweep
    completes when the backend of the executor is registered and its
    volume manager does not refuse a detach. *)
Theorem init_host_releases_restoring self env ctxt w backup_id b :
  detach_keeps_records env ->
  detach_succeeds env ->
  backend_registered self ->
  backups w !! backup_id = Some b ->
  b_host b = Some (mgr_host self) ->
  b_status b = "restoring" ->
  exists w',
    Manager.init_host self env ctxt w = (Ret tt, w') /\
    backups w' !! backup_id = Some (backup_set (BStatus "available") b).
Proof.
  intros Hd Hs Hreg Hb Hh Hst.
  destruct (init_host_completes self env ctxt w Hd Hs Hreg) as [w' Hrun].
  exists w'. split; [exact Hrun|].
  destruct (init_host_Ret_inv _ _ _ _ _ Hd Hrun) as (w1 & Hb1 & Hloop).
  eapply (for_each_keyed_inv backups_but
            (fun w0 => backups w0 !! backup_id = Some b)
            (fun w0 => backups w0 !! backup_id =
                         Some (backup_set (BStatus "available") b)));
    [| | | | | | |exact Hloop].
  - apply NoDup_fst_filter. apply NoDup_fst_map_to_list.
  - unfold Db.backup_rows. rewrite Hb1.
    apply In_filter_rows; [exact Hb|]. simpl.
    apply bool_decide_eq_true_2. exact Hh.
  - intros row. apply sweep_backup_backups_but.
  - intros k' w3 w4 Hne Hframe.
    now rewrite (backups_but_lookup _ _ _ _ Hne Hframe).
  - intros w3 w4 HP. now apply sweep_backup_restoring.
  - intros k' w3 w4 Hne Hframe.
    now rewrite (backups_but_lookup _ _ _ _ Hne Hframe).
  - now rewrite Hb1.
Qed.

Lemma init_host_releases_restoring_witness :
  exists w',
    Manager.init_host Sample.executor Sample.env Sample.admin
      crashed_restoring = (Ret tt, w') /\
    backups w' !! "b1" =
      Some (backup_set (BStatus "available")
              (Sample.backup "v1" "restoring" (Some 512) (Some "nightly")
                 None 10)).
Proof.
  apply (init_host_releases_restoring Sample.executor Sample.env Sample.admin
           crashed_restoring "b1").
  - exact sample_detach_keeps_records.
  - exact sample_detach_succeeds.
  - exact sample_backend_registered.
  - vm_compute; reflexivity.
  - reflexivity.
  - reflexivity.
Defined.

Lemma sweep_backup_deleting self env ctxt k b w w' :
  own_driver_ready self env ->
  Manager._map_service_to_driver (b_service b) =
    Some (Manager.driver_name self) ->
  drv_delete env k = None ->
  (forall w0 rs, quota_commit_fault env w0 rs = None) ->
  b_status b = "deleting" ->
  backups w !! k = Some b ->
  Manager.sweep_backup self env ctxt (k, b) w = (Ret tt, w') ->
  backups w' !! k = None.
Proof.
  intros Hready Hsvc Hdrv Hc Hst Hb. unfold Manager.sweep_backup.
  cbn [fst snd]. rewrite Hst. cbn [String.eqb Ascii.eqb Bool.eqb].
  rewrite (bind_Ret _ _ w tt w) by reflexivity.
  rewrite (bind_Ret _ _ w tt w) by reflexivity.
  destruct (delete_backup_completes self env ctxt k w b Hready Hb Hst Hsvc
              Hdrv Hc) as (w2 & Hrun & Hb2 & _).
  unfold try_except. rewrite Hrun. intros [= <-].
  rewrite Hb2. apply lookup_delete_eq.
Qed.

(** X21. On start-up, the deletion of a backup of the host found
    [deleting] is carried out: when the executor runs the service of the
    backup and the driver deletes the data, the row is gone after the
    sweep. *)
Theorem init_host_resumes_deletion self env ctxt w backup_id b :
  detach_keeps_records env ->
  detach_succeeds env ->
  backend_registered self ->
  own_driver_ready self env ->
  (forall w0 rs, quota_commit_fault env w0 rs = None) ->
  backups w !! backup_id = Some b ->
  b_host b = Some (mgr_host self) ->
  b_status b = "deleting" ->
  Manager._map_service_to_driver (b_service b) =
    Some (Manager.driver_name self) ->
  drv_delete env backup_id = None ->
  exists w',
    Manager.init_host self env ctxt w = (Ret tt, w') /\
    backups w' !! backup_id = None.
Proof.
  intros Hd Hs Hreg Hready Hc Hb Hh Hst Hsvc Hdrv.
  destruct (init_host_completes self env ctxt w Hd Hs Hreg) as [w' Hrun].
  exists w'. split; [exact Hrun|].
  destruct (init_host_Ret_inv _ _ _ _ _ Hd Hrun) as (w1 & Hb1 & Hloop).
  eapply (for_each_keyed_inv backups_but
            (fun w0 => backups w0 !! backup_id = Some b)
            (fun w0 => backups w0 !! backup_id = None));
    [| | | | | | |exact Hloop].
  - apply NoDup_fst_filter. apply NoDup_fst_map_to_list.
  - unfold Db.backup_rows. rewrite Hb1.
    apply In_filter_rows; [exact Hb|]. simpl.
    apply bool_decide_eq_true_2. exact Hh.
  - intros row. apply sweep_backup_backups_but.
  - intros k' w3 w4 Hne Hframe.
    now rewrite (backups_but_lookup _ _ _ _ Hne Hframe).
  - intros w3 w4 HP. now apply sweep_backup_deleting.
  - intros k' w3 w4 Hne Hframe.
    now rewrite (backups_but_lookup _ _ _ _ Hne Hframe).
  - now rewrite Hb1.
Qed.

Lemma init_host_resumes_deletion_witness :
  exists w',
    Manager.init_host Sample.executor Sample.env Sample.admin deleting =
      (Ret tt, w') /\
    backups w' !! "b1" = None.
Proof.
  apply (init_host_resumes_deletion Sample.executor Sample.env Sample.admin
           deleting "b1" deleting_backup).
  - exact sample_detach_keeps_records.
  - exact sample_detach_succeeds.
  - exact sample_backend_registered.
  - apply sample_own_driver_ready. reflexivity.
  - reflexivity.
  - vm_compute; reflexivity.
  - reflexivity.
  - reflexivity.
  - reflexivity.
  - reflexivity.
Defined.

Lemma sweep_backup_settled self env ctxt k b w :
  b_status b <> "creating" ->
  b_status b <> "restoring" ->
  b_status b <> "deleting" ->
  Manager.sweep_backup self env ctxt (k, b) w = (Ret tt, w).
Proof.
  intros H1 H2 H3. unfold Manager.sweep_backup. cbn [fst snd].
  rewrite (string_eqb_neq _ _ H1), (string_eqb_neq _ _ H2),
    (string_eqb_neq _ _ H3).
  reflexivity.
Qed.

(** X22. The sweep, whether it completes or raises, leaves alone
    every backup that belongs to another host or is not [creating],
    [restoring] or [deleting], and every volume that belongs to another
    host, has no attachment, or is neither [backing-up] nor
    [restoring-backup]. *)
Theorem init_host_touches_only_interrupted self env ctxt w r w' :
  detach_keeps_records env ->
  Manager.init_host self env ctxt w = (r, w') ->
  (forall k b,
     backups w !! k = Some b ->
     b_host b <> Some (mgr_host self) \/
     (b_status b <> "creating" /\ b_status b <> "restoring" /\
      b_status b <> "deleting") ->
     backups w' !! k = Some b) /\
  (forall k v,
     volumes w !! k = Some v ->
     extract_host env (v_host v) LevelBackend <> mgr_host self \/
     v_volume_attachment v = [] \/
     (v_status v <> Some "backing-up" /\
      v_status v <> Some "restoring-backup") ->
     volumes w' !! k = Some v).
Proof.
  intros Hd Hrun. unfold Manager.init_host in Hrun.
  unfold bind at 1, Db.volume_get_all_by_host in Hrun.
  set (vrows := List.filter _ (Db.volume_rows w)) in Hrun.
  unfold bind at 1 in Hrun.
  destruct (for_each vrows (Manager.sweep_volume self env) w)
    as [r1 w1] eqn:Hvols.
  assert (Hb1 : backups w1 = backups w).
  { eapply (preserves_for_each same_backups); [reflexivity
      | exact same_backups_trans | | exact Hvols].
    intros row _. eapply preserves_weaken;
      [|apply sweep_volume_volumes_but; exact Hd].
    intros ? ? (Heq & _). exact Heq. }
  assert (Hv1 : forall k v,
    volumes w !! k = Some v ->
    extract_host env (v_host v) LevelBackend <> mgr_host self \/
    v_volume_attachment v = [] \/
    (v_status v <> Some "backing-up" /\
     v_status v <> Some "restoring-backup") ->
    volumes w1 !! k = Some v).
  { intros k v Hv Hwhy.
    apply (for_each_inv (fun w0 => volumes w0 !! k = Some v)
             (Manager.sweep_volume self env) vrows) with (w := w) (r := r1);
      [|exact Hv|exact Hvols].
    intros [k' v'] w2 r2 w3 Hin HQ Hbody.
    apply In_rows_lookup in Hin as [Hlook Hf]. simpl in Hlook, Hf.
    apply bool_decide_eq_true_1 in Hf.
    destruct (decide (k' = k)) as [->|Hne].
    - rewrite Hv in Hlook. inversion Hlook; subst v'.
      destruct Hwhy as [Hh | Hwhy]; [contradiction|].
      rewrite (sweep_volume_settled _ _ _ _ _ _ _ Hwhy Hbody). exact HQ.
    - pose proof (sweep_volume_volumes_but self env (k', v') Hd _ _ _ Hbody)
        as Hframe.
      now rewrite (volumes_but_lookup _ _ _ _ Hne Hframe). }
  destruct r1 as [[]|e1].
  2:{ inversion Hrun; subst. split.
      - intros k b Hb _. now rewrite Hb1.
      - exact Hv1. }
  unfold bind at 1, Db.backup_get_all_by_host in Hrun.
  set (brows := List.filter _ (Db.backup_rows w1)) in Hrun.
  assert (Hv2 : volumes w' = volumes w1).
  { eapply (preserves_for_each same_volumes); [reflexivity
      | exact same_volumes_trans | | exact Hrun].
    intros row _. eapply preserves_weaken;
      [|apply sweep_backup_backups_but].
    intros ? ? (Heq & _). exact Heq. }
  split.
  - intros k b Hb Hwhy.
    apply (for_each_inv (fun w0 => backups w0 !! k = Some b)
             (Manager.sweep_backup self env ctxt) brows) with (w := w1) (r := r);
      [| now rewrite Hb1 | exact Hrun].
    intros [k' b'] w2 r2 w3 Hin HQ Hbody.
    apply In_rows_lookup in Hin as [Hlook Hf]. simpl in Hlook, Hf.
    apply bool_decide_eq_true_1 in Hf.
    destruct (decide (k' = k)) as [->|Hne].
    + rewrite Hb1, Hb in Hlook. inversion Hlook; subst b'.
      destruct Hwhy as [Hh | (H1 & H2 & H3)]; [contradiction|].
      rewrite (sweep_backup_settled self env ctxt k b w2 H1 H2 H3) in Hbody.
      inversion Hbody; subst. exact HQ.
    + pose proof (sweep_backup_backups_but self env ctxt (k', b') _ _ _ Hbody)
        as Hframe.
      now rewrite (backups_but_lookup _ _ _ _ Hne Hframe).
  - intros k v Hv Hwhy. rewrite Hv2. now apply Hv1.
Qed.

Lemma init_host_touches_only_interrupted_witness :
  backups
    (Manager.init_host Sample.executor Sample.env Sample.admin two_hosts).2
    !! "b2" = Some (backup_set (BHost "node2@lvm") interrupted_backup) /\
  backups
    (Manager.init_host Sample.executor Sample.env Sample.admin two_hosts).2
    !! "b3" = Some finished_backup /\
  volumes
    (Manager.init_host Sample.executor Sample.env Sample.admin two_hosts).2
    !! "v2" = Some (Sample.volume "backing-up" 10 None [] "lvm").
Proof.
  destruct (init_host_touches_only_interrupted Sample.executor Sample.env
              Sample.admin two_hosts
              (Manager.init_host Sample.executor Sample.env Sample.admin
                 two_hosts).1
              (Manager.init_host Sample.executor Sample.env Sample.admin
                 two_hosts).2 sample_detach_keeps_records)
    as [Hb Hv].
  - vm_compute; reflexivity.
  - split; [|split].
    + apply Hb; [vm_compute; reflexivity | left; discriminate].
    + apply Hb; [vm_compute; reflexivity | right; repeat split; discriminate].
    + apply Hv; [vm_compute; reflexivity | right; left; reflexivity].
Defined.

(** ** Names of services and backends *)

(** X23. Mapping a service name to a driver name is idempotent, and the
    driver name of an executor is a fixed point of it: a backup whose
    service was written by an executor passes the service check of that
    executor, also when the executor is configured with one of the old
    service names. *)
Theorem service_name_mapping_idempotent service self :
  Manager._map_service_to_driver (Manager._map_service_to_driver service) =
    Manager._map_service_to_driver service /\
  Manager._map_service_to_driver (Some (Manager.driver_name self)) =
    Some (Manager.driver_name self).
Proof.
  assert (Hidem : forall s,
    Manager._map_service_to_driver (Manager._map_service_to_driver s) =
      Manager._map_service_to_driver s).
  { intros [s|]; [|reflexivity]. unfold Manager._map_service_to_driver.
    unfold Manager.mapper, Manager.assoc.
    destruct (String.eqb s "cinder.backup.services.swift") eqn:H1;
      [reflexivity|].
    destruct (String.eqb s "cinder.backup.services.ceph") eqn:H2;
      [reflexivity|].
    now rewrite H1, H2. }
  split; [apply Hidem|].
  unfold Manager.driver_name.
  specialize (Hidem (Some (mgr_backup_driver self))).
  destruct (Manager._map_service_to_driver (Some (mgr_backup_driver self)))
    as [d|] eqn:Hd; [exact Hidem|].
  unfold Manager._map_service_to_driver in Hd.
  destruct (Manager.assoc _ _); discriminate.
Qed.

Lemma contains_at_cons c s :
  PyStr.contains "@" (String c s) = false ->
  Ascii.eqb c "@" = false /\ PyStr.contains "@" s = false.
Proof.
  simpl. intros H. apply orb_false_iff in H as [H1 H2].
  split; [|exact H2].
  destruct (ascii_dec "@" c) as [<-|Hne].
  - destruct s; discriminate.
  - apply Ascii.eqb_neq. congruence.
Qed.

Lemma partition_at_plain h :
  PyStr.contains "@" h = false ->
  PyStr.partition_at h = (h, EmptyString, EmptyString).
Proof.
  induction h as [|c h IH]; [reflexivity|].
  intros H. apply contains_at_cons in H as [Hc Hh].
  simpl. rewrite Hc, (IH Hh). reflexivity.
Qed.

Lemma partition_at_first h t :
  PyStr.contains "@" h = false ->
  PyStr.partition_at (h ++ String "@" t) = (h, "@", t).
Proof.
  induction h as [|c h IH]; [reflexivity|].
  intros H. apply contains_at_cons in H as [Hc Hh].
  simpl. rewrite Hc, (IH Hh). reflexivity.
Qed.

(** X24. [_get_volume_backend] reads the backend from the host name:
    for a host [h@backend] with a backend that is not empty it returns
    that backend, whether or not a volume manager is registered for it;
    for a host without a separator, or with nothing after it, it falls
    back to [default] when that backend is registered and to the first
    registered backend otherwise. *)
Theorem get_volume_backend_of_host self h backend allow_null_host :
  PyStr.contains "@" h = false ->
  (backend <> EmptyString ->
   Manager._get_volume_backend self (Some (h ++ "@" ++ backend))
     allow_null_host = Ret backend) /\
  Manager._get_volume_backend self (Some h) allow_null_host =
    fallback_backend self /\
  Manager._get_volume_backend self (Some (h ++ "@")) allow_null_host =
    fallback_backend self.
Proof.
  intros Hh. unfold Manager._get_volume_backend, fallback_backend.
  split; [|split].
  - intros Hne. change (h ++ "@" ++ backend) with (h ++ String "@" backend).
    rewrite (partition_at_first _ _ Hh). cbn [String.eqb Ascii.eqb Bool.eqb].
    destruct backend; [congruence|]. reflexivity.
  - rewrite (partition_at_plain _ Hh). cbn [String.eqb andb].
    destruct (Manager.member _ _); reflexivity.
  - change (h ++ "@") with (h ++ String "@" EmptyString).
    rewrite (partition_at_first _ _ Hh). cbn [String.eqb Ascii.eqb Bool.eqb].
    cbn [negb andb]. destruct (Manager.member _ _); reflexivity.
Qed.

Lemma get_volume_backend_of_host_witness :
  Manager._get_volume_backend Sample.executor (Some "node1@lvm") false =
    Ret "lvm" /\
  Manager._get_volume_backend Sample.executor (Some "node1") false =
    Ret "lvm".
Proof.
  destruct (get_volume_backend_of_host Sample.executor "node1" "lvm" false
              eq_refl) as (H1 & H2 & _).
  split; [apply H1; discriminate | exact H2].
Defined.

(** ** The completion poll of an instance group *)

Lemma read_backups_run kwargs w :
  members_readable kwargs w ->
  Manager.read_backups kwargs w = (Ret (member_rows kwargs w), w).
Proof.
  induction kwargs as [|k kwargs IH]; intros H; [reflexivity|].
  destruct (H k (or_introl eq_refl)) as (b & _ & _ & Hb & _).
  unfold Manager.read_backups. simpl.
  rewrite (bind_Ret _ _ _ _ _ (backup_get_run _ _ _ Hb)).
  fold (Manager.read_backups kwargs).
  rewrite (bind_Ret _ _ _ _ _ (IH (fun k' Hin => H k' (or_intror Hin)))).
  unfold member_rows. simpl. rewrite Hb. reflexivity.
Qed.

Lemma member_rows_In kwargs w row :
  members_readable kwargs w ->
  In row (member_rows kwargs w) ->
  exists v t, volumes w !! b_volume_id row.2 = Some v /\
              v_volume_type v = Some t.
Proof.
  intros H Hin. apply list_elem_of_In in Hin.
  apply list_elem_of_omap in Hin as (k & Hk & Hrow).
  apply list_elem_of_In in Hk.
  destruct (H k Hk) as (b & v & t & Hb & Hv & Ht).
  rewrite Hb in Hrow. inversion Hrow; subst row. simpl. eauto.
Qed.

Lemma member_rows_status kwargs w k b :
  In k kwargs -> backups w !! kw_backup_id k = Some b ->
  In (b_status b) (List.map (fun r => b_status r.2) (member_rows kwargs w)).
Proof.
  intros Hin Hb. apply List.in_map_iff. exists (kw_backup_id k, b).
  split; [reflexivity|]. apply list_elem_of_In. apply list_elem_of_omap.
  exists k. split; [now apply list_elem_of_In|]. now rewrite Hb.
Qed.

Lemma by_volumetype_run rows name w :
  (forall row, In row rows ->
     exists v t, volumes w !! b_volume_id row.2 = Some v /\
                 v_volume_type v = Some t) ->
  exists l, Manager._get_backups_by_volumetype rows name w = (Ret l, w).
Proof.
  induction rows as [|row rows IH]; intros H; [eexists; reflexivity|].
  destruct (H row (or_introl eq_refl)) as (v & t & Hv & Ht).
  destruct (IH (fun r Hin => H r (or_intror Hin))) as (l & Hl).
  unfold Manager._get_backups_by_volumetype. simpl.
  rewrite (bind_Ret _ _ _ _ _ (volume_get_run _ _ _ Hv)). rewrite Ht.
  fold (Manager._get_backups_by_volumetype rows name).
  rewrite (bind_Ret _ _ _ _ _ Hl). eexists. reflexivity.
Qed.

Lemma poll_once_settled env kwargs attempt w :
  members_readable kwargs w ->
  (forall k b, In k kwargs -> backups w !! kw_backup_id k = Some b ->
     b_status b = "available" \/ b_status b = "error") ->
  Manager.poll_once env kwargs attempt w = (Ret true, w).
Proof.
  intros Hread Hst. unfold Manager.poll_once.
  rewrite (bind_Ret _ _ _ _ _ (read_backups_run _ _ Hread)).
  destruct (by_volumetype_run (member_rows kwargs w) FUJITSI_VOLUME_TYPE_NAME w)
    as (l1 & Hl1); [intros row; now apply member_rows_In|].
  destruct (by_volumetype_run (member_rows kwargs w) EBS_VOLUME_TYPE_NAME w)
    as (l2 & Hl2); [intros row; now apply member_rows_In|].
  rewrite (bind_Ret _ _ _ _ _ Hl1), (bind_Ret _ _ _ _ _ Hl2).
  replace (Manager.subset_of ["available"; "error"] _) with true;
    [reflexivity|].
  symmetry. unfold Manager.subset_of. apply forallb_forall.
  intros s Hs. apply List.in_map_iff in Hs as (row & <- & Hin).
  apply list_elem_of_In, list_elem_of_omap in Hin as (k & Hk & Hrow).
  apply list_elem_of_In in Hk.
  destruct (backups w !! kw_backup_id k) as [b|] eqn:Hb; [|discriminate].
  inversion Hrow; subst row. simpl.
  destruct (Hst k b Hk Hb) as [-> | ->]; reflexivity.
Qed.

(** X25. When every backup of the group is already [available] or
    [error], the wait returns at the first look: nothing is updated and the
    executor does not sleep. *)
Theorem wait_for_backups_all_settled env kwargs w :
  members_readable kwargs w ->
  (forall k b, In k kwargs -> backups w !! kw_backup_id k = Some b ->
     b_status b = "available" \/ b_status b = "error") ->
  Manager.wait_for_backups env kwargs w = (Ret tt, w).
Proof.
  intros Hread Hst. unfold Manager.wait_for_backups.
  change (seq 0 MOST_BACKUP_RETRIES) with (0%nat :: seq 1 719).
  erewrite bind_Ret; cycle 1.
  { cbn [Manager.poll].
    rewrite (bind_Ret _ _ _ _ _ (poll_once_settled env kwargs 0 w Hread Hst)).
    reflexivity. }
  reflexivity.
Qed.

Lemma group_done_readable : members_readable group_done_kwargs group_done.
Proof.
  intros k [<- | [<- | []]]; do 3 eexists;
    (split; [vm_compute; reflexivity|]);
    (split; [vm_compute; reflexivity | reflexivity]).
Qed.

Lemma wait_for_backups_all_settled_witness :
  Manager.wait_for_backups Sample.env group_done_kwargs group_done =
    (Ret tt, group_done).
Proof.
  apply (wait_for_backups_all_settled Sample.env group_done_kwargs group_done).
  - exact group_done_readable.
  - intros k b [<- | [<- | []]] Hb; vm_compute in Hb;
      inversion Hb; subst b; [left | right]; reflexivity.
Defined.

Lemma poll_never_breaks env kwargs w attempts last :
  (forall attempt, Manager.poll_once env kwargs attempt w = (Ret false, w)) ->
  Manager.poll env kwargs attempts last w =
    (Ret (List.last (List.map Some attempts) last, false), w).
Proof.
  intros Hnb. revert last.
  induction attempts as [|a attempts IH]; intros last; [reflexivity|].
  cbn [Manager.poll]. rewrite (bind_Ret _ _ _ _ _ (Hnb a)). rewrite IH.
  destruct attempts as [|n attempts]; [reflexivity|].
  do 3 f_equal.
  change (List.map Some (a :: n :: attempts))
    with (Some a :: List.map Some (n :: attempts)).
  change (List.last (Some a :: List.map Some (n :: attempts)) last)
    with (List.last (List.map Some (n :: attempts)) last).
  apply last_nonempty.
Qed.

Lemma subset_of_false allowed statuses s :
  In s statuses -> Manager.member s allowed = false ->
  Manager.subset_of allowed statuses = false.
Proof.
  intros Hin Hm. unfold Manager.subset_of.
  destruct (forallb _ statuses) eqn:Hf; [|reflexivity].
  rewrite forallb_forall in Hf. rewrite (Hf s Hin) in Hm. discriminate.
Qed.

Lemma poll_once_unexpected env kwargs attempt w k b :
  members_readable kwargs w ->
  In k kwargs ->
  backups w !! kw_backup_id k = Some b ->
  b_status b <> "available" -> b_status b <> "error" ->
  b_status b <> "creating" ->
  Manager.poll_once env kwargs attempt w = (Ret false, w).
Proof.
  intros Hread Hin Hb H1 H2 H3. unfold Manager.poll_once.
  rewrite (bind_Ret _ _ _ _ _ (read_backups_run _ _ Hread)).
  destruct (by_volumetype_run (member_rows kwargs w) FUJITSI_VOLUME_TYPE_NAME w)
    as (l1 & Hl1); [intros row; now apply member_rows_In|].
  destruct (by_volumetype_run (member_rows kwargs w) EBS_VOLUME_TYPE_NAME w)
    as (l2 & Hl2); [intros row; now apply member_rows_In|].
  rewrite (bind_Ret _ _ _ _ _ Hl1), (bind_Ret _ _ _ _ _ Hl2).
  pose proof (member_rows_status kwargs w k b Hin Hb) as Hs.
  rewrite (subset_of_false ["available"; "error"] _ _ Hs);
    [|unfold Manager.member; simpl;
      now rewrite (string_eqb_neq _ _ H1), (string_eqb_neq _ _ H2)].
  rewrite (subset_of_false ["available"; "error"; "creating"] _ _ Hs);
    [reflexivity|].
  unfold Manager.member. simpl.
  now rewrite (string_eqb_neq _ _ H1), (string_eqb_neq _ _ H2),
    (string_eqb_neq _ _ H3).
Qed.

(** X26. When a backup of the group has a status other than
    [available], [error] and [creating] (it is being deleted or restored,
    say), no iteration of the poll loop sleeps or breaks: the loop runs
    through its 720 iterations on the same world, and every backup of
    the group, finished or not, is then set to [error] with the reason of
    the time-out. *)
Theorem wait_for_backups_unexpected_status env kwargs w k b :
  members_readable kwargs w ->
  In k kwargs ->
  backups w !! kw_backup_id k = Some b ->
  b_status b <> "available" -> b_status b <> "error" ->
  b_status b <> "creating" ->
  Manager.wait_for_backups env kwargs w = Manager.mark_timed_out kwargs w /\
  exists w',
    Manager.wait_for_backups env kwargs w = (Ret tt, w') /\
    volumes w' = volumes w /\
    events w' = events w /\
    (forall k', In k' kwargs ->
       exists b', backups w' !! kw_backup_id k' = Some b' /\ timed_out b').
Proof.
  intros Hread Hin Hb H1 H2 H3.
  assert (Hw : Manager.wait_for_backups env kwargs w =
               Manager.mark_timed_out kwargs w).
  { unfold Manager.wait_for_backups.
    erewrite bind_Ret; cycle 1.
    { apply poll_never_breaks. intros attempt.
      apply (poll_once_unexpected env kwargs attempt w k b); assumption. }
    replace (List.last (List.map Some (seq 0 MOST_BACKUP_RETRIES)) None)
      with (Some 719%nat) by (vm_compute; reflexivity).
    reflexivity. }
  split; [exact Hw|]. rewrite Hw.
  destruct (mark_timed_out_all kwargs w) as (w' & Hrun & Hv & He & Hall & _).
  { intros k' Hk'. destruct (Hread k' Hk') as (b' & _ & _ & Hb' & _). eauto. }
  exists w'. auto.
Qed.

Lemma group_deleting_readable :
  members_readable group_done_kwargs group_deleting.
Proof.
  intros k [<- | [<- | []]]; do 3 eexists;
    (split; [vm_compute; reflexivity|]);
    (split; [vm_compute; reflexivity | reflexivity]).
Qed.

Lemma wait_for_backups_unexpected_status_witness :
  exists w',
    Manager.wait_for_backups Sample.env group_done_kwargs group_deleting =
      (Ret tt, w') /\
    volumes w' = volumes group_deleting /\
    events w' = events group_deleting /\
    (forall k', In k' group_done_kwargs ->
       exists b', backups w' !! kw_backup_id k' = Some b' /\ timed_out b').
Proof.
  apply (wait_for_backups_unexpected_status Sample.env group_done_kwargs
           group_deleting (mkKwargs (Some "node1") "b2" "v2")
           (Sample.backup "v2" "deleting" (Some 0) (Some "g") None 10)).
  - exact group_deleting_readable.
  - right; left; reflexivity.
  - vm_compute; reflexivity.
  - discriminate.
  - discriminate.
  - discriminate.
Defined.

Lemma freeze_records env instance st w :
  backups (Manager.freeze env instance st w).2 = backups w /\
  volumes (Manager.freeze env instance st w).2 = volumes w /\
  events (Manager.freeze env instance st w).2 =
    (events w ++
     if String.eqb st "active" then
       EvSync instance ::
       (if sync_fails env instance then [] else [EvFreeze instance])
     else [])%list.
Proof.
  unfold Manager.freeze, bind, modify.
  destruct (String.eqb st "active"); simpl.
  - destruct (sync_fails env instance); simpl; repeat split.
    now rewrite <- app_assoc.
  - repeat split. now rewrite app_nil_r.
Qed.

(** The records and the effect log when the poll starts. *)
Lemma poll_start_records self env ctx instance kwargs st w :
  backups (poll_start self env ctx instance kwargs st w) = backups w /\
  volumes (poll_start self env ctx instance kwargs st w) = volumes w /\
  events (poll_start self env ctx instance kwargs st w) =
    (events w ++
     if String.eqb st "active" then
       EvSync instance ::
       (if sync_fails env instance then [] else [EvFreeze instance])
     else [])%list.
Proof.
  unfold poll_start.
  destruct (spawn_workers_records self ctx kwargs
              (Manager.freeze env instance st w).2) as (Hb & Hv & He & _).
  destruct (freeze_records env instance st w) as (Hb' & Hv' & He').
  rewrite Hb, Hv, He. auto.
Qed.

(** X27. The thaw of the guest is not protected against a failure of the
    poll: for an active instance, when the first member of the group has
    no backup row, [create_instance_backup] raises [BackupNotFound] after
    the guest has been flushed and frozen, and no thaw is requested. *)
Theorem poll_failure_skips_thaw self env ctx instance k0 rest w :
  vm_state env instance = Ret "active" ->
  backups w !! kw_backup_id k0 = None ->
  exists w',
    Manager.create_instance_backup self env ctx instance (k0 :: rest) w =
      (Raise (BackupNotFound (kw_backup_id k0)), w') /\
    events w' =
      (events w ++
       EvSync instance ::
       (if sync_fails env instance then [] else [EvFreeze instance]))%list.
Proof.
  intros Hvm Hb.
  rewrite (create_instance_backup_run self env ctx instance (k0 :: rest) w
             "active" Hvm).
  destruct (poll_start_records self env ctx instance (k0 :: rest) "active" w)
    as (Hb1 & _ & He1).
  set (w1 := poll_start self env ctx instance (k0 :: rest) "active" w) in *.
  clearbody w1.
  exists w1. split; [|exact He1].
  erewrite bind_Raise; [reflexivity|].
  unfold Manager.wait_for_backups.
  erewrite bind_Raise; [reflexivity|].
  change (seq 0 MOST_BACKUP_RETRIES) with (0%nat :: seq 1 719).
  cbn [Manager.poll].
  erewrite bind_Raise; [reflexivity|].
  unfold Manager.poll_once.
  erewrite bind_Raise; [reflexivity|].
  unfold Manager.read_backups. cbn [foldr].
  erewrite bind_Raise; [reflexivity|].
  unfold Db.backup_get. now rewrite Hb1, Hb.
Qed.

Lemma poll_failure_skips_thaw_witness :
  exists w',
    Manager.create_instance_backup Sample.executor Sample.env Sample.admin
      "vm1" missing_member_kwargs group =
      (Raise (BackupNotFound "b0"), w') /\
    events w' = (events group ++ [EvSync "vm1"; EvFreeze "vm1"])%list.
Proof.
  apply (poll_failure_skips_thaw Sample.executor Sample.env Sample.admin
           "vm1" (mkKwargs (Some "node1") "b0" "v1")
           [mkKwargs (Some "node1") "b1" "v1"] group).
  - reflexivity.
  - vm_compute; reflexivity.
Defined.

(** ** The thaw of the guest *)

Lemma members_readable_same kwargs w w1 :
  backups w1 = backups w -> volumes w1 = volumes w ->
  members_readable kwargs w -> members_readable kwargs w1.
Proof.
  intros Hb Hv H k Hin. destruct (H k Hin) as (b & v & t & H1 & H2 & H3).
  exists b, v, t. rewrite Hb, Hv. auto.
Qed.




Lemma with_pool_append (xs ys : list Worker) w :
  with_pool (fun hub => (hub ++ ys)%list)
    (with_pool (fun hub => (hub ++ xs)%list) w) =
  with_pool (fun hub => (hub ++ xs ++ ys)%list) w.
Proof. unfold with_pool. simpl. now rewrite <- app_assoc. Qed.

Lemma spawn_workers_world self ctx kwargs w :
  (Manager.spawn_workers self ctx kwargs w).2 =
    with_workers_of self ctx kwargs w.
Proof.
  unfold Manager.spawn_workers, with_workers_of. revert w.
  induction kwargs as [|k kwargs IH]; intros w.
  - cbn [for_each List.map]. unfold ret, with_pool. cbn [snd].
    rewrite app_nil_r. destruct w; reflexivity.
  - cbn [for_each].
    rewrite (bind_Ret _ _ _ _ _ (spawn_n_run self ctx (kw_backup_id k) w)).
    rewrite IH. cbn [List.map]. apply with_pool_append.
Qed.





(** X29. A guest that is not active is neither flushed, frozen nor
    thawed: when the state of the instance is anything but [active], the
    run of [create_instance_backup] is the spawning of the workers and
    the wait for them.  When the member backups have all ended already,
    it returns at the first look of the poll: no record and no entry of
    the log has changed, and the workers of the members are on the hub,
    none of them started. *)
Theorem inactive_instance_untouched self env ctx instance kwargs w st :
  vm_state env instance = Ret st ->
  st <> "active" ->
  Manager.create_instance_backup self env ctx instance kwargs w =
    Manager.wait_for_backups env kwargs (with_workers_of self ctx kwargs w) /\
  (members_readable kwargs w ->
   (forall k b, In k kwargs -> backups w !! kw_backup_id k = Some b ->
      b_status b = "available" \/ b_status b = "error") ->
   Manager.create_instance_backup self env ctx instance kwargs w =
     (Ret tt, with_workers_of self ctx kwargs w)).
Proof.
  intros Hvm Hne.
  assert (Hrun : Manager.create_instance_backup self env ctx instance kwargs w
                 = Manager.wait_for_backups env kwargs
                     (with_workers_of self ctx kwargs w)).
  { rewrite (create_instance_backup_run self env ctx instance kwargs w st
               Hvm).
    unfold poll_start, Manager.freeze, Manager.thaw_guest.
    rewrite (string_eqb_neq _ _ Hne). cbn [ret snd].
    rewrite spawn_workers_world. unfold bind.
    destruct (Manager.wait_for_backups env kwargs
                (with_workers_of self ctx kwargs w)) as [[[]|e] w1];
      reflexivity. }
  split; [exact Hrun|].
  intros Hread Hst. rewrite Hrun.
  unfold Manager.wait_for_backups.
  change (seq 0 MOST_BACKUP_RETRIES) with (0%nat :: seq 1 719).
  erewrite bind_Ret; cycle 1.
  { cbn [Manager.poll].
    erewrite bind_Ret; cycle 1.
    { apply poll_once_settled.
      - apply (members_readable_same kwargs w); [reflexivity..|exact Hread].
      - exact Hst. }
    reflexivity. }
  reflexivity.
Qed.

Lemma inactive_instance_untouched_witness :
  Manager.create_instance_backup Sample.executor stopped_env Sample.admin
    "vm1" group_done_kwargs group_done =
  (Ret tt,
   with_workers_of Sample.executor Sample.admin group_done_kwargs
     group_done).
Proof.
  destruct (inactive_instance_untouched Sample.executor stopped_env
              Sample.admin "vm1" group_done_kwargs group_done "stopped")
    as [_ Hrun].
  - reflexivity.
  - discriminate.
  - apply Hrun.
    + exact group_done_readable.
    + intros k b [<- | [<- | []]] Hb; vm_compute in Hb;
        inversion Hb; subst b; [left | right]; reflexivity.
Defined.

(** ** Restore onto a new volume *)

(** The wait for the new volume: it is looked at once before each sleep,
    and the loop ends at the first look that finds it in another status
    than [creating]. *)
Lemma wait_while_creating_run env id v n :
  forall fuel k w,
    (forall i, (i < n)%nat ->
       volume_status (after_sleeps env k i w) id = Some (Some "creating")) ->
    volumes (after_sleeps env k n w) !! id = Some v ->
    v_status v <> Some "creating" ->
    (n < fuel)%nat ->
    API.wait_while_creating env id fuel k w =
      (Ret v, after_sleeps env k n w).
Proof.
  induction n as [|n IH]; intros fuel k w Hcr Hv Hst Hfuel;
    (destruct fuel as [|fuel]; [lia|]).
  - cbn [API.wait_while_creating after_sleeps] in *.
    unfold API.volume_api_get.
    rewrite (bind_Ret _ _ _ _ _ (volume_get_run _ _ _ Hv)).
    unfold status_is. rewrite (bool_decide_eq_false_2 _ Hst). reflexivity.
  - pose proof (Hcr 0%nat ltac:(lia)) as H0.
    cbn [after_sleeps] in H0. unfold volume_status in H0.
    destruct (volumes w !! id) as [v0|] eqn:Hv0; [|discriminate H0].
    injection H0 as H0.
    cbn [API.wait_while_creating]. unfold API.volume_api_get.
    rewrite (bind_Ret _ _ _ _ _ (volume_get_run _ _ _ Hv0)).
    unfold status_is. rewrite H0.
    rewrite bool_decide_eq_true_2 by reflexivity. cbn [negb].
    unfold bind at 1, modify at 1.
    cbn [after_sleeps] in Hv |- *.
    apply IH; [|exact Hv|exact Hst|lia].
    intros i Hi. apply (Hcr (S i)). lia.
Qed.

(** X30. A restore without a target asks the volume service for a new
    volume, passing the number in the size field of the backup as its
    size, waits while the volume is [creating], and does not clean up
    after itself: when the new volume leaves [creating], at the first
    look or after any number of sleeps, in a status other than
    [available] and [in-use], [restore] raises [InvalidVolume] and the
    world is the one found at that look, with the new volume still
    there. *)
Theorem restore_new_volume_failure_keeps_volume env ctx backup_id fuel w b
    size new_id w1 n v :
  backups w !! backup_id = Some b ->
  b_status b = "available" ->
  b_size b = Some size ->
  volume_api_create env size ("restore_backup_" ++ backup_id)
    "auto-created_from_restore_from_backup" w = (Ret new_id, w1) ->
  (forall i, (i < n)%nat ->
     volume_status (after_sleeps env 0 i w1) new_id =
       Some (Some "creating")) ->
  volumes (after_sleeps env 0 n w1) !! new_id = Some v ->
  v_status v <> Some "creating" ->
  v_status v <> Some "available" ->
  v_status v <> Some "in-use" ->
  (n < fuel)%nat ->
  exists reason,
    API.restore env ctx backup_id None fuel w =
      (Raise (InvalidVolume reason), after_sleeps env 0 n w1).
Proof.
  intros Hb Hst Hsize Hcreate Hcr Hv H1 H2 H3 Hfuel.
  unfold API.restore, API.get.
  rewrite (bind_Ret _ _ _ _ _ (backup_get_run _ _ _ Hb)).
  rewrite Hst, Hsize. cbn [String.eqb Ascii.eqb Bool.eqb negb].
  erewrite bind_Ret; cycle 1.
  { rewrite (bind_Ret _ _ _ _ _ Hcreate).
    erewrite bind_Ret; cycle 1.
    { apply (wait_while_creating_run env new_id v n fuel 0%nat w1);
        assumption. }
    reflexivity. }
  cbn [fst snd]. unfold status_is.
  rewrite (bool_decide_eq_false_2 _ H2), (bool_decide_eq_false_2 _ H3).
  cbn [orb negb].
  erewrite bind_Raise; [|reflexivity].
  eexists. reflexivity.
Qed.

Lemma restore_new_volume_failure_keeps_volume_witness :
  exists reason,
    API.restore failing_volume_env Sample.ctx "b1" None 5 after_backup =
      (Raise (InvalidVolume reason),
       with_volumes
         (insert "v-new"
            (Sample.volume "error" 512
               (Some "auto-created_from_restore_from_backup") [] "lvm"))
         after_backup).
Proof.
  destruct (restore_new_volume_failure_keeps_volume failing_volume_env
              Sample.ctx "b1" 5%nat after_backup finished_backup 512 "v-new"
              (with_volumes
                 (insert "v-new"
                    (Sample.volume "creating" 512
                       (Some "auto-created_from_restore_from_backup") []
                       "lvm"))
                 after_backup)
              2%nat
              (Sample.volume "error" 512
                 (Some "auto-created_from_restore_from_backup") [] "lvm"))
    as [reason Hrun].
  - vm_compute; reflexivity.
  - reflexivity.
  - reflexivity.
  - reflexivity.
  - intros i Hi.
    destruct i as [|[|i]]; [vm_compute; reflexivity
                           |vm_compute; reflexivity|lia].
  - vm_compute; reflexivity.
  - discriminate.
  - discriminate.
  - discriminate.
  - lia.
  - exists reason. exact Hrun.
Defined.
